(** * Scroodle server: matchmaking queue, room store and round state machine

    A shallow embedding of the server module of the repository
    (src/unnamed/part_003, the Express application on the Devvit runtime) and
    the properties of its matchmaking scheduler, optimistic transactions,
    round state machine, resolution engine and broadcast redaction.

    Conventions of the embedding.
    - JavaScript strings are [string] (sequences of 8-bit characters); the
      built-ins [trim] and [toLowerCase] are given on ASCII.
    - [Date.now()] readings, scores and round numbers are integers ([Z]).
      Numbers that come from the subreddit settings may be fractional and are
      rationals ([Q]); double rounding is not modelled.
    - An optional field [f?: T] is [option T]; JavaScript truthiness of such a
      field is spelled out ([Js.truthy_str], [Js.truthy_Z], [Js.truthy_Q]).
    - A JavaScript object used as a map and enumerated with [Object.values]
      (the players of a room) is an insertion-ordered association list
      ([Js.obj]); maps that are looked up, or enumerated only to visit each
      key (the room index), are [gmap].
    - Redis holds JSON text; records are stored as themselves
      ([JSON.parse (JSON.stringify r) = r] on well-typed records), and a key
      that is absent or does not parse reads as the default of its loader. *)

From Stdlib Require Import ZArith QArith Qround Qminmax Lqa Bool Ascii String List Sorted Permutation Lia.
From stdpp Require Import gmap strings list pretty.
Import ListNotations.

Local Open Scope string_scope.
Local Open Scope Z_scope.

(** ** JavaScript built-ins used by the server *)
Module Js.

(** Truthiness of an optional string: [undefined] and [""] are falsy. *)
Definition truthy_str (o : option string) : bool :=
  match o with
  | Some s => negb (String.eqb s "")
  | None => false
  end.

(** Truthiness of an optional integer: [undefined] and [0] are falsy. *)
Definition truthy_Z (o : option Z) : bool :=
  match o with
  | Some n => negb (n =? 0)
  | None => false
  end.

(** Truthiness of an optional number: [undefined] and [0] are falsy. *)
Definition truthy_Q (o : option Q) : bool :=
  match o with
  | Some q => negb (Qeq_bool q 0)
  | None => false
  end.

(** [a < b] and [a >= b] on finite numbers. *)
Definition ltb (a b : Q) : bool := negb (Qle_bool b a).
Definition geb (a b : Q) : bool := Qle_bool b a.

(** A JavaScript number: a finite value or one of the three non-finite ones. *)
Inductive number : Type :=
| Finite (q : Q)
| NaN
| PosInf
| NegInf.

(** [Number.isFinite]. *)
Definition isFinite (n : number) : bool :=
  match n with
  | Finite _ => true
  | _ => false
  end.

(** Character classes of the regular expressions in the source. *)
Definition isUpper (c : ascii) : bool :=
  let n := nat_of_ascii c in (65 <=? n)%nat && (n <=? 90)%nat.
Definition isLower (c : ascii) : bool :=
  let n := nat_of_ascii c in (97 <=? n)%nat && (n <=? 122)%nat.
Definition isDigit (c : ascii) : bool :=
  let n := nat_of_ascii c in (48 <=? n)%nat && (n <=? 57)%nat.
Definition isLetter (c : ascii) : bool := isUpper c || isLower c.
Definition isSpace (c : ascii) : bool :=
  let n := nat_of_ascii c in
  (n =? 32)%nat || ((9 <=? n)%nat && (n <=? 13)%nat).

Fixpoint mapChars (f : ascii -> ascii) (s : string) : string :=
  match s with
  | EmptyString => EmptyString
  | String c s' => String (f c) (mapChars f s')
  end.

Fixpoint filterChars (f : ascii -> bool) (s : string) : string :=
  match s with
  | EmptyString => EmptyString
  | String c s' => if f c then String c (filterChars f s') else filterChars f s'
  end.

Fixpoint allChars (f : ascii -> bool) (s : string) : bool :=
  match s with
  | EmptyString => true
  | String c s' => f c && allChars f s'
  end.


(** [String.prototype.toLowerCase] on ASCII. *)
Definition lowerChar (c : ascii) : ascii :=
  if isUpper c then ascii_of_nat (nat_of_ascii c + 32) else c.
Definition toLowerCase (s : string) : string := mapChars lowerChar s.

(** [String.prototype.trim] on ASCII white space. *)
Fixpoint trimStart (s : string) : string :=
  match s with
  | EmptyString => EmptyString
  | String c s' => if isSpace c then trimStart s' else s
  end.
Fixpoint trimEnd (s : string) : string :=
  match s with
  | EmptyString => EmptyString
  | String c s' =>
      match trimEnd s' with
      | EmptyString => if isSpace c then EmptyString else String c EmptyString
      | t => String c t
      end
  end.
Definition trim (s : string) : string := trimEnd (trimStart s).

(** [s.slice(0, n)] for a non-negative literal [n]. *)
Definition sliceTo (n : nat) (s : string) : string := substring 0 n s.

(** [Array.prototype.slice(0, end)]: [end] is truncated towards zero, a
    negative [end] counts from the end of the array. *)
Definition truncate (q : Q) : Z :=
  if Qle_bool 0 q then Qfloor q else Qceiling q.
Definition sliceEnd {A} (l : list A) (e : Q) : nat :=
  let len := Z.of_nat (length l) in
  let rel := truncate e in
  Z.to_nat (if rel <? 0 then Z.max (len + rel) 0 else Z.min rel len).
Definition slice0 {A} (l : list A) (e : Q) : list A := firstn (sliceEnd l e) l.
(** [Array.prototype.slice(start)] for an in-range integer [start]. *)
Definition sliceFrom {A} (l : list A) (start : nat) : list A := skipn start l.

(** [Array.prototype.sort] with a comparator: stable (ECMAScript 2019), here
    by insertion; [le a b] is [cmp(a, b) <= 0]. *)
Fixpoint insertBy {A} (le : A -> A -> bool) (x : A) (l : list A) : list A :=
  match l with
  | [] => [x]
  | y :: l' => if le x y then x :: y :: l' else y :: insertBy le x l'
  end.
Fixpoint sortBy {A} (le : A -> A -> bool) (l : list A) : list A :=
  match l with
  | [] => []
  | x :: l' => insertBy le x (sortBy le l')
  end.

(** [Array.prototype.findIndex] / [indexOf]: [-1] when nothing matches. *)
Fixpoint findIndex {A} (f : A -> bool) (l : list A) : Z :=
  match l with
  | [] => -1
  | x :: l' =>
      if f x then 0
      else let i := findIndex f l' in if i <? 0 then -1 else i + 1
  end.
Definition indexOf (l : list string) (x : string) : Z :=
  findIndex (String.eqb x) l.

(** [arr[i]] for a number [i]: [undefined] out of range. *)
Definition at_ {A} (l : list A) (i : Z) : option A :=
  if i <? 0 then None else nth_error l (Z.to_nat i).

(** [arr[i] = f(arr[i])] for an index [i] found by [findIndex]. *)
Fixpoint updateNth {A} (n : nat) (f : A -> A) (l : list A) : list A :=
  match l, n with
  | [], _ => []
  | x :: l', O => f x :: l'
  | x :: l', S n' => x :: updateNth n' f l'
  end.
Definition updateAt {A} (i : Z) (f : A -> A) (l : list A) : list A :=
  if i <? 0 then l else updateNth (Z.to_nat i) f l.

(** [a % b] on integers with [a >= 0]: [NaN] (here [None]) when [b] is 0. *)
Definition rem (a b : Z) : option Z :=
  if b =? 0 then None else Some (Z.rem a b).

(** [Array.prototype.includes] on strings. *)
Definition includes (l : list string) (x : string) : bool :=
  existsb (String.eqb x) l.

(** [Array.prototype.join]. *)
Fixpoint join (sep : string) (l : list string) : string :=
  match l with
  | [] => ""
  | [x] => x
  | x :: l' => (x ++ sep ++ join sep l')%string
  end.

(** A plain object with string keys, in insertion order. *)
Definition obj (V : Type) : Type := list (string * V).

Fixpoint get {V} (o : obj V) (k : string) : option V :=
  match o with
  | [] => None
  | (k', v) :: o' => if String.eqb k k' then Some v else get o' k
  end.

(** [o[k] = v]: an existing key keeps its place. *)
Fixpoint set {V} (o : obj V) (k : string) (v : V) : obj V :=
  match o with
  | [] => [(k, v)]
  | (k', v') :: o' =>
      if String.eqb k k' then (k', v) :: o' else (k', v') :: set o' k v
  end.

(** [o[k].f = ...] on a key that is present. *)
Fixpoint adjust {V} (o : obj V) (k : string) (f : V -> V) : obj V :=
  match o with
  | [] => []
  | (k', v') :: o' =>
      if String.eqb k k' then (k', f v') :: o' else (k', v') :: adjust o' k f
  end.

(** [delete o[k]]. *)
Definition del {V} (o : obj V) (k : string) : obj V :=
  List.filter (fun kv => negb (String.eqb k (fst kv))) o.

Definition has {V} (o : obj V) (k : string) : bool :=
  match get o k with Some _ => true | None => false end.

Definition keys {V} (o : obj V) : list string := map fst o.
Definition values {V} (o : obj V) : list V := map snd o.

(** [Object.fromEntries]. *)
Definition fromEntries {V} (l : list (string * V)) : obj V :=
  fold_left (fun o kv => set o (fst kv) (snd kv)) l [].

End Js.

(** ** Data model (type declarations of the server module) *)

Module Player.
Record t : Type := mk {
  userId : string;
  userName : string;
  score : Z;
  lastSeen : Z
}.
Definition addScore (d : Z) (p : t) : t :=
  mk (userId p) (userName p) (score p + d) (lastSeen p).
Definition setLastSeen (now : Z) (p : t) : t :=
  mk (userId p) (userName p) (score p) now.
End Player.

Module QueueEntry.
Record t : Type := mk {
  userId : string;
  userName : string;
  joinedAt : Z;
  lastSeen : Z
}.
(** [q.lastSeen = now; q.userName = userName]. *)
Definition refresh (now : Z) (name : string) (q : t) : t :=
  mk (userId q) name (joinedAt q) now.
End QueueEntry.

Inductive Status : Type := waiting | playing | ended.

Definition Status_eqb (a b : Status) : bool :=
  match a, b with
  | waiting, waiting | playing, playing | ended, ended => true
  | _, _ => false
  end.

Module RoomState.
Record t : Type := mk {
  roomId : string;
  status : Status;
  createdAt : Z;
  updatedAt : Z;
  players : Js.obj Player.t;
  order : list string;
  roundNumber : Z;
  maxRounds : Q;
  drawerUserId : option string;
  word : option string;
  roundEndsAt : option Q;
  roundResolvedAt : option Z;
  guessedCorrectUserIds : list string
}.

Definition setStatus (v : Status) (r : t) : t :=
  mk (roomId r) v (createdAt r) (updatedAt r) (players r) (order r)
     (roundNumber r) (maxRounds r) (drawerUserId r) (word r) (roundEndsAt r)
     (roundResolvedAt r) (guessedCorrectUserIds r).
Definition setUpdatedAt (v : Z) (r : t) : t :=
  mk (roomId r) (status r) (createdAt r) v (players r) (order r)
     (roundNumber r) (maxRounds r) (drawerUserId r) (word r) (roundEndsAt r)
     (roundResolvedAt r) (guessedCorrectUserIds r).
Definition setPlayers (v : Js.obj Player.t) (r : t) : t :=
  mk (roomId r) (status r) (createdAt r) (updatedAt r) v (order r)
     (roundNumber r) (maxRounds r) (drawerUserId r) (word r) (roundEndsAt r)
     (roundResolvedAt r) (guessedCorrectUserIds r).
Definition setOrder (v : list string) (r : t) : t :=
  mk (roomId r) (status r) (createdAt r) (updatedAt r) (players r) v
     (roundNumber r) (maxRounds r) (drawerUserId r) (word r) (roundEndsAt r)
     (roundResolvedAt r) (guessedCorrectUserIds r).
Definition setRoundNumber (v : Z) (r : t) : t :=
  mk (roomId r) (status r) (createdAt r) (updatedAt r) (players r) (order r)
     v (maxRounds r) (drawerUserId r) (word r) (roundEndsAt r)
     (roundResolvedAt r) (guessedCorrectUserIds r).
Definition setMaxRounds (v : Q) (r : t) : t :=
  mk (roomId r) (status r) (createdAt r) (updatedAt r) (players r) (order r)
     (roundNumber r) v (drawerUserId r) (word r) (roundEndsAt r)
     (roundResolvedAt r) (guessedCorrectUserIds r).
Definition setDrawerUserId (v : option string) (r : t) : t :=
  mk (roomId r) (status r) (createdAt r) (updatedAt r) (players r) (order r)
     (roundNumber r) (maxRounds r) v (word r) (roundEndsAt r)
     (roundResolvedAt r) (guessedCorrectUserIds r).
Definition setWord (v : option string) (r : t) : t :=
  mk (roomId r) (status r) (createdAt r) (updatedAt r) (players r) (order r)
     (roundNumber r) (maxRounds r) (drawerUserId r) v (roundEndsAt r)
     (roundResolvedAt r) (guessedCorrectUserIds r).
Definition setRoundEndsAt (v : option Q) (r : t) : t :=
  mk (roomId r) (status r) (createdAt r) (updatedAt r) (players r) (order r)
     (roundNumber r) (maxRounds r) (drawerUserId r) (word r) v
     (roundResolvedAt r) (guessedCorrectUserIds r).
Definition setRoundResolvedAt (v : option Z) (r : t) : t :=
  mk (roomId r) (status r) (createdAt r) (updatedAt r) (players r) (order r)
     (roundNumber r) (maxRounds r) (drawerUserId r) (word r) (roundEndsAt r)
     v (guessedCorrectUserIds r).
Definition setGuessedCorrectUserIds (v : list string) (r : t) : t :=
  mk (roomId r) (status r) (createdAt r) (updatedAt r) (players r) (order r)
     (roundNumber r) (maxRounds r) (drawerUserId r) (word r) (roundEndsAt r)
     (roundResolvedAt r) v.
End RoomState.

(** The player record sent to viewers and the redacted room snapshot
    ([RoomPublicState] of the shared protocol, as [publicState] builds it). *)
Module RoomPublicState.
Record t : Type := mk {
  roomId : string;
  status : Status;
  createdAt : Z;
  updatedAt : Z;
  players : list Player.t;
  drawerUserId : option string;
  roundEndsAt : option Q;
  roundNumber : Z;
  maxRounds : Q;
  wordMask : option string;
  word : option string
}.
End RoomPublicState.

Inductive EndReason : Type := reason_time | reason_guessed | reason_left.

(** The realtime messages the server sends. *)
Inductive RealtimeMessage : Type :=
| MsgRoomState (state : RoomPublicState.t)
| MsgChat (from text : string) (correct : bool)
| MsgSystem (text : string)
| MsgRoundEnded (reason : EndReason)
| MsgMatchFound (roomId roomChannel : string).

(** ** Keys and channels *)

(** [safe]: every character outside [a-zA-Z0-9_] becomes an underscore. *)
Definition safeChar (c : ascii) : ascii :=
  if Js.isLetter c || Js.isDigit c || Ascii.eqb c "_"%char then c else "_"%char.
Definition safe (s : string) : string := Js.mapChars safeChar s.

(** [k(postId, ...parts)]: the Redis key of a post-scoped value. *)
Definition k (postId : string) (parts : list string) : string :=
  Js.join "|" ("scroodle" :: safe postId :: map safe parts).

Definition roomChannel (postId roomId : string) : string :=
  safe ("room-" ++ postId ++ "-" ++ roomId)%string.

Definition roomStorageKey (postId roomId : string) : string :=
  k postId ["room"; roomId].

Definition userChannel (postId userId : string) : string :=
  safe ("u-" ++ postId ++ "-" ++ userId)%string.

(** ** Subreddit settings *)

(** What [settings.get(name)] yields: a value whose [typeof] is ["number"], or
    any other value (a string, a boolean, [undefined], ...) together with the
    number that [Number(val)] coerces it to. *)
Inductive SettingValue : Type :=
| SettingNumber (n : Js.number)
| SettingOther (coerced : Js.number).

(** A setting that was never configured: [Number(undefined)] is [NaN]. *)
Definition SettingUnset : SettingValue := SettingOther Js.NaN.

Definition Settings : Type := string -> SettingValue.

Definition getSubredditSettingNumber
    (st : Settings) (name : string) (fallback : Q) : Q :=
  let n := match st name with
           | SettingNumber v => v
           | SettingOther c => c
           end in
  match n with
  | Js.Finite q => q
  | _ => fallback
  end.

Definition MAX_QUEUE_TRANSACTION_RETRIES : nat := 5.

(** ** Optimistic transactions on one Redis key

    Every retry loop of the server has the same shape: WATCH the key, GET it,
    compute, then either leave the handler or queue one SET and EXEC; a
    conflict ([tryExec] yields [null]) starts the next pass.  [Txn.retry] runs
    such a loop against the value of the key and a schedule that says, pass by
    pass, whether another client wrote the key inside the watched window. *)
Module Txn.
Section Retry.
Context {V R : Type}.

(** One pass after WATCH and GET. *)
Inductive attempt : Type :=
| Return (r : R)           (* [return] inside the loop: no EXEC *)
| Exec (v : V) (r : R).    (* [txn.set(key, v)] then [tryExec(txn)] *)

(** What other clients do to the key during one pass. *)
Inductive interference : Type :=
| quiet
| write_before_get (w : V)   (* after WATCH, before GET *)
| write_after_get (w : V).   (* after GET, before EXEC *)

Inductive outcome : Type :=
| Returned (r : R)
| Committed (r : R)
| Exhausted.

Fixpoint retry (body : V -> attempt) (passes : nat)
    (sched : list interference) (cur : V) : V * outcome :=
  match passes with
  | O => (cur, Exhausted)
  | S passes' =>
      let i := hd quiet sched in
      let seen := match i with write_before_get w => w | _ => cur end in
      match body seen with
      | Return r => (seen, Returned r)
      | Exec v r =>
          match i with
          | quiet => (v, Committed r)
          | write_before_get w => retry body passes' (tl sched) w
          | write_after_get w => retry body passes' (tl sched) w
          end
      end
  end.
(** The values other clients wrote, in the order of the schedule. *)
Definition writes (sched : list interference) : list V :=
  flat_map (fun i => match i with
                     | quiet => []
                     | write_before_get w => [w]
                     | write_after_get w => [w]
                     end) sched.

(** Another client wrote the key inside the watched window of this pass. *)
Definition conflicts (i : interference) : bool :=
  match i with
  | quiet => false
  | _ => true
  end.

(** Every one of the [passes] passes of a loop meets a conflict. *)
Definition allConflict (passes : nat) (sched : list interference) : bool :=
  (passes <=? length sched)%nat && forallb conflicts (firstn passes sched).
End Retry.
Arguments attempt : clear implicits.
Arguments interference : clear implicits.
Arguments outcome : clear implicits.
End Txn.

(** ** Queue scheduler *)

Definition Queue : Type := list QueueEntry.t.

(** [q.lastSeen >= staleCutoff]. *)
Definition notStale (staleCutoff : Q) (q : QueueEntry.t) : bool :=
  Js.geb (inject_Z (QueueEntry.lastSeen q)) staleCutoff.

(** [now - inactiveKickSeconds * 1000]. *)
Definition staleCutoffOf (now : Z) (inactiveKickSeconds : Q) : Q :=
  (inject_Z now - inactiveKickSeconds * 1000)%Q.

(** The comparator [(a, b) => a.joinedAt - b.joinedAt]. *)
Definition byJoinedAt (a b : QueueEntry.t) : bool :=
  QueueEntry.joinedAt a <=? QueueEntry.joinedAt b.

(** "Ordered by joinedAt ascending": the oldest entry comes first. *)
Definition oldestFirst (queue : Queue) : Prop :=
  StronglySorted
    (fun a b => QueueEntry.joinedAt a <= QueueEntry.joinedAt b) queue.

(** The read-modify part of [queueUpsertAtomic] (the same in the loop and in
    the fallback): drop stale entries, refresh or append the caller, sort. *)
Definition upsertQueue (userId userName : string) (now : Z) (staleCutoff : Q)
    (raw : Queue) : Queue :=
  let queue := List.filter (notStale staleCutoff) raw in
  let idx :=
    Js.findIndex (fun q => String.eqb (QueueEntry.userId q) userId) queue in
  let queue :=
    if 0 <=? idx
    then Js.updateAt idx (QueueEntry.refresh now userName) queue
    else (queue ++ [QueueEntry.mk userId userName now now])%list in
  Js.sortBy byJoinedAt queue.

Definition queueUpsertAtomic (userId userName : string) (now : Z)
    (inactiveKickSeconds : Q) (sched : list (Txn.interference Queue))
    (stored : Queue) : Queue * Queue :=
  let staleCutoff := staleCutoffOf now inactiveKickSeconds in
  let body raw :=
    let queue := upsertQueue userId userName now staleCutoff raw in
    Txn.Exec queue queue in
  match Txn.retry body MAX_QUEUE_TRANSACTION_RETRIES sched stored with
  | (stored', Txn.Committed queue) => (stored', queue)
  | (stored', Txn.Returned queue) => (stored', queue)
  | (stored', Txn.Exhausted) =>
      (* Fallback to non-atomic on retry exhaustion *)
      let queue := upsertQueue userId userName now staleCutoff stored' in
      (queue, queue)
  end.

Definition queueFilterStaleAtomic (staleCutoff : Q)
    (sched : list (Txn.interference Queue)) (stored : Queue) : Queue * bool :=
  let body raw :=
    Txn.Exec (List.filter (notStale staleCutoff) raw) tt in
  match Txn.retry body MAX_QUEUE_TRANSACTION_RETRIES sched stored with
  | (stored', Txn.Committed _) => (stored', true)
  | (stored', Txn.Returned _) => (stored', true)
  | (stored', Txn.Exhausted) => (stored', false)
  end.

Definition removeUser (userId : string) (raw : Queue) : Queue :=
  List.filter (fun q => negb (String.eqb (QueueEntry.userId q) userId)) raw.

Definition queueRemoveUserAtomic (userId : string)
    (sched : list (Txn.interference Queue)) (stored : Queue) : Queue :=
  let body raw := Txn.Exec (removeUser userId raw) tt in
  match Txn.retry body MAX_QUEUE_TRANSACTION_RETRIES sched stored with
  | (stored', Txn.Committed _) => stored'
  | (stored', Txn.Returned _) => stored'
  | (stored', Txn.Exhausted) =>
      (* Fallback keeps "Cancel" reliable even under heavy contention. *)
      removeUser userId stored'
  end.

(** The four clamped settings read at the top of [tryMatchPickAtomic]. *)
Record PickSettings : Type := {
  maxPlayers : Q;
  minPlayersToStart : Q;
  quickStartSeconds : Q;
  inactiveKickSeconds : Q
}.

Definition pickSettings (st : Settings) : PickSettings := {|
  maxPlayers := Qmin 4 (Qmax 2 (getSubredditSettingNumber st "maxPlayers" 4));
  minPlayersToStart := Qmax 2 (getSubredditSettingNumber st "minPlayersToStart" 2);
  quickStartSeconds := Qmax 1 (getSubredditSettingNumber st "queueQuickStartSeconds" 8);
  inactiveKickSeconds := Qmax 5 (getSubredditSettingNumber st "inactiveKickSeconds" 20)
|}.

(** What [tryMatchPickAtomic] yields: [null], the picked entries, or the
    [TypeError] of reading [queue[0].joinedAt] on an empty array. *)
Inductive PickResult : Type :=
| NoMatch
| Picked (picked : Queue)
| PickTypeError.

Definition qlen (queue : Queue) : Q := inject_Z (Z.of_nat (length queue)).

(** [canStart] for a queue whose first entry is [first]. *)
Definition canStart (ps : PickSettings) (now : Z) (queue : Queue)
    (first : QueueEntry.t) : bool :=
  let oldestWait := now - QueueEntry.joinedAt first in
  Js.geb (qlen queue) (maxPlayers ps)
  || (Js.geb (qlen queue) (minPlayersToStart ps)
      && Js.geb (inject_Z oldestWait) (quickStartSeconds ps * 1000)%Q).


(** One pass of the loop of [tryMatchPickAtomic] on the value read. *)
Definition matchPickPass (ps : PickSettings) (now : Z) (raw : Queue)
    : Txn.attempt Queue PickResult :=
  let staleCutoff := staleCutoffOf now (inactiveKickSeconds ps) in
  let queue := List.filter (notStale staleCutoff) raw in
  if Js.ltb (qlen queue) (minPlayersToStart ps) then Txn.Return NoMatch
  else
    match queue with
    | [] => Txn.Return PickTypeError
    | first :: _ =>
        if negb (canStart ps now queue first) then Txn.Return NoMatch
        else
          let picked := Js.slice0 queue (Qmin (maxPlayers ps) (qlen queue)) in
          let remaining := Js.sliceFrom queue (length picked) in
          Txn.Exec remaining (Picked picked)
    end.

Definition tryMatchPickAtomic (st : Settings) (now : Z)
    (sched : list (Txn.interference Queue)) (stored : Queue)
    : Queue * PickResult :=
  match Txn.retry (matchPickPass (pickSettings st) now)
                  MAX_QUEUE_TRANSACTION_RETRIES sched stored with
  | (stored', Txn.Committed r) => (stored', r)
  | (stored', Txn.Returned r) => (stored', r)
  | (stored', Txn.Exhausted) => (stored', NoMatch)
  end.

(** ** The Redis keys of one post, and the realtime outbox *)

Record World : Type := mkWorld {
  settings : Settings;
  (** key [k(postId, "queue")], read through [parseQueue] *)
  queue : Queue;
  (** keys [k(postId, "room", roomId)], by [safe roomId] *)
  rooms : gmap string RoomState.t;
  (** key [k(postId, "rooms")] *)
  roomIndex : gmap string Z;
  (** key [k(postId, "userRooms")] *)
  userRooms : gmap string string;
  (** key [POSTS_KEY] *)
  trackedPosts : list string;
  (** key ["scroodle|words|active"]: [None] when absent or not an array *)
  activeWords : option (list string);
  (** everything passed to [realtime.send], oldest first *)
  sent : list (string * RealtimeMessage)
}.

Definition setQueue (v : Queue) (w : World) : World :=
  mkWorld (settings w) v (rooms w) (roomIndex w) (userRooms w)
          (trackedPosts w) (activeWords w) (sent w).
Definition setRooms (v : gmap string RoomState.t) (w : World) : World :=
  mkWorld (settings w) (queue w) v (roomIndex w) (userRooms w)
          (trackedPosts w) (activeWords w) (sent w).
Definition setRoomIndex (v : gmap string Z) (w : World) : World :=
  mkWorld (settings w) (queue w) (rooms w) v (userRooms w)
          (trackedPosts w) (activeWords w) (sent w).
Definition setUserRooms (v : gmap string string) (w : World) : World :=
  mkWorld (settings w) (queue w) (rooms w) (roomIndex w) v
          (trackedPosts w) (activeWords w) (sent w).
Definition setTrackedPosts (v : list string) (w : World) : World :=
  mkWorld (settings w) (queue w) (rooms w) (roomIndex w) (userRooms w)
          v (activeWords w) (sent w).
Definition setActiveWords (v : option (list string)) (w : World) : World :=
  mkWorld (settings w) (queue w) (rooms w) (roomIndex w) (userRooms w)
          (trackedPosts w) v (sent w).

(** [realtime.send(chan, msg)]. *)
Definition send (chan : string) (msg : RealtimeMessage) (w : World) : World :=
  mkWorld (settings w) (queue w) (rooms w) (roomIndex w) (userRooms w)
          (trackedPosts w) (activeWords w) (sent w ++ [(chan, msg)])%list.

(** ** Storage helpers *)

Definition loadQueue (w : World) : Queue := queue w.
Definition saveQueue (q : Queue) (w : World) : World := setQueue q w.

Definition loadRoom (w : World) (roomId : string) : option RoomState.t :=
  rooms w !! safe roomId.

Definition saveRoom (room : RoomState.t) (w : World) : World :=
  let w := setRooms (<[safe (RoomState.roomId room) := room]> (rooms w)) w in
  setRoomIndex
    (<[RoomState.roomId room := RoomState.updatedAt room]> (roomIndex w)) w.

Definition deleteRoom (roomId : string) (w : World) : World :=
  let w := setRooms (delete (safe roomId) (rooms w)) w in
  setRoomIndex (delete roomId (roomIndex w)) w.

(** [[...new Set(l)]]: first occurrences, in order. *)
Fixpoint uniq (l : list string) : list string :=
  match l with
  | [] => []
  | x :: l' => x :: List.filter (fun y => negb (String.eqb x y)) (uniq l')
  end.

Definition trackPost (postId : string) (w : World) : World :=
  if Js.includes (trackedPosts w) postId then w
  else setTrackedPosts (uniq (trackedPosts w ++ [postId])%list) w.

(** The map update of [setUserRoom]: a truthy [roomId] is recorded, [null]
    (or the empty string) removes the entry. *)
Definition updateUserRoom (userId : string) (roomId : option string)
    (m : gmap string string) : gmap string string :=
  match roomId with
  | Some r => if Js.truthy_str roomId then <[userId := r]> m else delete userId m
  | None => delete userId m
  end.

Definition setUserRoomOn (userId : string) (roomId : option string)
    (sched : list (Txn.interference (gmap string string)))
    (stored : gmap string string) : gmap string string :=
  let body m := Txn.Exec (updateUserRoom userId roomId m) tt in
  match Txn.retry body MAX_QUEUE_TRANSACTION_RETRIES sched stored with
  | (stored', Txn.Committed _) => stored'
  | (stored', Txn.Returned _) => stored'
  | (stored', Txn.Exhausted) =>
      (* Fallback when retries are exhausted *)
      updateUserRoom userId roomId stored'
  end.

(** Handlers are run one at a time here: no other client writes a key inside
    a watched window, so the schedule of every transaction is empty. *)
Definition setUserRoom (userId : string) (roomId : option string)
    (w : World) : World :=
  setUserRooms (setUserRoomOn userId roomId [] (userRooms w)) w.

Definition getUserRoom (w : World) (userId : string) : option string :=
  userRooms w !! userId.

(** ** Game helpers *)

Definition WORDS : list string :=
  [ "guitar"; "mountain"; "river"; "computer"; "lantern"; "nebula"; "whisper";
    "coffee"; "dragon"; "galaxy"; "pyramid"; "umbrella"; "volcano";
    "snowflake"; "compass"; "bicycle"; "backpack"; "telescope"; "rainbow";
    "octopus"; "saxophone"; "keyboard"; "sandcastle"; "waterfall";
    "spaceship"; "pineapple"; "sunflower"; "candle"; "butterfly"; "castle";
    "broom"; "tiger"; "turtle"; "lion"; "elephant"; "giraffe"; "zebra";
    "panda"; "koala"; "penguin"; "dolphin"; "whale"; "shark"; "crab";
    "lobster"; "seahorse"; "snoo"; "shoe"; "sock"; "glove"; "hat" ].

Definition getWordPool (w : World) : list string :=
  match activeWords w with
  | None => WORDS
  | Some parsed =>
      let words :=
        List.filter
          (fun x => (3 <=? String.length x)%nat && (String.length x <=? 24)%nat)
          (map (fun x => Js.toLowerCase (Js.trim x)) parsed) in
      match words with
      | [] => WORDS
      | _ => words
      end
  end.

(** [pool[Math.floor(Math.random() * pool.length)]] for the reading [random]
    of [Math.random()]. *)
Definition pickWord (w : World) (random : Q) : option string :=
  let pool := getWordPool w in
  Js.at_ pool (Qfloor (random * inject_Z (Z.of_nat (length pool)))).

Definition maskWord (word : string) : string :=
  Js.mapChars (fun c => if Js.isLetter c then "_"%char else c) word.

(** [withRoomDefaults] on a record of type [RoomState]: the list of correct
    guessers is an array and [maxRounds] is finite by type, which leaves the
    lower bound on [maxRounds]. *)
Definition withRoomDefaults (room : RoomState.t) : RoomState.t :=
  if Js.ltb (RoomState.maxRounds room) 1
  then RoomState.setMaxRounds 3 room
  else room.

(** The comparator [(a, b) => b.score - a.score]. *)
Definition byScoreDesc (a b : Player.t) : bool :=
  Player.score b <=? Player.score a.

Definition isDrawer (room : RoomState.t) (viewerId : string) : bool :=
  match RoomState.drawerUserId room with
  | Some d => String.eqb d viewerId
  | None => false
  end.

Definition publicState (room : RoomState.t) (viewerId : string)
    : RoomPublicState.t :=
  let players := Js.sortBy byScoreDesc (Js.values (RoomState.players room)) in
  {| RoomPublicState.roomId := RoomState.roomId room;
     RoomPublicState.status := RoomState.status room;
     RoomPublicState.createdAt := RoomState.createdAt room;
     RoomPublicState.updatedAt := RoomState.updatedAt room;
     RoomPublicState.players := players;
     RoomPublicState.drawerUserId := RoomState.drawerUserId room;
     RoomPublicState.roundEndsAt := RoomState.roundEndsAt room;
     RoomPublicState.roundNumber := RoomState.roundNumber room;
     RoomPublicState.maxRounds := RoomState.maxRounds room;
     RoomPublicState.wordMask :=
       match RoomState.word room with
       | Some wd => if Js.truthy_str (Some wd) then Some (maskWord wd) else None
       | None => None
       end;
     RoomPublicState.word :=
       if isDrawer room viewerId then RoomState.word room else None |}.

(** The message [broadcastRoomState] sends on the room channel. *)
Definition roomStateMessage (room : RoomState.t) : RealtimeMessage :=
  MsgRoomState (publicState room "not-a-viewer").

Definition broadcastRoomState (postId : string) (room : RoomState.t)
    (w : World) : World :=
  let chan := roomChannel postId (RoomState.roomId room) in
  (* broadcast a generic state without leaking the word *)
  send chan (roomStateMessage room) w.

(** [`${i + 1}) ${p.userName} ${p.score}`] for the entries from index [i]. *)
Fixpoint scoreLines (i : Z) (l : list Player.t) : list string :=
  match l with
  | [] => []
  | p :: l' =>
      (pretty (i + 1) ++ ") " ++ Player.userName p ++ " "
         ++ pretty (Player.score p))%string
      :: scoreLines (i + 1) l'
  end.

Definition topScores (room : RoomState.t) : string :=
  Js.join " • "
    (scoreLines 0
       (firstn 3 (Js.sortBy byScoreDesc (Js.values (RoomState.players room))))).

(** ** Round state machine *)

(** [Math.max(20, await getSubredditSettingNumber("roundTimeSec", 80))]. *)
Definition roundSecondsOf (st : Settings) : Q :=
  Qmax 20 (getSubredditSettingNumber st "roundTimeSec" 80).

(** [room.roundNumber >= room.maxRounds]. *)
Definition lastRound (room : RoomState.t) : bool :=
  Js.geb (inject_Z (RoomState.roundNumber room)) (RoomState.maxRounds room).

(** The first branch of [advanceOrEndRound]: the game is over. *)
Definition endGame (now : Z) (room : RoomState.t) : RoomState.t :=
  let room := RoomState.setStatus ended room in
  let room := RoomState.setWord None room in
  let room := RoomState.setDrawerUserId None room in
  let room := RoomState.setRoundEndsAt None room in
  let room := RoomState.setRoundResolvedAt (Some now) room in
  RoomState.setUpdatedAt now room.

(** [room.order.indexOf(room.drawerUserId ?? room.order[0])]. *)
Definition drawerIndex (room : RoomState.t) : Z :=
  let current :=
    match RoomState.drawerUserId room with
    | Some d => Some d
    | None => Js.at_ (RoomState.order room) 0
    end in
  match current with
  | Some d => Js.indexOf (RoomState.order room) d
  | None => -1
  end.

(** [room.order[(idx + 1) % room.order.length]]. *)
Definition nextDrawer (room : RoomState.t) : option string :=
  match Js.rem (drawerIndex room + 1)
               (Z.of_nat (length (RoomState.order room))) with
  | Some i => Js.at_ (RoomState.order room) i
  | None => None
  end.

(** The second branch of [advanceOrEndRound]: the next round starts. *)
Definition startRound (now : Z) (roundSeconds : Q) (word : option string)
    (room : RoomState.t) : RoomState.t :=
  let drawer := nextDrawer room in
  let room := RoomState.setRoundNumber (RoomState.roundNumber room + 1) room in
  let room := RoomState.setDrawerUserId drawer room in
  let room := RoomState.setWord word room in
  let room :=
    RoomState.setRoundEndsAt (Some (inject_Z now + roundSeconds * 1000)%Q) room in
  let room := RoomState.setRoundResolvedAt None room in
  let room := RoomState.setGuessedCorrectUserIds [] room in
  RoomState.setUpdatedAt now room.

(** The room that [advanceOrEndRound] saves. *)
Definition advancedRoom (now : Z) (roundSeconds : Q) (word : option string)
    (room : RoomState.t) : RoomState.t :=
  if lastRound room then endGame now room
  else startRound now roundSeconds word room.

(** [advanceOrEndRound(postId, room)], with the readings [now] of [Date.now()]
    and [random] of [Math.random()]. *)
Definition advanceOrEndRound (postId : string) (room : RoomState.t)
    (now : Z) (random : Q) (w : World) : World :=
  let chan := roomChannel postId (RoomState.roomId room) in
  if lastRound room then
    let room := endGame now room in
    let w := saveRoom room w in
    let w := send chan (MsgSystem ("Game over! " ++ topScores room)%string) w in
    broadcastRoomState postId room w
  else
    let roundSeconds := roundSecondsOf (settings w) in
    let room := startRound now roundSeconds (pickWord w random) room in
    let w := saveRoom room w in
    let w :=
      send chan
        (MsgSystem ("Round " ++ pretty (RoomState.roundNumber room)
                      ++ " started.")%string) w in
    broadcastRoomState postId room w.

(** ** Match start *)

(** [crypto.randomUUID().replace(/-/g, "").slice(0, 10)] for the identifier
    [uuid] that [randomUUID] returned. *)
Definition roomIdOf (uuid : string) : string :=
  Js.sliceTo 10 (Js.filterChars (fun c => negb (Ascii.eqb c "-"%char)) uuid).

Definition playerOfEntry (p : QueueEntry.t) : string * Player.t :=
  (QueueEntry.userId p,
   Player.mk (QueueEntry.userId p) (QueueEntry.userName p) 0
             (QueueEntry.lastSeen p)).

(** The room literal of [maybeStartMatchForPost]. *)
Definition newRoom (roomId : string) (picked : Queue) (now : Z)
    (roundSeconds maxRounds : Q) (word : option string) : RoomState.t :=
  let order := map QueueEntry.userId picked in
  {| RoomState.roomId := roomId;
     RoomState.status := playing;
     RoomState.createdAt := now;
     RoomState.updatedAt := now;
     RoomState.players := Js.fromEntries (map playerOfEntry picked);
     RoomState.order := order;
     RoomState.roundNumber := 1;
     RoomState.maxRounds := maxRounds;
     RoomState.drawerUserId := Js.at_ order 0;
     RoomState.word := word;
     RoomState.roundEndsAt := Some (inject_Z now + roundSeconds * 1000)%Q;
     RoomState.roundResolvedAt := None;
     RoomState.guessedCorrectUserIds := [] |}.

(** The readings of the clock and of the random sources that one call of
    [maybeStartMatchForPost] makes. *)
Record StartEnv : Type := {
  pickNow : Z;        (* [Date.now()] in [tryMatchPickAtomic] *)
  createNow : Z;      (* [Date.now()] in [maybeStartMatchForPost] *)
  uuid : string;      (* [crypto.randomUUID()] *)
  wordRandom : Q      (* [Math.random()] in [pickWord] *)
}.

(** The part of [maybeStartMatchForPost] after the early return: the room is
    built from the picked entries, saved, indexed and announced. *)
Definition createMatch (postId : string) (env : StartEnv) (picked : Queue)
    (w : World) : World :=
  let now := createNow env in
  let roundSeconds := roundSecondsOf (settings w) in
  let maxRounds :=
    Qmax 1 (getSubredditSettingNumber (settings w) "roundsPerGame" 3) in
  let roomId := roomIdOf (uuid env) in
  let room :=
    newRoom roomId picked now roundSeconds maxRounds
            (pickWord w (wordRandom env)) in
  let w := saveRoom room w in
  (* Run setUserRoom sequentially *)
  let w :=
    fold_left
      (fun w p => setUserRoom (QueueEntry.userId p) (Some roomId) w)
      picked w in
  let chan := roomChannel postId roomId in
  let w := send chan (MsgSystem "Match found! Starting round 1.") w in
  let w := broadcastRoomState postId room w in
  fold_left
    (fun w p =>
       send (userChannel postId (QueueEntry.userId p))
            (MsgMatchFound roomId chan) w)
    picked w.

(** [maybeStartMatchForPost(postId)]; [None] when the pick throws. *)
Definition maybeStartMatchForPost (postId : string) (env : StartEnv)
    (w : World) : option World :=
  let (stored, result) :=
    tryMatchPickAtomic (settings w) (pickNow env) [] (queue w) in
  let w := setQueue stored w in
  match result with
  | PickTypeError => None
  | NoMatch => Some w
  | Picked picked =>
      if (length picked =? 0)%nat then Some w
      else Some (createMatch postId env picked w)
  end.

(** ** Request context and responses *)

Record Context : Type := {
  ctxPostId : option string;
  ctxUserId : option string;
  ctxUsername : option string
}.

(** [ensureContext()]: the context, or the message of the error it throws. *)
Inductive Ensured : Type :=
| Missing (message : string)
| Ctx (postId userId userName : string).

Definition ensureContext (c : Context) : Ensured :=
  if negb (Js.truthy_str (ctxPostId c))
  then Missing "Missing postId (request must come from an interactive post)"
  else if negb (Js.truthy_str (ctxUserId c))
  then Missing "Missing userId (user must be logged in)"
  else
    match ctxPostId c, ctxUserId c with
    | Some postId, Some userId =>
        Ctx postId userId
            (match ctxUsername c with Some n => n | None => userId end)
    | _, _ => Missing "Missing postId (request must come from an interactive post)"
    end.

Inductive Response : Type :=
| ResOk                                         (* [{ ok: true }] *)
| ResError (status : nat) (message : string)
| ResLoggedOut
| ResMatched (roomId roomChannel personalChannel : string)
| ResQueued (personalChannel : string) (queueSize : nat)
| ResMenu (personalChannel : string)
| ResState (state : RoomPublicState.t).

(** [room?.players?.[userId]] for the room loaded under [roomId] (after
    [withRoomDefaults]). *)
Definition listsPlayer (w : World) (roomId userId : string) : bool :=
  match option_map withRoomDefaults (loadRoom w roomId) with
  | Some room => Js.has (RoomState.players room) userId
  | None => false
  end.

(** ** Session bootstrap and matchmaking *)

(** The end of the session handler: queued, or at the menu. *)
Definition sessionFromQueue (userId personalChannel : string) (w : World)
    : World * Response :=
  let queue := loadQueue w in
  if existsb (fun q => String.eqb (QueueEntry.userId q) userId) queue
  then (w, ResQueued personalChannel (length queue))
  else (w, ResMenu personalChannel).

Definition apiSession (c : Context) (w : World) : World * Response :=
  match ctxPostId c, ctxUserId c with
  | Some postId, Some userId =>
      if negb (Js.truthy_str (Some postId)) || negb (Js.truthy_str (Some userId))
      then (w, ResLoggedOut)
      else
        let personalChannel := userChannel postId userId in
        match getUserRoom w userId with
        | Some existingRoomId =>
            if Js.truthy_str (Some existingRoomId) then
              if listsPlayer w existingRoomId userId
              then (w, ResMatched existingRoomId
                                  (roomChannel postId existingRoomId)
                                  personalChannel)
              else
                (* stale mapping from old/deleted room *)
                sessionFromQueue userId personalChannel
                                 (setUserRoom userId None w)
            else sessionFromQueue userId personalChannel w
        | None => sessionFromQueue userId personalChannel w
        end
  | _, _ => (w, ResLoggedOut)
  end.

Record JoinEnv : Type := {
  joinNow : Z;            (* [Date.now()] in the handler *)
  startEnv : StartEnv
}.

(** The join handler after its "already in a room" block. *)
Definition joinQueue (postId userId userName : string) (env : JoinEnv)
    (w : World) : World * Response :=
  let w := trackPost postId w in
  let now := joinNow env in
  let inactiveKickSeconds :=
    Qmax 5 (getSubredditSettingNumber (settings w) "inactiveKickSeconds" 20) in
  let w :=
    setQueue
      (fst (queueUpsertAtomic userId userName now inactiveKickSeconds []
                              (queue w))) w in
  match maybeStartMatchForPost postId (startEnv env) w with
  | None => (w, ResError 500 "Matchmaking failed")
  | Some w =>
      let personalChan := userChannel postId userId in
      let queued := ResQueued personalChan (length (loadQueue w)) in
      match getUserRoom w userId with
      | Some updatedRoomId =>
          if Js.truthy_str (Some updatedRoomId)
          then (w, ResMatched updatedRoomId
                              (roomChannel postId updatedRoomId)
                              personalChan)
          else (w, queued)
      | None => (w, queued)
      end
  end.

Definition apiMatchmakingJoin (c : Context) (env : JoinEnv) (w : World)
    : World * Response :=
  match ensureContext c with
  | Missing _ => (w, ResError 500 "Matchmaking failed")
  | Ctx postId userId userName =>
      (* If user already in a room, return it. *)
      match getUserRoom w userId with
      | Some existing =>
          if Js.truthy_str (Some existing) then
            if listsPlayer w existing userId
            then (w, ResMatched existing (roomChannel postId existing)
                                (userChannel postId userId))
            else joinQueue postId userId userName env
                           (setUserRoom userId None w)
          else joinQueue postId userId userName env w
      | None => joinQueue postId userId userName env w
      end
  end.

Definition apiMatchmakingLeave (c : Context) (w : World) : World * Response :=
  match ensureContext c with
  | Missing message => (w, ResError 400 message)
  | Ctx postId userId _ =>
      (setQueue (queueRemoveUserAtomic userId [] (queue w)) w, ResOk)
  end.

Definition apiPing (c : Context) (now : Z) (w : World) : World * Response :=
  match ensureContext c with
  | Missing _ => (w, ResOk)
  | Ctx postId userId _ =>
      match getUserRoom w userId with
      | Some roomId =>
          if Js.truthy_str (Some roomId) then
            match option_map withRoomDefaults (loadRoom w roomId) with
            | Some room =>
                if Js.has (RoomState.players room) userId then
                  let room :=
                    RoomState.setPlayers
                      (Js.adjust (RoomState.players room) userId
                                 (Player.setLastSeen now)) room in
                  let room := RoomState.setUpdatedAt now room in
                  (saveRoom room w, ResOk)
                else (w, ResOk)
            | None => (w, ResOk)
            end
          else (w, ResOk)
      | None => (w, ResOk)
      end
  end.

(** [GET /api/room/:roomId/state]. *)
Definition apiRoomState (c : Context) (roomId : string) (w : World)
    : World * Response :=
  match ensureContext c with
  | Missing message => (w, ResError 400 message)
  | Ctx postId userId _ =>
      match option_map withRoomDefaults (loadRoom w roomId) with
      | None => (w, ResError 404 "Room not found")
      | Some room =>
          if negb (Js.has (RoomState.players room) userId)
          then (w, ResError 403 "Not in this room")
          else (w, ResState (publicState room userId))
      end
  end.

(** ** Resolution engine *)

(** How a retry loop on the room key is left: a response sent from inside the
    loop, or the room whose resolution is queued for EXEC. *)
Inductive LoopExit : Type :=
| Reply (r : Response)
| Resolved (room : RoomState.t).

(** The scoring of a correct guess (the mutations before [txn.multi()]). *)
Definition awardGuess (userId : string) (now : Z) (room : RoomState.t)
    : RoomState.t :=
  let room := RoomState.setRoundResolvedAt (Some now) room in
  let room := RoomState.setUpdatedAt now room in
  let room :=
    RoomState.setGuessedCorrectUserIds
      (RoomState.guessedCorrectUserIds room ++ [userId])%list room in
  let room :=
    RoomState.setPlayers
      (Js.adjust (RoomState.players room) userId (Player.addScore 10)) room in
  match RoomState.drawerUserId room with
  | Some drawer =>
      if Js.truthy_str (Some drawer) && Js.has (RoomState.players room) drawer
      then RoomState.setPlayers
             (Js.adjust (RoomState.players room) drawer (Player.addScore 3)) room
      else room
  | None => room
  end.

(** [room.players[userId].score], when the user is a player. *)
Definition scoreOf (room : RoomState.t) (userId : string) : option Z :=
  option_map Player.score (Js.get (RoomState.players room) userId).

(** One pass of the loop of the guess handler, on the value read from the room
    key and the reading [now] of [Date.now()]. *)
Definition guessPass (userId : string) (now : Z) (raw : option RoomState.t)
    : Txn.attempt (option RoomState.t) LoopExit :=
  match option_map withRoomDefaults raw with
  | None => Txn.Return (Reply (ResError 404 "Room not found"))
  | Some latestRoom =>
      if negb (Js.has (RoomState.players latestRoom) userId)
      then Txn.Return (Reply (ResError 403 "Not in this room"))
      else if isDrawer latestRoom userId
      then Txn.Return (Reply (ResError 403 "Drawer cannot guess"))
      else if negb (Status_eqb (RoomState.status latestRoom) playing)
      then Txn.Return (Reply ResOk)
      else if Js.truthy_Z (RoomState.roundResolvedAt latestRoom)
      then Txn.Return (Reply ResOk)
      else if Js.includes (RoomState.guessedCorrectUserIds latestRoom) userId
      then Txn.Return (Reply ResOk)
      else
        let latestRoom := awardGuess userId now latestRoom in
        Txn.Exec (Some latestRoom) (Resolved latestRoom)
  end.

(** One pass of the loop of the advance handler. *)
Definition advancePass (userId : string) (now : Z) (raw : option RoomState.t)
    : Txn.attempt (option RoomState.t) LoopExit :=
  match option_map withRoomDefaults raw with
  | None => Txn.Return (Reply (ResError 404 "Room not found"))
  | Some latestRoom =>
      if negb (Js.has (RoomState.players latestRoom) userId)
      then Txn.Return (Reply (ResError 403 "Not in this room"))
      else if negb (Status_eqb (RoomState.status latestRoom) playing)
      then Txn.Return (Reply ResOk)
      else if Js.truthy_Z (RoomState.roundResolvedAt latestRoom)
      then Txn.Return (Reply ResOk)
      else if Js.truthy_Q (RoomState.roundEndsAt latestRoom)
              && match RoomState.roundEndsAt latestRoom with
                 | Some e => Js.ltb (inject_Z now) e
                 | None => false
                 end
      then Txn.Return (Reply ResOk)
      else
        let latestRoom := RoomState.setRoundResolvedAt (Some now) latestRoom in
        let latestRoom := RoomState.setUpdatedAt now latestRoom in
        Txn.Exec (Some latestRoom) (Resolved latestRoom)
  end.

(** The room that a winning advance transaction writes. *)
Definition timedOut (now : Z) (room : RoomState.t) : RoomState.t :=
  RoomState.setUpdatedAt now (RoomState.setRoundResolvedAt (Some now) room).

(** [txn.set(key, ...)] on the key of the room named in the request. *)
Definition storeRoomKey (roomId : string) (v : option RoomState.t)
    (w : World) : World :=
  match v with
  | Some room => setRooms (<[safe roomId := room]> (rooms w)) w
  | None => setRooms (delete (safe roomId) (rooms w)) w
  end.

(** The readings one resolving request makes. *)
Record ResolveEnv : Type := {
  resolveNow : Z;       (* [Date.now()] inside the transaction *)
  advanceNow : Z;       (* [Date.now()] in [advanceOrEndRound] *)
  advanceRandom : Q     (* [Math.random()] in [pickWord] *)
}.

(** [isCorrect]: case-insensitive equality with the secret word. *)
Definition isCorrect (room : RoomState.t) (text : string) : bool :=
  match RoomState.word room with
  | Some wd => String.eqb (Js.toLowerCase text) (Js.toLowerCase wd)
  | None => false
  end.

(** [POST /api/room/:roomId/guess]; [bodyText] is [req.body.text] when that is
    a string. *)
Definition apiGuess (c : Context) (roomId : string) (bodyText : option string)
    (env : ResolveEnv) (w : World) : World * Response :=
  match ensureContext c with
  | Missing message => (w, ResError 400 message)
  | Ctx postId userId userName =>
      match option_map withRoomDefaults (loadRoom w roomId) with
      | None => (w, ResError 404 "Room not found")
      | Some room =>
          if negb (Js.has (RoomState.players room) userId)
          then (w, ResError 403 "Not in this room")
          else if isDrawer room userId
          then (w, ResError 403 "Drawer cannot guess")
          else if negb (Status_eqb (RoomState.status room) playing)
          then (w, ResError 400 "Game ended")
          else
            let textRaw := match bodyText with Some t => t | None => "" end in
            let text := Js.sliceTo 80 (Js.trim textRaw) in
            if String.eqb text "" then (w, ResOk)
            else
              let chan := roomChannel postId roomId in
              let correct := isCorrect room text in
              let w := send chan (MsgChat userName text correct) w in
              if negb correct then (w, ResOk)
              else
                match Txn.retry (guessPass userId (resolveNow env))
                                MAX_QUEUE_TRANSACTION_RETRIES []
                                (loadRoom w roomId) with
                | (_, Txn.Returned (Reply r)) => (w, r)
                | (stored, Txn.Committed (Resolved resolvedRoom)) =>
                    let w := storeRoomKey roomId stored w in
                    (* End round early and start next. *)
                    let w := send chan (MsgRoundEnded reason_guessed) w in
                    let w :=
                      advanceOrEndRound postId resolvedRoom (advanceNow env)
                                        (advanceRandom env) w in
                    (w, ResOk)
                | (_, _) =>
                    (* Conflict-heavy contention path *)
                    (w, ResOk)
                end
      end
  end.

(** [POST /api/room/:roomId/advance]. *)
Definition apiAdvance (c : Context) (roomId : string) (env : ResolveEnv)
    (w : World) : World * Response :=
  match ensureContext c with
  | Missing message => (w, ResError 400 message)
  | Ctx postId userId _ =>
      match option_map withRoomDefaults (loadRoom w roomId) with
      | None => (w, ResError 404 "Room not found")
      | Some room =>
          if negb (Js.has (RoomState.players room) userId)
          then (w, ResError 403 "Not in this room")
          else if negb (Status_eqb (RoomState.status room) playing)
          then (w, ResOk)
          else
            match Txn.retry (advancePass userId (resolveNow env))
                            MAX_QUEUE_TRANSACTION_RETRIES []
                            (loadRoom w roomId) with
            | (_, Txn.Returned (Reply r)) => (w, r)
            | (stored, Txn.Committed (Resolved resolvedRoom)) =>
                let w := storeRoomKey roomId stored w in
                let chan := roomChannel postId roomId in
                let w := send chan (MsgRoundEnded reason_time) w in
                let w :=
                  advanceOrEndRound postId resolvedRoom (advanceNow env)
                                    (advanceRandom env) w in
                (w, ResOk)
            | (_, _) => (w, ResOk)
            end
      end
  end.

(** The readings of [POST /api/room/:roomId/leave]. *)
Record LeaveEnv : Type := {
  leaveNow : Z;          (* [room.updatedAt = Date.now()] *)
  forcedNow : Z;         (* [room.roundResolvedAt = Date.now()] *)
  leaveAdvanceNow : Z;   (* [Date.now()] in [advanceOrEndRound] *)
  leaveRandom : Q        (* [Math.random()] in [pickWord] *)
}.

(** The caller taken out of the loaded room. *)
Definition withoutPlayer (userId : string) (now : Z) (room : RoomState.t)
    : RoomState.t :=
  let room := RoomState.setPlayers (Js.del (RoomState.players room) userId) room in
  let room :=
    RoomState.setOrder
      (List.filter (fun id => negb (String.eqb id userId)) (RoomState.order room))
      room in
  RoomState.setUpdatedAt now room.

Definition apiLeave (c : Context) (roomId : string) (env : LeaveEnv)
    (w : World) : World * Response :=
  match ensureContext c with
  | Missing message => (w, ResError 400 message)
  | Ctx postId userId userName =>
      match option_map withRoomDefaults (loadRoom w roomId) with
      | None => (setUserRoom userId None w, ResOk)
      | Some room =>
          let room := withoutPlayer userId (leaveNow env) room in
          let w := setUserRoom userId None w in
          let chan := roomChannel postId roomId in
          let w :=
            send chan (MsgSystem (userName ++ " left the room.")%string) w in
          if (length (RoomState.order room) <? 2)%nat then
            let w := send chan (MsgRoundEnded reason_left) w in
            let w := send chan (MsgSystem "Not enough players. Room ended.") w in
            (* Clear user-room mappings sequentially *)
            let w :=
              fold_left (fun w id => setUserRoom id None w)
                        (RoomState.order room) w in
            (deleteRoom roomId w, ResOk)
          else if isDrawer room userId
                  && Status_eqb (RoomState.status room) playing then
            (* Drawer left mid-round: end current round and advance properly *)
            let w := send chan (MsgRoundEnded reason_left) w in
            let room :=
              RoomState.setRoundResolvedAt (Some (forcedNow env)) room in
            (advanceOrEndRound postId room (leaveAdvanceNow env)
                               (leaveRandom env) w, ResOk)
          else
            let w := saveRoom room w in
            (broadcastRoomState postId room w, ResOk)
      end
  end.

(** ** Internal endpoints: triggers, menu and scheduler *)

Definition untrackPost (postId : string) (w : World) : World :=
  let next :=
    List.filter (fun id => negb (String.eqb id postId)) (trackedPosts w) in
  setTrackedPosts (uniq next) w.

(** [Object.keys] of the room index. *)
Definition indexedRoomIds (w : World) : list string :=
  map fst (map_to_list (roomIndex w)).

(** [resetLobby(postId)]: the records of the indexed rooms are deleted, then
    the queue, the index and the user index; the result is the number of
    indexed rooms. *)
Definition resetLobby (w : World) : World * nat :=
  let roomIds := indexedRoomIds w in
  let cleared :=
    fold_left (fun m roomId => delete (safe roomId) m) roomIds (rooms w) in
  (mkWorld (settings w) [] cleared ∅ ∅
           (trackedPosts w) (activeWords w) (sent w),
   length roomIds).

(** [/internal/triggers/post-create]. *)
Definition triggerPostCreate (c : Context) (w : World) : World * Response :=
  match ctxPostId c with
  | Some postId =>
      if Js.truthy_str (Some postId) then (trackPost postId w, ResOk)
      else (w, ResOk)
  | None => (w, ResOk)
  end.

(** [/internal/triggers/post-delete]. *)
Definition triggerPostDelete (c : Context) (w : World) : World * Response :=
  match ctxPostId c with
  | Some postId =>
      if Js.truthy_str (Some postId)
      then (untrackPost postId (fst (resetLobby w)), ResOk)
      else (w, ResOk)
  | None => (w, ResOk)
  end.

(** [/internal/menu/reset-lobby]; the toast is not modelled. *)
Definition menuResetLobby (c : Context) (w : World) : World * Response :=
  match ensureContext c with
  | Missing _ => (w, ResOk)
  | Ctx postId userId userName => (fst (resetLobby w), ResOk)
  end.

(** The body of the loop of [/internal/cron/mm-sweep] for the post of this
    world, which the loop visits when the post is tracked; [now] is the
    reading of the clock before the loop.  The handler has no [try], so a
    throw of [maybeStartMatchForPost] leaves the swept queue and fails the
    request. *)
Definition cronMmSweep (postId : string) (now : Z) (env : StartEnv)
    (w : World) : World * Response :=
  if negb (Js.includes (trackedPosts w) postId) then (w, ResOk)
  else
    let inactiveKickSeconds :=
      Qmax 5 (getSubredditSettingNumber (settings w) "inactiveKickSeconds" 20) in
    let staleCutoff := (inject_Z now - inactiveKickSeconds * 1000)%Q in
    let w :=
      setQueue (fst (queueFilterStaleAtomic staleCutoff [] (queue w))) w in
    match maybeStartMatchForPost postId env w with
    | None => (w, ResError 500 "Internal Server Error")
    | Some w => (w, ResOk)
    end.

(** One room id of the loop of [/internal/cron/room-gc]. *)
Definition gcRoom (now : Z) (w : World) (roomId : string) : World :=
  match option_map withRoomDefaults (loadRoom w roomId) with
  | None => w
  | Some room =>
      let inactiveForMs := now - RoomState.updatedAt room in
      let shouldDelete :=
        (length (RoomState.order room) <? 2)%nat
        || (30 * 60 * 1000 <? inactiveForMs) in
      if negb shouldDelete then w
      else
        (* Clear user-room mappings sequentially to avoid transaction conflicts *)
        let w :=
          fold_left (fun w id => setUserRoom id None w)
                    (RoomState.order room) w in
        deleteRoom roomId w
  end.

(** The body of the loop of [/internal/cron/room-gc] for the post of this
    world; the index was read before the inner loop. *)
Definition cronRoomGc (postId : string) (now : Z) (w : World)
    : World * Response :=
  if negb (Js.includes (trackedPosts w) postId) then (w, ResOk)
  else (fold_left (gcRoom now) (indexedRoomIds w) w, ResOk).

(** The test [/^[a-z][a-z\- ]{2,23}$/]. *)
Definition wordAccepted (word : string) : bool :=
  match word with
  | EmptyString => false
  | String c rest =>
      Js.isLower c
      && Js.allChars
           (fun c => Js.isLower c || Ascii.eqb c "-" || Ascii.eqb c " ") rest
      && (2 <=? String.length rest)%nat && (String.length rest <=? 23)%nat
  end.

(** [/internal/cron/daily-rotate-words]; [fetched] holds the lines of the
    fetched list (the text split at line ends), or nothing when no URL is
    configured or the fetch fails. *)
Definition cronDailyRotateWords (fetched : option (list string)) (w : World)
    : World * Response :=
  match fetched with
  | None => (w, ResOk)
  | Some lines =>
      let words :=
        List.filter wordAccepted
                    (map (fun l => Js.toLowerCase (Js.trim l)) lines) in
      let uniqueWords := firstn 5000 (uniq words) in
      match uniqueWords with
      | [] => (w, ResOk)
      | _ => (setActiveWords (Some uniqueWords) w, ResOk)
      end
  end.

(** ** The request surface, one request at a time *)

(** The endpoints that read or write the keys of a post.  The drawing
    endpoints ([/draw], [/clear]), [/api/identity], the report forms and the
    install triggers touch none of them. *)
Inductive Request : Type :=
| GetSession
| PostMatchmakingJoin (env : JoinEnv)
| PostMatchmakingLeave
| PostPing (now : Z)
| GetRoomState (roomId : string)
| PostGuess (roomId : string) (bodyText : option string) (env : ResolveEnv)
| PostAdvance (roomId : string) (env : ResolveEnv)
| PostLeave (roomId : string) (env : LeaveEnv)
| TriggerPostCreate
| TriggerPostDelete
| MenuResetLobby
| CronMmSweep (postId : string) (now : Z) (env : StartEnv)
| CronRoomGc (postId : string) (now : Z)
| CronDailyRotateWords (fetched : option (list string)).

Definition handle (c : Context) (req : Request) (w : World) : World * Response :=
  match req with
  | GetSession => apiSession c w
  | PostMatchmakingJoin env => apiMatchmakingJoin c env w
  | PostMatchmakingLeave => apiMatchmakingLeave c w
  | PostPing now => apiPing c now w
  | GetRoomState roomId => apiRoomState c roomId w
  | PostGuess roomId bodyText env => apiGuess c roomId bodyText env w
  | PostAdvance roomId env => apiAdvance c roomId env w
  | PostLeave roomId env => apiLeave c roomId env w
  | TriggerPostCreate => triggerPostCreate c w
  | TriggerPostDelete => triggerPostDelete c w
  | MenuResetLobby => menuResetLobby c w
  | CronMmSweep postId now env => cronMmSweep postId now env w
  | CronRoomGc postId now => cronRoomGc postId now w
  | CronDailyRotateWords fetched => cronDailyRotateWords fetched w
  end.

(** A post before anyone joined. *)
Definition emptyWorld (st : Settings) : World :=
  mkWorld st [] ∅ ∅ ∅ [] None [].

(** What the environment guarantees of a request: [randomUUID] does not
    repeat a room id in use, and [Date.now()] is not before the epoch. *)
Definition admissible (w : World) (req : Request) : Prop :=
  match req with
  | PostMatchmakingJoin env =>
      rooms w !! safe (roomIdOf (uuid (startEnv env))) = None /\
      0 <= createNow (startEnv env)
  | CronMmSweep _ _ env =>
      rooms w !! safe (roomIdOf (uuid env)) = None /\ 0 <= createNow env
  | PostGuess _ _ env => 0 <= advanceNow env
  | PostAdvance _ env => 0 <= advanceNow env
  | PostLeave _ env => 0 <= leaveAdvanceNow env
  | _ => True
  end.

(** The worlds that requests handled one after the other lead to. *)
Inductive reachable (st : Settings) : World -> Prop :=
| reach_empty : reachable st (emptyWorld st)
| reach_handle (w : World) (c : Context) (req : Request) :
    reachable st w ->
    admissible w req ->
    reachable st (fst (handle c req w)).

(** [/internal/settings/validate-rounds-per-game] on the value being saved:
    [true] is [{ success: true }]. *)
Definition asNumber (v : SettingValue) : Js.number :=
  match v with
  | SettingNumber n => n
  | SettingOther c => c
  end.

Definition isInteger (q : Q) : bool := Qeq_bool (inject_Z (Qfloor q)) q.

Definition validateRoundsPerGame (v : SettingValue) : bool :=
  match asNumber v with
  | Js.Finite value =>
      if negb (isInteger value) then false
      else if Js.ltb value 1 || Js.ltb 10 value then false
      else true
  | _ => false
  end.

(** [/internal/settings/validate-max-players]. *)
Definition validateMaxPlayers (v : SettingValue) : bool :=
  match asNumber v with
  | Js.Finite value =>
      if Js.ltb value 2 || Js.ltb 4 value then false else true
  | _ => false
  end.

(** ** Concurrent resolutions of one room

    Any number of guess and advance requests that passed their first checks
    run their retry loops against the key of one room.  Each client moves one
    command at a time; the commands of different clients interleave freely.
    The key carries a version that every write bumps: EXEC succeeds when the
    version is the one WATCH saw. *)
Module Race.

Inductive Kind : Type := GuessRequest | AdvanceRequest.

Inductive Pc : Type :=
| AtLoop (attempt : nat)
    (* at the loop test [attempt < MAX_QUEUE_TRANSACTION_RETRIES] *)
| Watching (attempt : nat) (seen : nat)
    (* after [redis.watch(key)] *)
| BeforeExec (attempt : nat) (seen : nat) (latest : RoomState.t)
    (* after [loadRoom], the checks and the mutations of [latestRoom] *)
| AfterCommit (resolved : RoomState.t)
    (* EXEC succeeded; [advanceOrEndRound(postId, resolvedRoom)] is next *)
| Finished.

Record Client : Type := mkClient {
  kind : Kind;
  userId : string;
  pc : Pc
}.

Record Config : Type := mkConfig {
  value : option RoomState.t;     (* the room key *)
  version : nat;                  (* bumped by every write of the key *)
  clients : list Client;
  (* ghost: for every successful EXEC, the client and the round it resolved *)
  resolutions : list (nat * Z)
}.

(** What the scheduler picks for one move: the client, and the readings of
    [Date.now()], of the round length and of [pickWord] it may need. *)
Record Move : Type := mkMove {
  who : nat;
  now : Z;
  roundSeconds : Q;
  word : option string
}.

Definition pass (c : Client) (now : Z) (raw : option RoomState.t)
    : Txn.attempt (option RoomState.t) LoopExit :=
  match kind c with
  | GuessRequest => guessPass (userId c) now raw
  | AdvanceRequest => advancePass (userId c) now raw
  end.

Definition setPc (c : Client) (p : Pc) : Client :=
  mkClient (kind c) (userId c) p.

Definition step (m : Move) (cfg : Config) : Config :=
  match clients cfg !! who m with
  | None => cfg
  | Some c =>
      let moved p := <[who m := setPc c p]> (clients cfg) in
      match pc c with
      | AtLoop attempt =>
          if (attempt <? MAX_QUEUE_TRANSACTION_RETRIES)%nat
          then mkConfig (value cfg) (version cfg)
                        (moved (Watching attempt (version cfg)))
                        (resolutions cfg)
          else mkConfig (value cfg) (version cfg) (moved Finished)
                        (resolutions cfg)
      | Watching attempt seen =>
          match pass c (now m) (value cfg) with
          | Txn.Exec (Some latest) _ =>
              mkConfig (value cfg) (version cfg)
                       (moved (BeforeExec attempt seen latest))
                       (resolutions cfg)
          | _ =>
              mkConfig (value cfg) (version cfg) (moved Finished)
                       (resolutions cfg)
          end
      | BeforeExec attempt seen latest =>
          if (seen =? version cfg)%nat
          then mkConfig (Some latest) (S (version cfg))
                        (moved (AfterCommit latest))
                        ((who m, RoomState.roundNumber latest)
                           :: resolutions cfg)
          else mkConfig (value cfg) (version cfg)
                        (moved (AtLoop (S attempt))) (resolutions cfg)
      | AfterCommit resolved =>
          mkConfig
            (Some (advancedRoom (now m) (roundSeconds m) (word m) resolved))
            (S (version cfg)) (moved Finished) (resolutions cfg)
      | Finished => cfg
      end
  end.

Definition run (moves : list Move) (cfg : Config) : Config :=
  fold_left (fun cfg m => step m cfg) moves cfg.







End Race.

(** ** Invariants of the stored rooms *)

(** The [roundsPerGame] setting was never configured with a finite number, or
    it was saved through its validator. *)
Definition roundsSettingAccepted (st : Settings) : Prop :=
  Js.isFinite (asNumber (st "roundsPerGame")) = false \/
  validateRoundsPerGame (st "roundsPerGame") = true.

(** A room record as the server writes it under [key]: it is stored under its
    own id, plays a whole number of rounds, at least one, and while it is
    playing its round number is within that number and its deadline is set. *)
Record RoomOk (key : string) (room : RoomState.t) : Prop := mkRoomOk {
  ok_key : key = safe (RoomState.roomId room);
  ok_max : (1 <= RoomState.maxRounds room)%Q;
  ok_whole :
    (inject_Z (Qfloor (RoomState.maxRounds room)) == RoomState.maxRounds room)%Q;
  ok_round :
    RoomState.status room = playing ->
    (inject_Z (RoomState.roundNumber room) <= RoomState.maxRounds room)%Q;
  ok_deadline :
    RoomState.status room = playing ->
    Js.truthy_Q (RoomState.roundEndsAt room) = true
}.

Definition WorldOk (w : World) : Prop :=
  forall key room, rooms w !! key = Some room -> RoomOk key room.

(** A write that leaves the id, the status and the round counters alone (a
    heartbeat, a departure, the resolution of the round). *)
Definition touched (room room' : RoomState.t) : Prop :=
  RoomState.roomId room' = RoomState.roomId room /\
  RoomState.maxRounds room' = RoomState.maxRounds room /\
  RoomState.roundNumber room' = RoomState.roundNumber room /\
  RoomState.status room' = RoomState.status room /\
  RoomState.roundEndsAt room' = RoomState.roundEndsAt room.

(** What one request does to a stored room that it keeps: it touches it, and
    then possibly runs the round transition on it while it is playing. *)
Definition roomStep (room room' : RoomState.t) : Prop :=
  exists mid,
    touched room mid /\
    (room' = mid \/
     (RoomState.status mid = playing /\
      exists now roundSeconds word,
        0 <= now /\ (20 <= roundSeconds)%Q /\
        room' = advancedRoom now roundSeconds word mid)).

(** Some records are deleted, none is changed. *)
Definition dropped (m m' : gmap string RoomState.t) : Prop :=
  forall key, m' !! key = m !! key \/ m' !! key = None.

(** What one request does to the room records. *)
Inductive roomsChange (m m' : gmap string RoomState.t) : Prop :=
| change_none : m' = m -> roomsChange m m'
| change_create (key : string) (room : RoomState.t) :
    m !! key = None -> m' = <[key := room]> m -> RoomOk key room ->
    roomsChange m m'
| change_drop :
    dropped m m' -> roomsChange m m'
| change_step (key : string) (room room' : RoomState.t) :
    m !! key = Some room -> m' = <[key := room']> m -> roomStep room room' ->
    roomsChange m m'.

(** The queue as [queueUpsertAtomic] keeps it. *)
Definition QueueOk (queue : Queue) : Prop :=
  oldestFirst queue /\ List.NoDup (map QueueEntry.userId queue).

(** The seats of a room: the turn order names every player once, two at
    least, and while the room is playing its drawer is one of them. *)
Record SeatOk (room : RoomState.t) : Prop := mkSeatOk {
  seat_nodup : List.NoDup (RoomState.order room);
  seat_two : (2 <= length (RoomState.order room))%nat;
  seat_players :
    forall u,
      Js.has (RoomState.players room) u = true <-> In u (RoomState.order room);
  seat_drawer :
    RoomState.status room = playing ->
    exists d,
      RoomState.drawerUserId room = Some d /\ In d (RoomState.order room)
}.

Definition SeatsOk (w : World) : Prop :=
  forall key room, rooms w !! key = Some room -> SeatOk room.

(** ** Further definitions: ids, drawing, reports *)

(** The characters that [safe] keeps: [a-zA-Z0-9_]. *)
Definition channelChar (c : ascii) : bool :=
  Js.isLetter c || Js.isDigit c || Ascii.eqb c "_"%char.

(** Letters and digits. *)
Definition alnumChar (c : ascii) : bool := Js.isLetter c || Js.isDigit c.

(** The characters of the text of a UUID: lower-case hexadecimal digits and
    the dash. *)
Definition uuidChar (c : ascii) : bool :=
  Js.isDigit c
  || (let n := nat_of_ascii c in (97 <=? n)%nat && (n <=? 102)%nat)
  || Ascii.eqb c "-"%char.

(** [shouldDelete] of the room garbage collection: fewer than two users in
    the turn order, or no update for more than 30 minutes. *)
Definition shouldDelete (now : Z) (room : RoomState.t) : bool :=
  (length (RoomState.order room) <? 2)%nat
  || (30 * 60 * 1000 <? now - RoomState.updatedAt room).

(** How the scores of a stored room may differ after a request: nobody is
    added, and a score stays or grows by the guess award (10) or the drawer
    award (3). *)
Definition scoresGrow (room room' : RoomState.t) : Prop :=
  forall u s',
    scoreOf room' u = Some s' ->
    exists s, scoreOf room u = Some s /\ (s' = s \/ s' = s + 10 \/ s' = s + 3).

(** ** Drawing endpoints

    [/draw] and [/clear] write no key: they check the caller against the
    stored room and send one message on the room channel.  The message types
    ["draw"] and ["canvas-clear"] of the shared protocol are given here. *)

(** [Math.min] and [Math.max] of two numbers: [NaN] when either is [NaN]. *)
Definition numMin (a b : Js.number) : Js.number :=
  match a, b with
  | Js.NaN, _ => Js.NaN
  | _, Js.NaN => Js.NaN
  | Js.NegInf, _ => Js.NegInf
  | _, Js.NegInf => Js.NegInf
  | Js.PosInf, x => x
  | x, Js.PosInf => x
  | Js.Finite p, Js.Finite q => Js.Finite (Qmin p q)
  end.

Definition numMax (a b : Js.number) : Js.number :=
  match a, b with
  | Js.NaN, _ => Js.NaN
  | _, Js.NaN => Js.NaN
  | Js.PosInf, _ => Js.PosInf
  | _, Js.PosInf => Js.PosInf
  | Js.NegInf, x => x
  | x, Js.NegInf => x
  | Js.Finite p, Js.Finite q => Js.Finite (Qmax p q)
  end.

(** One element of [body.points] under the destructuring [([x, y]) => ...]:
    an iterable element yields [Number(x)] and [Number(y)] of its first two
    items; any other element makes the destructuring throw a [TypeError]
    with some message. *)
Inductive PointInput : Type :=
| PointPair (x y : Js.number)
| PointNotIterable (message : string).

(** The fields of the request body that the draw handler reads. *)
Record DrawBody : Type := {
  bodyPoints : option (list PointInput);  (* [body.points] when an array *)
  bodyColor : option string;              (* [body.color] when a string *)
  bodyWidth : option Js.number;           (* [body.width] when a number *)
  bodyNewStroke : bool;                   (* [body.newStroke === true] *)
  bodyEndStroke : bool                    (* [body.endStroke === true] *)
}.

Inductive CanvasMessage : Type :=
| MsgDraw (from : string) (points : list (Js.number * Js.number))
          (color : string) (width : Js.number) (newStroke endStroke : bool)
| MsgCanvasClear (from : string).

Definition isHexDigit (c : ascii) : bool :=
  let n := nat_of_ascii c in
  Js.isDigit c
  || ((65 <=? n)%nat && (n <=? 70)%nat)
  || ((97 <=? n)%nat && (n <=? 102)%nat).

(** The test [/^#[0-9a-fA-F]{3,8}$/]. *)
Definition colorAccepted (s : string) : bool :=
  match s with
  | String "#" rest =>
      Js.allChars isHexDigit rest
      && (3 <=? String.length rest)%nat && (String.length rest <=? 8)%nat
  | _ => false
  end.

(** [Math.max(0, Math.min(1, n))]. *)
Definition clipUnit (n : Js.number) : Js.number :=
  numMax (Js.Finite 0) (numMin (Js.Finite 1) n).

(** The [map] over the points: the clipped pairs, or the message of the
    first element that cannot be destructured. *)
Fixpoint clipAll (points : list PointInput)
    : string + list (Js.number * Js.number) :=
  match points with
  | [] => inr []
  | PointNotIterable message :: _ => inl message
  | PointPair x y :: rest =>
      match clipAll rest with
      | inl message => inl message
      | inr clipped => inr ((clipUnit x, clipUnit y) :: clipped)
      end
  end.

(** [POST /api/room/:roomId/draw]: the message sent, if any, with its
    channel, and the response. *)
Definition apiDraw (c : Context) (roomId : string) (body : DrawBody)
    (w : World) : option (string * CanvasMessage) * Response :=
  match ensureContext c with
  | Missing message => (None, ResError 400 message)
  | Ctx postId userId _ =>
      match option_map withRoomDefaults (loadRoom w roomId) with
      | None => (None, ResError 404 "Room not found")
      | Some room =>
          if negb (isDrawer room userId)
          then (None, ResError 403 "Not the drawer")
          else
            let points :=
              match bodyPoints body with Some l => l | None => [] end in
            let rawColor :=
              match bodyColor body with Some s => s | None => "#111" end in
            let color := if colorAccepted rawColor then rawColor else "#111" in
            let rawWidth :=
              match bodyWidth body with Some n => n | None => Js.Finite 3 end in
            let width := numMax (Js.Finite 2) (numMin (Js.Finite 10) rawWidth) in
            let newStroke := bodyNewStroke body in
            let endStroke := bodyEndStroke body in
            (* small sanity checks *)
            match clipAll (firstn 64 points) with
            | inl message => (None, ResError 400 message)
            | inr clipped =>
                if (2 <=? length clipped)%nat || endStroke
                then (Some (roomChannel postId roomId,
                            MsgDraw userId clipped color width
                                    newStroke endStroke),
                      ResOk)
                else (None, ResOk)
            end
      end
  end.

(** [POST /api/room/:roomId/clear]. *)
Definition apiClear (c : Context) (roomId : string) (w : World)
    : option (string * CanvasMessage) * Response :=
  match ensureContext c with
  | Missing message => (None, ResError 400 message)
  | Ctx postId userId _ =>
      match option_map withRoomDefaults (loadRoom w roomId) with
      | None => (None, ResError 404 "Room not found")
      | Some room =>
          if negb (isDrawer room userId)
          then (None, ResError 403 "Not the drawer")
          else (Some (roomChannel postId roomId, MsgCanvasClear userId), ResOk)
      end
  end.

(** A coordinate or a width as the draw handler sends it: within the bounds,
    or [NaN]. *)
Definition within (lo hi : Q) (n : Js.number) : Prop :=
  n = Js.NaN \/ exists q, n = Js.Finite q /\ (lo <= q <= hi)%Q.

(** ** Reports *)

Definition REPORTS_MAX : nat := 500.

(** [appendReport(key, entry)] on the list stored under [key] (empty when the
    key is absent or does not hold an array). *)
Definition appendReport {E : Type} (entry : E) (stored : list E) : list E :=
  let list := entry :: stored in
  if (REPORTS_MAX <? length list)%nat then firstn REPORTS_MAX list else list.

Record WordReport : Type := {
  wordReportTs : Z;
  wordReportPostId : option string;
  wordReportSubreddit : option string;
  reportedWord : string;
  wordReportReason : string
}.

Record PlayerReport : Type := {
  playerReportTs : Z;
  playerReportPostId : option string;
  playerReportSubreddit : option string;
  reportedPlayerId : option string;
  playerReportReason : string
}.

Definition orElse (a : option string) (b : string) : string :=
  match a with Some s => s | None => b end.

(** [/internal/forms/report-word]; [word], [value] and [reason] are the
    fields of the body that are neither [null] nor [undefined], as
    [String(...)] renders them. *)
Definition reportWord (c : Context) (subreddit : option string) (now : Z)
    (word value reason : option string) (stored : list WordReport)
    : list WordReport :=
  let word := Js.sliceTo 80 (Js.trim (orElse word (orElse value ""))) in
  appendReport
    {| wordReportTs := now;
       wordReportPostId := ctxPostId c;
       wordReportSubreddit := subreddit;
       reportedWord := if String.eqb word "" then "(empty)" else word;
       wordReportReason := Js.sliceTo 200 (orElse reason "") |}
    stored.

(** [/internal/forms/report-player]. *)
Definition reportPlayer (c : Context) (subreddit : option string) (now : Z)
    (playerId player reason : option string) (stored : list PlayerReport)
    : list PlayerReport :=
  let playerId := Js.sliceTo 64 (Js.trim (orElse playerId (orElse player ""))) in
  appendReport
    {| playerReportTs := now;
       playerReportPostId := ctxPostId c;
       playerReportSubreddit := subreddit;
       reportedPlayerId :=
         if String.eqb playerId "" then None else Some ("t2_" ++ playerId)%string;
       playerReportReason := Js.sliceTo 200 (orElse reason "") |}
    stored.

(** ** Sample data for the worked examples *)

Definition oddSettings : Settings := fun name =>
  if String.eqb name "maxPlayers" then SettingNumber (Js.Finite 100)
  else if String.eqb name "minPlayersToStart" then SettingOther Js.NaN
  else SettingUnset.

Definition entry (u : string) (joined : Z) : QueueEntry.t :=
  QueueEntry.mk u u joined 9000.

Definition fiveQueued : World :=
  mkWorld oddSettings
    [entry "t2_a" 1000; entry "t2_b" 1001; entry "t2_c" 1002;
     entry "t2_d" 1003; entry "t2_e" 1004]
    ∅ ∅ ∅ [] None [].

Definition startAt10s : StartEnv :=
  {| pickNow := 10000; createNow := 10001;
     uuid := "123e4567-e89b-12d3-a456-426614174000"; wordRandom := 1 # 2 |}.


Definition defaultSettings : Settings := fun _ => SettingUnset.

Definition threeWaiting : Queue :=
  [entry "t2_a" 1000; entry "t2_b" 1001; entry "t2_c" 1002].

(** An entry last seen at the epoch, and five passes that each lose the race
    to a client writing that entry back. *)
Definition staleEntry : QueueEntry.t := QueueEntry.mk "t2_old" "old" 0 0.

Definition fiveConflicts : list (Txn.interference Queue) :=
  repeat (Txn.write_after_get [staleEntry]) 5.

(** A two-player room in its first round, drawn by [drawer]. *)
Definition duel (drawer : string) : RoomState.t :=
  {| RoomState.roomId := "123e4567e8";
     RoomState.status := playing;
     RoomState.createdAt := 10001;
     RoomState.updatedAt := 10001;
     RoomState.players :=
       [("t2_a", Player.mk "t2_a" "alice" 0 9000);
        ("t2_b", Player.mk "t2_b" "bob" 0 9000)];
     RoomState.order := ["t2_a"; "t2_b"];
     RoomState.roundNumber := 1;
     RoomState.maxRounds := 3;
     RoomState.drawerUserId := Some drawer;
     RoomState.word := Some "castle";
     RoomState.roundEndsAt := Some 90001%Q;
     RoomState.roundResolvedAt := None;
     RoomState.guessedCorrectUserIds := [] |}.

Definition asUser (userId : string) : Context :=
  {| ctxPostId := Some "t3_post"; ctxUserId := Some userId;
     ctxUsername := Some userId |}.


(** The world that holds the room [duel drawer] and nothing else. *)
Definition duelWorld (drawer : string) : World :=
  saveRoom (duel drawer) (emptyWorld defaultSettings).

(** A request that arrives 40 seconds before the deadline of [duel], and one
    that arrives after it. *)
Definition early : ResolveEnv :=
  {| resolveNow := 50000; advanceNow := 50001; advanceRandom := 1 # 2 |}.
Definition late : ResolveEnv :=
  {| resolveNow := 95000; advanceNow := 95001; advanceRandom := 1 # 2 |}.

(** [duelWorld] with both players indexed to the room. *)
Definition duelIndexed (drawer : string) : World :=
  setUserRoom "t2_a" (Some "123e4567e8")
    (setUserRoom "t2_b" (Some "123e4567e8") (duelWorld drawer)).

Definition leaving : LeaveEnv :=
  {| leaveNow := 60000; forcedNow := 60001; leaveAdvanceNow := 60002;
     leaveRandom := 1 # 2 |}.

(** Two players guess the word of [duel "t2_c"] at the same moment: both read
    the open round before either calls EXEC. *)
Definition trio : RoomState.t :=
  RoomState.setOrder ["t2_a"; "t2_b"; "t2_c"]
    (RoomState.setPlayers
       [("t2_a", Player.mk "t2_a" "alice" 0 9000);
        ("t2_b", Player.mk "t2_b" "bob" 0 9000);
        ("t2_c", Player.mk "t2_c" "carol" 0 9000)]
       (duel "t2_c")).

Definition twoGuessers : Race.Config :=
  Race.mkConfig (Some trio) 0
    [Race.mkClient Race.GuessRequest "t2_a" (Race.AtLoop 0);
     Race.mkClient Race.GuessRequest "t2_b" (Race.AtLoop 0)]
    [].

Definition moveOf (who : nat) (now : Z) : Race.Move :=
  Race.mkMove who now 80 (Some "river").


(** Scenario A: two users join a post with the default settings; the second
    join comes 9 seconds after the first, so the quick start applies. *)
Definition joinAt (now : Z) : Request :=
  PostMatchmakingJoin
    {| joinNow := now;
       startEnv := {| pickNow := now; createNow := now + 1;
                      uuid := "123e4567-e89b-12d3-a456-426614174000";
                      wordRandom := 1 # 2 |} |}.

Definition afterTwoJoins : World :=
  fst (handle (asUser "t2_b") (joinAt 10000)
         (fst (handle (asUser "t2_a") (joinAt 1000)
                 (emptyWorld defaultSettings)))).

(** As [photoFinish], but the winner's [advanceOrEndRound] lands before the
    loser's EXEC: the loser retries against the next round. *)
Definition staleRetry : list Race.Move :=
  [moveOf 0 70000; moveOf 1 70001; moveOf 0 70002; moveOf 1 70003;
   moveOf 0 70004; moveOf 0 70005; moveOf 1 70006; moveOf 1 70007;
   moveOf 1 70008; moveOf 1 70009; moveOf 1 70010].

(** ** Further sample data *)

(** A request that carries a post but no logged-in user. *)
Definition anonymous : Context :=
  {| ctxPostId := Some "t3_post"; ctxUserId := None; ctxUsername := None |}.

(** The second player of [afterTwoJoins] guesses the word of the first
    round. *)
Definition rightGuess : Request :=
  PostGuess "123e4567e8" (Some " Pineapple")
            {| resolveNow := 20000; advanceNow := 20001; advanceRandom := 0 |}.

(** A stroke with a point off the canvas, an unreadable coordinate, a colour
    that is no hexadecimal code and an infinite width. *)
Definition wildStroke : DrawBody :=
  {| bodyPoints :=
       Some [PointPair (Js.Finite (7 # 2)) (Js.Finite (-1));
             PointPair Js.NaN (Js.Finite (1 # 4))];
     bodyColor := Some "red";
     bodyWidth := Some Js.PosInf;
     bodyNewStroke := true;
     bodyEndStroke := false |}.

(** * Properties *)

(** ** Numbers, transactions and the pick *)

Lemma geb_le a b : Js.geb a b = true <-> (b <= a)%Q.
Proof. unfold Js.geb. apply Qle_bool_iff. Qed.

Lemma geb_lt a b : Js.geb a b = false <-> (a < b)%Q.
Proof.
  unfold Js.geb. split; intros H.
  - apply Qnot_le_lt. intros Hle. apply Qle_bool_iff in Hle. congruence.
  - destruct (Qle_bool b a) eqn:E; [|reflexivity].
    apply Qle_bool_iff in E. lra.
Qed.

Lemma ltb_lt a b : Js.ltb a b = true <-> (a < b)%Q.
Proof. unfold Js.ltb. rewrite negb_true_iff. apply geb_lt. Qed.

Lemma ltb_ge a b : Js.ltb a b = false <-> (b <= a)%Q.
Proof. unfold Js.ltb. rewrite negb_false_iff. apply geb_le. Qed.

Lemma retry_quiet {V R} (body : V -> Txn.attempt V R) n cur :
  Txn.retry body (S n) [] cur =
  match body cur with
  | Txn.Return r => (cur, Txn.Returned r)
  | Txn.Exec v r => (v, Txn.Committed r)
  end.
Proof. reflexivity. Qed.

Example e1 : Js.sortBy Z.leb [3;1;2] = [1;2;3].
Proof. reflexivity. Qed.
Example e2 : safe "room-t3_ab-x!" = "room_t3_ab_x_".
Proof. reflexivity. Qed.
Example e3 : maskWord "ice-cream x" = "___-_____ _".
Proof. reflexivity. Qed.
Example e4 : Js.trim "  Hi There " = "Hi There".
Proof. reflexivity. Qed.
Example e5 : Js.toLowerCase "GuiTar" = "guitar".
Proof. reflexivity. Qed.
Example e6 : roomIdOf "123e4567-e89b-12d3-a456-426614174000" = "123e4567e8".
Proof. reflexivity. Qed.

Lemma pickSettings_clamped st :
  (2 <= maxPlayers (pickSettings st) <= 4)%Q /\
  (2 <= minPlayersToStart (pickSettings st))%Q.
Proof.
  simpl. repeat split.
  - apply Q.min_glb; [lra | apply Q.le_max_l].
  - apply Q.le_min_l.
  - apply Q.le_max_l.
Qed.

Lemma truncate_nonneg q : (0 <= q)%Q -> Js.truncate q = Qfloor q.
Proof.
  intros H. unfold Js.truncate.
  apply Qle_bool_iff in H. now rewrite H.
Qed.

Lemma Qfloor_bounds q (a b : Z) :
  (inject_Z a <= q)%Q -> (q <= inject_Z b)%Q -> a <= Qfloor q <= b.
Proof.
  intros Ha Hb. split.
  - rewrite <- (Qfloor_Z a). now apply Qfloor_resp_le.
  - rewrite <- (Qfloor_Z b). now apply Qfloor_resp_le.
Qed.

Lemma sliceEnd_in_range {A} (l : list A) (e : Q) :
  (0 <= e)%Q -> (e <= inject_Z (Z.of_nat (length l)))%Q ->
  Js.sliceEnd l e = Z.to_nat (Qfloor e) /\ (Z.to_nat (Qfloor e) <= length l)%nat.
Proof.
  intros H0 Hlen. unfold Js.sliceEnd. rewrite truncate_nonneg by assumption.
  destruct (Qfloor_bounds e 0 (Z.of_nat (length l)) H0 Hlen) as [Hlo Hhi].
  destruct (Z.ltb_spec (Qfloor e) 0); [lia|].
  split; [f_equal|]; lia.
Qed.

(** What a pass that reaches EXEC has read, and what it queues. *)
Lemma matchPickPass_exec ps now raw v r :
  matchPickPass ps now raw = Txn.Exec v r ->
  let queue :=
    List.filter (notStale (staleCutoffOf now (inactiveKickSeconds ps))) raw in
  let n := Js.sliceEnd queue (Qmin (maxPlayers ps) (qlen queue)) in
  (minPlayersToStart ps <= qlen queue)%Q /\
  (exists first, head queue = Some first /\ canStart ps now queue first = true) /\
  r = Picked (firstn n queue) /\
  v = skipn (length (firstn n queue)) queue.
Proof.
  unfold matchPickPass. cbv zeta.
  set (queue := List.filter _ raw).
  destruct (Js.ltb (qlen queue) (minPlayersToStart ps)) eqn:Hmin; [discriminate|].
  apply ltb_ge in Hmin.
  destruct queue as [|first rest] eqn:Hq; [discriminate|].
  destruct (canStart ps now (first :: rest) first) eqn:Hc; simpl; [|discriminate].
  intros H. injection H as <- <-.
  repeat split; eauto.
Qed.

Lemma picked_length ps (queue : Queue) :
  (2 <= maxPlayers ps <= 4)%Q ->
  (2 <= qlen queue)%Q ->
  let n := Js.sliceEnd queue (Qmin (maxPlayers ps) (qlen queue)) in
  n = Z.to_nat (Qfloor (Qmin (maxPlayers ps) (qlen queue))) /\
  (2 <= length (firstn n queue) <= 4)%nat /\
  length (firstn n queue) = n.
Proof.
  intros [Hlo Hhi] Hlen. cbv zeta.
  set (e := Qmin (maxPlayers ps) (qlen queue)).
  assert (He2 : (2 <= e)%Q) by (apply Q.min_glb; assumption).
  assert (He4 : (e <= 4)%Q).
  { eapply Qle_trans; [apply Q.le_min_l | assumption]. }
  assert (Hel : (e <= qlen queue)%Q) by apply Q.le_min_r.
  destruct (sliceEnd_in_range queue e) as [-> Hn]; [lra | exact Hel |].
  destruct (Qfloor_bounds e 2 4 He2 He4) as [F2 F4].
  rewrite length_firstn. split; [reflexivity|]. lia.
Qed.

Lemma retry_committed {V R} (body : V -> Txn.attempt V R) n sched cur v r :
  Txn.retry body n sched cur = (v, Txn.Committed r) ->
  exists snapshot, body snapshot = Txn.Exec v r.
Proof.
  revert sched cur. induction n as [|n IH]; intros sched cur; simpl; [discriminate|].
  destruct (hd Txn.quiet sched) as [|w|w];
    match goal with |- context [body ?x] => destruct (body x) eqn:Hb end;
    try discriminate; eauto.
  intros H. injection H as <- <-. eauto.
Qed.

Lemma retry_returned {V R} (body : V -> Txn.attempt V R) n sched cur v r :
  Txn.retry body n sched cur = (v, Txn.Returned r) ->
  body v = Txn.Return r.
Proof.
  revert sched cur. induction n as [|n IH]; intros sched cur; simpl; [discriminate|].
  destruct (hd Txn.quiet sched) as [|w|w];
    match goal with |- context [body ?x] => destruct (body x) eqn:Hb end;
    try discriminate; eauto.
  all: intros H; injection H as <- <-; assumption.
Qed.

Lemma tryMatchPick_picked st now sched stored stored' picked :
  tryMatchPickAtomic st now sched stored = (stored', Picked picked) ->
  exists snapshot,
    matchPickPass (pickSettings st) now snapshot = Txn.Exec stored' (Picked picked).
Proof.
  unfold tryMatchPickAtomic.
  destruct (Txn.retry _ _ _ _) as [s o] eqn:E.
  destruct o as [r|r|]; intros H; inversion H; subst; clear H.
  - apply retry_returned in E. unfold matchPickPass in E. cbv zeta in E.
    repeat match type of E with
           | (if ?b then _ else _) = _ => destruct b
           | match ?q with _ => _ end = _ => destruct q
           end; discriminate.
  - now apply retry_committed in E.
Qed.

Lemma picked_size st now snapshot v picked :
  matchPickPass (pickSettings st) now snapshot = Txn.Exec v (Picked picked) ->
  (2 <= length picked <= 4)%nat.
Proof.
  intros H. apply matchPickPass_exec in H. cbv zeta in H.
  destruct H as (Hmin & _ & Hr & _). injection Hr as ->.
  destruct (pickSettings_clamped st) as [Hmax Hmin2].
  eapply (picked_length (pickSettings st)); [assumption|].
  eapply Qle_trans; eassumption.
Qed.

Lemma set_fresh {V} (o : Js.obj V) k v :
  ~ In k (Js.keys o) -> Js.set o k v = (o ++ [(k, v)])%list.
Proof.
  induction o as [|[k' v'] o IH]; simpl; intros Hk; [reflexivity|].
  destruct (String.eqb_spec k k') as [->|Hne]; [tauto|].
  rewrite IH by tauto. reflexivity.
Qed.

Lemma fold_set_nodup {V} (l acc : list (string * V)) :
  List.NoDup (map fst (acc ++ l)) ->
  fold_left (fun o kv => Js.set o (fst kv) (snd kv)) l acc = (acc ++ l)%list.
Proof.
  revert acc. induction l as [|[k v] l IH]; intros acc Hnd; simpl.
  - now rewrite app_nil_r.
  - rewrite set_fresh.
    + rewrite IH; rewrite <- app_assoc; [reflexivity | exact Hnd].
    + unfold Js.keys. rewrite map_app in Hnd. simpl in Hnd.
      apply List.NoDup_remove_2 in Hnd. intros Hin. apply Hnd.
      apply in_or_app. now left.
Qed.

Lemma fromEntries_nodup {V} (l : list (string * V)) :
  List.NoDup (map fst l) -> Js.fromEntries l = l.
Proof. intros H. unfold Js.fromEntries. now rewrite fold_set_nodup. Qed.

Lemma map_fst_playerOfEntry picked :
  map fst (map playerOfEntry picked) = map QueueEntry.userId picked.
Proof. rewrite map_map. reflexivity. Qed.

Lemma NoDup_map_filter {A B} (g : A -> B) (f : A -> bool) l :
  List.NoDup (map g l) -> List.NoDup (map g (List.filter f l)).
Proof.
  induction l as [|x l IH]; simpl; intros H; [constructor|].
  inversion H as [|? ? Hx Hl]; subst.
  destruct (f x); simpl; [constructor|]; auto.
  intros Hin. apply Hx. apply in_map_iff in Hin as (y & <- & Hy).
  apply in_map. apply filter_In in Hy. tauto.
Qed.

Lemma in_firstn {A} n (l : list A) x : In x (firstn n l) -> In x l.
Proof.
  intros H. rewrite <- (firstn_skipn n l). apply in_or_app. now left.
Qed.

Lemma in_skipn {A} n (l : list A) x : In x (skipn n l) -> In x l.
Proof.
  intros H. rewrite <- (firstn_skipn n l). apply in_or_app. now right.
Qed.

Lemma NoDup_map_firstn {A B} (g : A -> B) n l :
  List.NoDup (map g l) -> List.NoDup (map g (firstn n l)).
Proof.
  revert l. induction n as [|n IH]; intros [|x l] H; simpl; try constructor.
  - inversion H as [|? ? Hx Hl]; subst. intros Hin. apply Hx.
    apply in_map_iff in Hin as (y & <- & Hy).
    apply in_map. eapply in_firstn. exact Hy.
  - inversion H; subst. auto.
Qed.

Lemma fold_left_frame {A B} (proj : World -> B) (f : World -> A -> World) l w :
  (forall w a, proj (f w a) = proj w) ->
  proj (fold_left f l w) = proj w.
Proof.
  intros Hf. revert w. induction l as [|a l IH]; intros w; simpl; [reflexivity|].
  now rewrite IH.
Qed.

Lemma maybeStart_cases postId env w w' :
  maybeStartMatchForPost postId env w = Some w' ->
  (exists stored, w' = setQueue stored w) \/
  exists stored picked,
    tryMatchPickAtomic (settings w) (pickNow env) [] (queue w)
      = (stored, Picked picked) /\
    w' = createMatch postId env picked (setQueue stored w).
Proof.
  unfold maybeStartMatchForPost.
  destruct (tryMatchPickAtomic _ _ _ _) as [stored result] eqn:E.
  destruct result as [|picked|]; intros H; try discriminate.
  - injection H as <-. left. eauto.
  - destruct (length picked =? 0)%nat; injection H as <-.
    + left. eauto.
    + right. eauto.
Qed.

Lemma rooms_createMatch postId env picked w :
  rooms (createMatch postId env picked w) =
  <[safe (roomIdOf (uuid env)) :=
      newRoom (roomIdOf (uuid env)) picked (createNow env)
              (roundSecondsOf (settings w))
              (Qmax 1 (getSubredditSettingNumber (settings w) "roundsPerGame" 3))
              (pickWord w (wordRandom env))]> (rooms w).
Proof.
  unfold createMatch. cbv zeta.
  rewrite (fold_left_frame rooms) by reflexivity.
  cbn [broadcastRoomState send rooms].
  rewrite (fold_left_frame rooms) by reflexivity. reflexivity.
Qed.

Lemma maybeStart_rooms postId env w w' :
  maybeStartMatchForPost postId env w = Some w' ->
  rooms w' = rooms w \/
  exists stored picked,
    tryMatchPickAtomic (settings w) (pickNow env) [] (queue w)
      = (stored, Picked picked) /\
    rooms w' =
      <[safe (roomIdOf (uuid env)) :=
          newRoom (roomIdOf (uuid env)) picked (createNow env)
                  (roundSecondsOf (settings w))
                  (Qmax 1 (getSubredditSettingNumber (settings w) "roundsPerGame" 3))
                  (pickWord (setQueue stored w) (wordRandom env))]> (rooms w).
Proof.
  intros H. apply maybeStart_cases in H as [[stored ->]|(stored & picked & E & ->)].
  - left. reflexivity.
  - right. exists stored, picked. split; [exact E|].
    exact (rooms_createMatch postId env picked (setQueue stored w)).
Qed.

Lemma tryMatchPick_quiet st now stored stored' picked :
  tryMatchPickAtomic st now [] stored = (stored', Picked picked) ->
  matchPickPass (pickSettings st) now stored = Txn.Exec stored' (Picked picked).
Proof.
  unfold tryMatchPickAtomic, MAX_QUEUE_TRANSACTION_RETRIES.
  rewrite retry_quiet.
  destruct (matchPickPass (pickSettings st) now stored) as [r|v r] eqn:E;
    intros H; inversion H; subst; [|reflexivity].
  unfold matchPickPass in E. cbv zeta in E.
  repeat match type of E with
         | (if ?b then _ else _) = _ => destruct b
         | match ?q with _ => _ end = _ => destruct q
         end; discriminate.
Qed.

Lemma picked_nodup ps now raw v picked :
  matchPickPass ps now raw = Txn.Exec v (Picked picked) ->
  List.NoDup (map QueueEntry.userId raw) ->
  List.NoDup (map QueueEntry.userId picked).
Proof.
  intros H Hnd. apply matchPickPass_exec in H. cbv zeta in H.
  destruct H as (_ & _ & Hr & _). injection Hr as ->.
  apply NoDup_map_firstn, NoDup_map_filter, Hnd.
Qed.

(** C10: whatever the [maxPlayers] and [minPlayersToStart] settings hold (a
    number in or out of range, a non-number, nothing), [tryMatchPickAtomic]
    works with a capacity clamped into [2, 4] and a minimum of at least 2;
    every pick it returns has between 2 and 4 entries, and every room record
    that [maybeStartMatchForPost] writes has between 2 and 4 users in its turn
    order and, when no user is queued twice, in its players map. *)
Theorem match_start_room_size_clamped (st : Settings) :
  ((2 <= maxPlayers (pickSettings st) <= 4)%Q /\
   (2 <= minPlayersToStart (pickSettings st))%Q) /\
  (forall now sched stored stored' picked,
     tryMatchPickAtomic st now sched stored = (stored', Picked picked) ->
     (2 <= length picked <= 4)%nat) /\
  (forall postId env w w',
     settings w = st ->
     maybeStartMatchForPost postId env w = Some w' ->
     forall key room,
       rooms w' !! key = Some room ->
       rooms w !! key <> Some room ->
       (2 <= length (RoomState.order room) <= 4)%nat /\
       (List.NoDup (map QueueEntry.userId (queue w)) ->
        (2 <= length (RoomState.players room) <= 4)%nat)).
Proof.
  split; [apply pickSettings_clamped|]. split.
  - intros now sched stored stored' picked H.
    apply tryMatchPick_picked in H as [snapshot H].
    eapply picked_size; eassumption.
  - intros postId env w w' <- Hstart key room Hnew Hold.
    apply maybeStart_rooms in Hstart as [Hsame|(stored & picked & Hpick & Hrooms)].
    { rewrite Hsame in Hnew. contradiction. }
    rewrite Hrooms in Hnew.
    destruct (decide (safe (roomIdOf (uuid env)) = key)) as [<-|Hne].
    2:{ rewrite lookup_insert_ne in Hnew by assumption. contradiction. }
    rewrite lookup_insert_eq in Hnew. injection Hnew as <-.
    apply tryMatchPick_quiet in Hpick.
    pose proof (picked_size _ _ _ _ _ Hpick) as Hsize.
    cbn [newRoom RoomState.order RoomState.players].
    rewrite length_map. split; [exact Hsize|].
    intros Hnd. rewrite fromEntries_nodup.
    + now rewrite length_map.
    + rewrite map_fst_playerOfEntry. eapply picked_nodup; eassumption.
Qed.

Lemma match_start_room_size_clamped_witness :
  exists w' room,
    maybeStartMatchForPost "t3_post" startAt10s fiveQueued = Some w' /\
    rooms w' !! "123e4567e8" = Some room /\
    map fst (RoomState.players room) = ["t2_a"; "t2_b"; "t2_c"; "t2_d"] /\
    (2 <= length (RoomState.order room) <= 4)%nat /\
    (2 <= length (RoomState.players room) <= 4)%nat.
Proof.
  destruct (maybeStartMatchForPost "t3_post" startAt10s fiveQueued)
    as [w'|] eqn:Hstart; [|vm_compute in Hstart; discriminate].
  destruct (rooms w' !! "123e4567e8") as [room|] eqn:Hroom.
  2:{ vm_compute in Hstart. injection Hstart as <-. vm_compute in Hroom. discriminate. }
  exists w', room. split; [reflexivity|]. split; [exact Hroom|].
  split.
  { vm_compute in Hstart. injection Hstart as <-.
    vm_compute in Hroom. injection Hroom as <-. reflexivity. }
  destruct (match_start_room_size_clamped oddSettings) as (_ & _ & H).
  destruct (H "t3_post" startAt10s fiveQueued w' eq_refl Hstart
              "123e4567e8" room Hroom ltac:(vm_compute; discriminate))
    as [Horder Hplayers].
  split; [exact Horder|]. apply Hplayers.
  vm_compute. repeat constructor; simpl; intuition discriminate.
Defined.

Section SortedLists.
Context {A : Type} (R : A -> A -> Prop).

Lemma strongly_sorted_app (l1 l2 : list A) :
  StronglySorted R (l1 ++ l2) <->
  StronglySorted R l1 /\ StronglySorted R l2 /\
  (forall x y, In x l1 -> In y l2 -> R x y).
Proof.
  induction l1 as [|a l1 IH]; simpl.
  - split.
    + intros H. repeat split; [constructor | assumption | intros ? ? []].
    + tauto.
  - split.
    + intros H. apply StronglySorted_inv in H as [Hs Hall].
      apply IH in Hs as (H1 & H2 & H12).
      rewrite List.Forall_forall in Hall.
      repeat split.
      * constructor; [assumption|]. apply List.Forall_forall.
        intros x Hx. apply Hall. apply in_or_app. now left.
      * assumption.
      * intros x y [<-|Hx] Hy; [|now apply H12].
        apply Hall. apply in_or_app. now right.
    + intros (H1 & H2 & H12). apply StronglySorted_inv in H1 as [Hs Hall].
      rewrite List.Forall_forall in Hall.
      constructor.
      * apply IH. repeat split; auto.
      * apply List.Forall_forall. intros x Hx. apply in_app_or in Hx as [Hx|Hx]; auto.
Qed.

Lemma strongly_sorted_filter (f : A -> bool) (l : list A) :
  StronglySorted R l -> StronglySorted R (List.filter f l).
Proof.
  induction 1 as [|a l Hs IH Hall]; simpl; [constructor|].
  destruct (f a); [|assumption].
  constructor; [assumption|].
  rewrite List.Forall_forall in *. intros x Hx. apply Hall.
  apply filter_In in Hx. tauto.
Qed.

End SortedLists.

Lemma insertBy_sorted (x : QueueEntry.t) (l : Queue) :
  oldestFirst l -> oldestFirst (Js.insertBy byJoinedAt x l).
Proof.
  unfold oldestFirst. induction 1 as [|a l Hs IH Hall]; simpl.
  - repeat constructor.
  - unfold byJoinedAt at 1. destruct (Z.leb_spec (QueueEntry.joinedAt x) (QueueEntry.joinedAt a)).
    + constructor; [constructor; assumption|].
      constructor; [assumption|].
      rewrite List.Forall_forall in *. intros y Hy. specialize (Hall y Hy). lia.
    + constructor; [assumption|].
      rewrite List.Forall_forall in *. intros y Hy.
      assert (Hin : In y (x :: l)).
      { clear -Hy. induction l as [|b l IH]; simpl in *; [tauto|].
        destruct (byJoinedAt x b); simpl in *; intuition. }
      destruct Hin as [<-|Hin]; [lia | auto].
Qed.

Lemma sortBy_sorted (l : Queue) : oldestFirst (Js.sortBy byJoinedAt l).
Proof.
  induction l as [|x l IH]; simpl; [constructor | now apply insertBy_sorted].
Qed.

Lemma upsertQueue_sorted userId userName now cutoff raw :
  oldestFirst (upsertQueue userId userName now cutoff raw).
Proof. apply sortBy_sorted. Qed.



(** ** Retry loops under contention *)

Lemma last_cons_default {A} (w cur : A) (l : list A) :
  List.last (w :: l) cur = List.last l w.
Proof.
  revert w cur. induction l as [|a l IH]; intros w cur; [reflexivity|].
  change (List.last (w :: a :: l) cur) with (List.last (a :: l) cur).
  rewrite (IH a cur), (IH a w). reflexivity.
Qed.

Section RetryAlwaysExec.
Context {V R : Type} (f : V -> V) (g : V -> R).
Let body (v : V) : Txn.attempt V R := Txn.Exec (f v) (g v).

Lemma retry_firstn (b : V -> Txn.attempt V R) n sched cur :
  Txn.retry b n sched cur = Txn.retry b n (firstn n sched) cur.
Proof.
  revert sched cur. induction n as [|n IH]; intros sched cur; [reflexivity|].
  destruct sched as [|i sched]; [reflexivity|]. simpl.
  destruct i; simpl; destruct (b _); try reflexivity; apply IH.
Qed.

Lemma retry_exec_contended n sched cur :
  Txn.allConflict n sched = true ->
  Txn.retry body n sched cur
  = (List.last (Txn.writes (firstn n sched)) cur, Txn.Exhausted).
Proof.
  revert sched cur. unfold Txn.allConflict.
  induction n as [|n IH]; intros sched cur H; [reflexivity|].
  destruct sched as [|i sched]; [discriminate|].
  simpl in H. apply andb_true_iff in H as [Hlen H].
  apply andb_true_iff in H as [Hi H].
  assert (Hrest : (n <=? length sched)%nat && forallb Txn.conflicts (firstn n sched) = true).
  { apply andb_true_iff. split; assumption. }
  destruct i as [|w|w]; [discriminate| |]; cbn [Txn.retry hd tl body];
    rewrite (IH sched w Hrest); f_equal; cbn [firstn Txn.writes flat_map app];
    fold (Txn.writes (firstn n sched)); symmetry; apply last_cons_default.
Qed.

Lemma retry_exec_uncontended n sched cur :
  Txn.allConflict n sched = false -> (0 < n)%nat ->
  exists snapshot,
    In snapshot (cur :: Txn.writes (firstn n sched)) /\
    Txn.retry body n sched cur = (f snapshot, Txn.Committed (g snapshot)).
Proof.
  revert sched cur. unfold Txn.allConflict.
  induction n as [|n IH]; intros sched cur H Hn; [lia|].
  destruct sched as [|i sched].
  { exists cur. split; [now left | reflexivity]. }
  destruct i as [|w|w].
  - exists cur. split; [now left | reflexivity].
  - cbn [Txn.retry hd tl body]. simpl in H.
    destruct n as [|n].
    { simpl in H. discriminate. }
    destruct (IH sched w) as (s & Hin & Hs); [exact H | lia |].
    exists s. split; [|exact Hs]. right. exact Hin.
  - cbn [Txn.retry hd tl body]. simpl in H.
    destruct n as [|n].
    { simpl in H. discriminate. }
    destruct (IH sched w) as (s & Hin & Hs); [exact H | lia |].
    exists s. split; [|exact Hs]. right. exact Hin.
Qed.

Lemma last_writes_in (l : list V) cur : In (List.last l cur) (cur :: l).
Proof.
  revert cur. induction l as [|a l IH]; intros cur; [left; reflexivity|].
  rewrite last_cons_default. right. apply IH.
Qed.
End RetryAlwaysExec.
Lemma in_insertBy {A} (le : A -> A -> bool) x y l :
  In x (Js.insertBy le y l) <-> x = y \/ In x l.
Proof.
  induction l as [|a l IH]; simpl; [intuition|].
  destruct (le y a); simpl; [intuition|]. rewrite IH. intuition.
Qed.

Lemma in_sortBy {A} (le : A -> A -> bool) x l :
  In x (Js.sortBy le l) <-> In x l.
Proof.
  induction l as [|a l IH]; simpl; [tauto|].
  rewrite in_insertBy, IH. intuition.
Qed.

Lemma findIndex_range {A} (f : A -> bool) l : -1 <= Js.findIndex f l.
Proof.
  induction l as [|a l IH]; simpl; [lia|].
  destruct (f a); [lia|]. destruct (Z.ltb_spec (Js.findIndex f l) 0); lia.
Qed.

Lemma findIndex_found {A} (f : A -> bool) l :
  0 <= Js.findIndex f l ->
  exists x, nth_error l (Z.to_nat (Js.findIndex f l)) = Some x /\ f x = true.
Proof.
  induction l as [|a l IH]; simpl; [lia|].
  destruct (f a) eqn:Fa; [intros _; exists a; split; [reflexivity | assumption]|].
  destruct (Z.ltb_spec (Js.findIndex f l) 0) as [Hlt|Hge]; [lia|].
  intros _. destruct (IH Hge) as (x & Hx & Hf). exists x. split; [|assumption].
  replace (Z.to_nat (Js.findIndex f l + 1)) with (S (Z.to_nat (Js.findIndex f l))) by lia.
  exact Hx.
Qed.

Lemma findIndex_none {A} (f : A -> bool) l :
  Js.findIndex f l < 0 -> forall x, In x l -> f x = false.
Proof.
  induction l as [|a l IH]; simpl; [intros _ ? []|].
  destruct (f a) eqn:Fa; [lia|].
  destruct (Z.ltb_spec (Js.findIndex f l) 0) as [Hlt|Hge]; [|lia].
  intros _ x [<-|Hx]; auto.
Qed.

Lemma updateNth_in {A} (g : A -> A) n l x :
  nth_error l n = Some x -> In (g x) (Js.updateNth n g l).
Proof.
  revert n. induction l as [|a l IH]; intros [|n]; simpl; try discriminate.
  - intros H. injection H as ->. now left.
  - intros H. right. now apply IH.
Qed.

Lemma upsertQueue_contains userId userName now cutoff raw :
  In userId (map QueueEntry.userId (upsertQueue userId userName now cutoff raw)).
Proof.
  unfold upsertQueue. cbv zeta.
  set (queue := List.filter _ raw).
  set (idx := Js.findIndex _ queue).
  apply in_map_iff.
  destruct (Z.leb_spec 0 idx) as [Hfound|Hnone].
  - destruct (findIndex_found _ queue Hfound) as (x & Hx & Hf). fold idx in Hx.
    apply String.eqb_eq in Hf.
    exists (QueueEntry.refresh now userName x). split; [exact Hf|].
    apply in_sortBy. unfold Js.updateAt.
    destruct (Z.ltb_spec idx 0); [lia|]. now apply updateNth_in.
  - exists (QueueEntry.mk userId userName now now). split; [reflexivity|].
    apply in_sortBy. apply in_or_app. right. now left.
Qed.

Lemma removeUser_gone userId raw :
  ~ In userId (map QueueEntry.userId (removeUser userId raw)).
Proof.
  intros H. apply in_map_iff in H as (x & Hx & Hin).
  apply filter_In in Hin as [_ Hne].
  apply negb_true_iff in Hne. apply String.eqb_neq in Hne. contradiction.
Qed.

(** C9 as the code has it: the join upsert and the explicit remove try their
    compare-and-swap transaction at most 5 times and, when all 5 passes meet a
    conflict, apply the same change to the value then stored with a plain
    read-modify-write, so the caller always ends up in (or out of) the queue;
    the stale-entry sweep tries at most 5 times as well, filters the queue in
    the pass that commits, and when all 5 passes conflict it reports [false]
    and leaves the key as the last writer set it: it has no fallback. *)
Theorem queue_mutations_retry_and_fallback
    (userId userName : string) (now : Z) (kick cutoff : Q)
    (sched : list (Txn.interference Queue)) (stored : Queue) :
  let passes := firstn MAX_QUEUE_TRANSACTION_RETRIES sched in
  let contended := Txn.allConflict MAX_QUEUE_TRANSACTION_RETRIES sched in
  let lastWritten := List.last (Txn.writes passes) stored in
  let upsert := upsertQueue userId userName now (staleCutoffOf now kick) in
  (queueUpsertAtomic userId userName now kick sched stored
   = queueUpsertAtomic userId userName now kick passes stored /\
   (exists snapshot,
      In snapshot (stored :: Txn.writes passes) /\
      queueUpsertAtomic userId userName now kick sched stored
      = (upsert snapshot, upsert snapshot) /\
      (contended = true -> snapshot = lastWritten)) /\
   In userId
      (map QueueEntry.userId
           (fst (queueUpsertAtomic userId userName now kick sched stored)))) /\
  (queueRemoveUserAtomic userId sched stored
   = queueRemoveUserAtomic userId passes stored /\
   (exists snapshot,
      In snapshot (stored :: Txn.writes passes) /\
      queueRemoveUserAtomic userId sched stored = removeUser userId snapshot /\
      (contended = true -> snapshot = lastWritten)) /\
   ~ In userId
       (map QueueEntry.userId (queueRemoveUserAtomic userId sched stored))) /\
  (queueFilterStaleAtomic cutoff sched stored
   = queueFilterStaleAtomic cutoff passes stored /\
   (contended = false ->
    exists snapshot,
      In snapshot (stored :: Txn.writes passes) /\
      queueFilterStaleAtomic cutoff sched stored
      = (List.filter (notStale cutoff) snapshot, true)) /\
   (contended = true ->
    queueFilterStaleAtomic cutoff sched stored = (lastWritten, false))).
Proof.
  intros passes contended lastWritten upsert.
  assert (Hupsert : exists snapshot,
      In snapshot (stored :: Txn.writes passes) /\
      queueUpsertAtomic userId userName now kick sched stored
      = (upsert snapshot, upsert snapshot) /\
      (contended = true -> snapshot = lastWritten)).
  { unfold queueUpsertAtomic. cbv zeta. fold upsert.
    destruct contended eqn:Hc; subst contended.
    - rewrite (retry_exec_contended upsert upsert _ _ _ Hc).
      exists lastWritten. split; [apply last_writes_in|]. split; reflexivity.
    - destruct (retry_exec_uncontended upsert upsert _ sched stored Hc)
        as (s & Hin & ->); [unfold MAX_QUEUE_TRANSACTION_RETRIES; lia|].
      exists s. split; [exact Hin|]. split; [reflexivity | discriminate]. }
  assert (Hremove : exists snapshot,
      In snapshot (stored :: Txn.writes passes) /\
      queueRemoveUserAtomic userId sched stored = removeUser userId snapshot /\
      (contended = true -> snapshot = lastWritten)).
  { unfold queueRemoveUserAtomic. cbv zeta.
    destruct contended eqn:Hc; subst contended.
    - rewrite (retry_exec_contended (removeUser userId) (fun _ => tt) _ _ _ Hc).
      exists lastWritten. split; [apply last_writes_in|]. split; reflexivity.
    - destruct (retry_exec_uncontended (removeUser userId) (fun _ => tt)
                  _ sched stored Hc)
        as (s & Hin & ->); [unfold MAX_QUEUE_TRANSACTION_RETRIES; lia|].
      exists s. split; [exact Hin|]. split; [reflexivity | discriminate]. }
  split; [|split].
  - split; [|split; [exact Hupsert|]].
    + unfold queueUpsertAtomic. cbv zeta. now rewrite retry_firstn.
    + destruct Hupsert as (s & _ & -> & _). apply upsertQueue_contains.
  - split; [|split; [exact Hremove|]].
    + unfold queueRemoveUserAtomic. cbv zeta. now rewrite retry_firstn.
    + destruct Hremove as (s & _ & -> & _). apply removeUser_gone.
  - split; [|split].
    + unfold queueFilterStaleAtomic. cbv zeta. now rewrite retry_firstn.
    + intros Hc. unfold queueFilterStaleAtomic. cbv zeta.
      destruct (retry_exec_uncontended (List.filter (notStale cutoff))
                  (fun _ => tt) _ sched stored Hc)
        as (s & Hin & ->); [unfold MAX_QUEUE_TRANSACTION_RETRIES; lia|].
      exists s. split; [exact Hin | reflexivity].
    + intros Hc. unfold queueFilterStaleAtomic. cbv zeta.
      now rewrite (retry_exec_contended (List.filter (notStale cutoff))
                     (fun _ => tt) _ _ _ Hc).
Qed.

(** C9 as stated fails for the sweep: five passes that each lose the race
    leave a stale entry in the queue, and the sweep reports [false]. *)
Lemma stale_sweep_gives_up_after_five_conflicts :
  notStale 5000 staleEntry = false /\
  queueFilterStaleAtomic 5000 fiveConflicts [staleEntry]
  = ([staleEntry], false).
Proof. split; reflexivity. Qed.

Lemma queue_mutations_retry_and_fallback_witness :
  queueFilterStaleAtomic 5000 fiveConflicts [staleEntry] = ([staleEntry], false)
  /\ In "t2_new"
        (map QueueEntry.userId
             (fst (queueUpsertAtomic "t2_new" "new" 9000 20 fiveConflicts
                                     [staleEntry]))).
Proof.
  pose proof (queue_mutations_retry_and_fallback
                "t2_new" "new" 9000 20 5000 fiveConflicts [staleEntry]) as H.
  cbv zeta in H. destruct H as ((_ & _ & Hin) & _ & (_ & _ & Hsweep)).
  split; [apply Hsweep; reflexivity | exact Hin].
Defined.

(** ** Redaction of the secret word *)



Lemma isDrawer_iff room viewer :
  isDrawer room viewer = true <-> RoomState.drawerUserId room = Some viewer.
Proof.
  unfold isDrawer. destruct (RoomState.drawerUserId room) as [d|].
  - rewrite String.eqb_eq. split; congruence.
  - split; discriminate.
Qed.

Lemma withRoomDefaults_keeps room :
  let room' := withRoomDefaults room in
  RoomState.roomId room' = RoomState.roomId room /\
  RoomState.status room' = RoomState.status room /\
  RoomState.players room' = RoomState.players room /\
  RoomState.order room' = RoomState.order room /\
  RoomState.roundNumber room' = RoomState.roundNumber room /\
  RoomState.drawerUserId room' = RoomState.drawerUserId room /\
  RoomState.word room' = RoomState.word room /\
  RoomState.roundEndsAt room' = RoomState.roundEndsAt room /\
  RoomState.roundResolvedAt room' = RoomState.roundResolvedAt room /\
  RoomState.guessedCorrectUserIds room' = RoomState.guessedCorrectUserIds room.
Proof. unfold withRoomDefaults. destruct (Js.ltb _ _); repeat split. Qed.




(** ** The round transition *)

Lemma nth_error_lookup {A} (l : list A) (i : nat) : nth_error l i = l !! i.
Proof. revert i. induction l as [|a l IH]; intros [|i]; simpl; auto. Qed.

Lemma at_lookup {A} (l : list A) (i : nat) : Js.at_ l (Z.of_nat i) = l !! i.
Proof.
  unfold Js.at_. destruct (Z.ltb_spec (Z.of_nat i) 0); [lia|].
  rewrite Nat2Z.id. apply nth_error_lookup.
Qed.

Lemma findIndex_first {A} (f : A -> bool) (l : list A) (i : nat) (x : A) :
  l !! i = Some x -> f x = true ->
  (forall j y, (j < i)%nat -> l !! j = Some y -> f y = false) ->
  Js.findIndex f l = Z.of_nat i.
Proof.
  revert i. induction l as [|a l IH]; intros [|i]; simpl; try discriminate.
  - intros H Hf _. injection H as ->. now rewrite Hf.
  - intros H Hf Hbefore.
    rewrite (Hbefore 0%nat a); [|lia|reflexivity].
    rewrite (IH i); [| exact H | exact Hf |].
    + destruct (Z.ltb_spec (Z.of_nat i) 0); lia.
    + intros j y Hj Hy. apply (Hbefore (S j) y); [lia | exact Hy].
Qed.

Lemma indexOf_first (l : list string) (i : nat) (d : string) :
  l !! i = Some d ->
  (forall j, (j < i)%nat -> l !! j <> Some d) ->
  Js.indexOf l d = Z.of_nat i.
Proof.
  intros Hi Hfirst. unfold Js.indexOf.
  apply (findIndex_first _ l i d Hi); [apply String.eqb_refl|].
  intros j y Hj Hy. apply String.eqb_neq. intros ->. now apply (Hfirst j).
Qed.

Lemma nextDrawer_rotates room d i :
  RoomState.drawerUserId room = Some d ->
  RoomState.order room !! i = Some d ->
  (forall j, (j < i)%nat -> RoomState.order room !! j <> Some d) ->
  nextDrawer room
  = RoomState.order room !! ((i + 1) mod length (RoomState.order room))%nat.
Proof.
  intros Hd Hi Hfirst. unfold nextDrawer, drawerIndex. rewrite Hd.
  rewrite (indexOf_first _ i d Hi Hfirst).
  assert (Hlen : (i < length (RoomState.order room))%nat)
    by (eapply lookup_lt_Some; exact Hi).
  unfold Js.rem. destruct (Z.eqb_spec (Z.of_nat (length (RoomState.order room))) 0); [lia|].
  rewrite Z.rem_mod_nonneg by lia.
  replace (Z.of_nat i + 1) with (Z.of_nat (i + 1)) by lia.
  rewrite <- Nat2Z.inj_mod. apply at_lookup.
Qed.


Lemma lastRound_not room :
  lastRound room = false
  <-> (inject_Z (RoomState.roundNumber room) < RoomState.maxRounds room)%Q.
Proof. apply geb_lt. Qed.

Lemma advanceOrEndRound_saves postId room now random w :
  rooms (advanceOrEndRound postId room now random w)
  = <[safe (RoomState.roomId room) :=
        advancedRoom now (roundSecondsOf (settings w)) (pickWord w random) room]>
      (rooms w).
Proof.
  unfold advanceOrEndRound, advancedRoom.
  destruct (lastRound room); reflexivity.
Qed.



(** ** The user-room index *)

Lemma setUserRoomOn_quiet userId roomId m :
  setUserRoomOn userId roomId [] m = updateUserRoom userId roomId m.
Proof. reflexivity. Qed.

Lemma updateUserRoom_lookup userId roomId m u :
  updateUserRoom userId roomId m !! u =
  if decide (userId = u)
  then (if Js.truthy_str roomId then roomId else None)
  else m !! u.
Proof.
  unfold updateUserRoom. destruct roomId as [r|]; simpl.
  - destruct (negb (r =? "")%string); destruct (decide (userId = u)) as [->|Hne];
      rewrite ?lookup_insert_eq, ?lookup_delete_eq,
              ?lookup_insert_ne, ?lookup_delete_ne by assumption; reflexivity.
  - destruct (decide (userId = u)) as [->|Hne];
      rewrite ?lookup_delete_eq, ?lookup_delete_ne by assumption; reflexivity.
Qed.

Lemma getUserRoom_setUserRoom userId roomId w u :
  userRooms (setUserRoom userId roomId w) !! u =
  if decide (userId = u)
  then (if Js.truthy_str roomId then roomId else None)
  else userRooms w !! u.
Proof. unfold setUserRoom. cbn [userRooms setUserRooms]. apply updateUserRoom_lookup. Qed.

Lemma getUserRoom_fold_set (picked : Queue) roomId w u :
  userRooms
    (fold_left (fun w p => setUserRoom (QueueEntry.userId p) roomId w) picked w)
    !! u
  = if existsb (fun p => String.eqb (QueueEntry.userId p) u) picked
    then (if Js.truthy_str roomId then roomId else None)
    else userRooms w !! u.
Proof.
  revert w. induction picked as [|p picked IH]; intros w; simpl; [reflexivity|].
  rewrite IH, getUserRoom_setUserRoom.
  destruct (String.eqb_spec (QueueEntry.userId p) u) as [->|Hne]; simpl.
  - rewrite decide_True by reflexivity. now destruct (existsb _ picked).
  - rewrite decide_False by assumption. reflexivity.
Qed.

Lemma getUserRoom_fold_clear (ids : list string) w u :
  userRooms (fold_left (fun w id => setUserRoom id None w) ids w) !! u
  = if existsb (String.eqb u) ids then None else userRooms w !! u.
Proof.
  revert w. induction ids as [|id ids IH]; intros w; simpl; [reflexivity|].
  rewrite IH, getUserRoom_setUserRoom. simpl.
  destruct (String.eqb_spec u id) as [->|Hne]; simpl.
  - rewrite decide_True by reflexivity. now destruct (existsb _ ids).
  - rewrite decide_False by congruence. reflexivity.
Qed.

Lemma has_set {V} (o : Js.obj V) k v u :
  Js.has (Js.set o k v) u = String.eqb u k || Js.has o u.
Proof.
  unfold Js.has. induction o as [|[k' v'] o IH]; simpl.
  - now destruct (String.eqb u k).
  - destruct (String.eqb_spec k k') as [->|Hne]; simpl.
    + destruct (String.eqb u k'); reflexivity.
    + destruct (String.eqb_spec u k') as [->|Hne'].
      * now rewrite orb_true_r.
      * exact IH.
Qed.

Lemma has_fromEntries {V} (l : list (string * V)) u :
  Js.has (Js.fromEntries l) u = existsb (fun kv => String.eqb (fst kv) u) l.
Proof.
  unfold Js.fromEntries.
  assert (H : forall acc,
             Js.has (fold_left (fun o kv => Js.set o (fst kv) (snd kv)) l acc) u
             = Js.has acc u || existsb (fun kv => String.eqb (fst kv) u) l).
  { induction l as [|[k v] l IH]; intros acc; simpl.
    - now rewrite orb_false_r.
    - rewrite IH, has_set. rewrite (String.eqb_sym u k).
      destruct (Js.has acc u), (String.eqb k u); reflexivity. }
  rewrite H. reflexivity.
Qed.

Lemma has_newRoom roomId picked now rs mr word u :
  Js.has (RoomState.players (newRoom roomId picked now rs mr word)) u
  = existsb (fun p => String.eqb (QueueEntry.userId p) u) picked.
Proof.
  cbn [newRoom RoomState.players]. rewrite has_fromEntries.
  induction picked as [|p picked IH]; simpl; [reflexivity|]. now rewrite IH.
Qed.

Lemma listsPlayer_spec w roomId userId :
  listsPlayer w roomId userId = true <->
  exists room, loadRoom w roomId = Some room /\
               Js.has (RoomState.players room) userId = true.
Proof.
  unfold listsPlayer. destruct (loadRoom w roomId) as [room|]; simpl.
  - destruct (withRoomDefaults_keeps room) as (_ & _ & -> & _).
    split; [eauto|]. intros (r & Hr & Hh). now injection Hr as ->.
  - split; [discriminate|]. intros (r & Hr & _). discriminate.
Qed.

(** After [maybeStartMatchForPost], a user whose index entry is truthy either
    had that entry before, or was just matched into a room that lists them. *)
Lemma maybeStart_index postId env w w' u rid :
  maybeStartMatchForPost postId env w = Some w' ->
  getUserRoom w' u = Some rid ->
  Js.truthy_str (Some rid) = true ->
  getUserRoom w u = Some rid \/ listsPlayer w' rid u = true.
Proof.
  intros H. apply maybeStart_cases in H as [[stored ->]|(stored & picked & E & ->)].
  { intros Hu _. left. exact Hu. }
  intros Hu Htruthy.
  set (roomId := roomIdOf (uuid env)) in *.
  unfold getUserRoom, createMatch in Hu. cbv zeta in Hu.
  rewrite (fold_left_frame userRooms) in Hu by reflexivity.
  cbn [broadcastRoomState send userRooms] in Hu.
  rewrite getUserRoom_fold_set in Hu.
  destruct (existsb _ picked) eqn:Hin; [|left; exact Hu].
  right. fold roomId in Hu. destruct (Js.truthy_str (Some roomId)); [|discriminate].
  injection Hu as <-.
  apply listsPlayer_spec. eexists. split.
  - unfold loadRoom. rewrite rooms_createMatch. apply lookup_insert_eq.
  - rewrite has_newRoom. exact Hin.
Qed.
Lemma ensureContext_userId c postId userId userName :
  ensureContext c = Ctx postId userId userName ->
  ctxPostId c = Some postId /\ ctxUserId c = Some userId /\
  Js.truthy_str (Some postId) = true /\ Js.truthy_str (Some userId) = true.
Proof.
  unfold ensureContext.
  destruct (ctxPostId c) as [p|]; [|discriminate].
  destruct (Js.truthy_str (Some p)) eqn:Hp; [|discriminate]. cbn [negb].
  destruct (ctxUserId c) as [u|]; [|discriminate].
  destruct (Js.truthy_str (Some u)) eqn:Hu; [|discriminate]. cbn [negb].
  intros H. injection H as <- <- _. auto.
Qed.

Lemma sessionFromQueue_cases userId pc w w' r :
  sessionFromQueue userId pc w = (w', r) ->
  w' = w /\ ((exists n, r = ResQueued pc n) \/ r = ResMenu pc).
Proof.
  unfold sessionFromQueue. cbv zeta.
  destruct (existsb _ _); intros H; injection H as <- <-; split; eauto.
Qed.



(** ** Round advance requests *)

Lemma Status_eqb_eq a b : Status_eqb a b = true <-> a = b.
Proof. destruct a, b; simpl; split; congruence. Qed.

Lemma advancePass_exec userId now raw v r :
  advancePass userId now raw = Txn.Exec v r ->
  exists stored,
    raw = Some stored /\
    v = Some (timedOut now (withRoomDefaults stored)) /\
    r = Resolved (timedOut now (withRoomDefaults stored)) /\
    Js.has (RoomState.players stored) userId = true /\
    RoomState.status stored = playing /\
    Js.truthy_Z (RoomState.roundResolvedAt stored) = false /\
    (Js.truthy_Q (RoomState.roundEndsAt stored) = true ->
     exists deadline, RoomState.roundEndsAt stored = Some deadline /\
                      (deadline <= inject_Z now)%Q).
Proof.
  unfold advancePass. destruct raw as [stored|]; [|discriminate]. cbn [option_map].
  destruct (withRoomDefaults_keeps stored)
    as (_ & Hst & Hpl & _ & _ & _ & _ & Hends & Hres & _).
  rewrite Hst, Hpl, Hends, Hres.
  destruct (Js.has (RoomState.players stored) userId) eqn:Hm; [|discriminate].
  cbn [negb].
  destruct (Status_eqb (RoomState.status stored) playing) eqn:Hp; [|discriminate].
  cbn [negb]. apply Status_eqb_eq in Hp.
  destruct (Js.truthy_Z (RoomState.roundResolvedAt stored)) eqn:Hr; [discriminate|].
  destruct (Js.truthy_Q (RoomState.roundEndsAt stored)) eqn:Ht;
    destruct (RoomState.roundEndsAt stored) as [e|] eqn:He;
    cbn [andb]; try discriminate.
  - destruct (Js.ltb (inject_Z now) e) eqn:Hlt; [discriminate|].
    apply ltb_ge in Hlt.
    intros H. injection H as <- <-. exists stored.
    do 6 (split; [reflexivity || assumption|]). intros _. eauto.
  - intros H. injection H as <- <-. exists stored.
    do 6 (split; [reflexivity || assumption|]). rewrite He. congruence.
  - intros H. injection H as <- <-. exists stored.
    do 6 (split; [reflexivity || assumption|]). rewrite He. congruence.
Qed.

Lemma advancePass_due userId now stored deadline :
  Js.has (RoomState.players stored) userId = true ->
  RoomState.status stored = playing ->
  Js.truthy_Z (RoomState.roundResolvedAt stored) = false ->
  RoomState.roundEndsAt stored = Some deadline ->
  (deadline <= inject_Z now)%Q ->
  advancePass userId now (Some stored)
  = Txn.Exec (Some (timedOut now (withRoomDefaults stored)))
             (Resolved (timedOut now (withRoomDefaults stored))).
Proof.
  intros Hm Hp Hr He Hd. unfold advancePass. cbn [option_map].
  destruct (withRoomDefaults_keeps stored)
    as (_ & Hst & Hpl & _ & _ & _ & _ & Hends & Hres & _).
  rewrite Hst, Hpl, Hends, Hres, Hm, Hp, Hr, He. cbn [negb Status_eqb].
  apply ltb_ge in Hd. rewrite Hd, andb_false_r. reflexivity.
Qed.

Lemma advancePass_return userId now raw r :
  advancePass userId now raw = Txn.Return r -> exists reply, r = Reply reply.
Proof.
  unfold advancePass. destruct (option_map withRoomDefaults raw); cbv zeta.
  - repeat match goal with
           | |- (if ?b then _ else _) = _ -> _ => destruct b
           end; intros H; try discriminate; injection H as <-; eauto.
  - intros H. injection H as <-. eauto.
Qed.

(** C6: on a world where every playing room has its deadline set, a
    round-advance request changes nothing, not a key and not a message,
    unless the room exists, is playing, has no resolution time and its
    deadline has passed; so an advance repeated on a resolved round changes no
    score and starts no round.  When those conditions hold and the caller is
    a member, the round is resolved and the room advances. *)
Theorem advance_noop_unless_due
    (c : Context) (roomId : string) (env : ResolveEnv) (w : World) :
  (forall room,
     loadRoom w roomId = Some room -> RoomState.status room = playing ->
     Js.truthy_Q (RoomState.roundEndsAt room) = true) ->
  ((~ exists room deadline,
        loadRoom w roomId = Some room /\
        RoomState.status room = playing /\
        Js.truthy_Z (RoomState.roundResolvedAt room) = false /\
        RoomState.roundEndsAt room = Some deadline /\
        (deadline <= inject_Z (resolveNow env))%Q) ->
   fst (apiAdvance c roomId env w) = w) /\
  (forall room,
     loadRoom w roomId = Some room ->
     Js.truthy_Z (RoomState.roundResolvedAt room) = true ->
     fst (apiAdvance c roomId env w) = w) /\
  (forall postId userId userName room deadline,
     ensureContext c = Ctx postId userId userName ->
     loadRoom w roomId = Some room ->
     Js.has (RoomState.players room) userId = true ->
     RoomState.status room = playing ->
     Js.truthy_Z (RoomState.roundResolvedAt room) = false ->
     RoomState.roundEndsAt room = Some deadline ->
     (deadline <= inject_Z (resolveNow env))%Q ->
     loadRoom (fst (apiAdvance c roomId env w)) (RoomState.roomId room)
     = Some (advancedRoom (advanceNow env) (roundSecondsOf (settings w))
               (pickWord w (advanceRandom env))
               (timedOut (resolveNow env) (withRoomDefaults room)))).
Proof.
  intros Hdeadline.
  assert (Hnoop :
    (~ exists room deadline,
        loadRoom w roomId = Some room /\
        RoomState.status room = playing /\
        Js.truthy_Z (RoomState.roundResolvedAt room) = false /\
        RoomState.roundEndsAt room = Some deadline /\
        (deadline <= inject_Z (resolveNow env))%Q) ->
    fst (apiAdvance c roomId env w) = w).
  { intros Hnot. unfold apiAdvance.
    destruct (ensureContext c) as [msg|postId userId userName]; [reflexivity|].
    destruct (loadRoom w roomId) as [stored|] eqn:Hload; [|reflexivity].
    cbn [option_map].
    destruct (negb (Js.has _ userId)); [reflexivity|].
    destruct (negb (Status_eqb _ playing)); [reflexivity|].
    unfold MAX_QUEUE_TRANSACTION_RETRIES. rewrite retry_quiet.
    destruct (advancePass userId (resolveNow env) (Some stored)) as [r|v r] eqn:Hpass.
    - apply advancePass_return in Hpass as [reply ->]. reflexivity.
    - exfalso. apply advancePass_exec in Hpass
        as (s & Hs & _ & _ & _ & Hp & Hr & He).
      injection Hs as <-.
      destruct (He (Hdeadline stored eq_refl Hp)) as (deadline & Hd & Hle).
      apply Hnot. exists stored, deadline. auto. }
  split; [exact Hnoop|]. split.
  - intros room Hload Hres. apply Hnoop.
    intros (room' & deadline & Hload' & _ & Hres' & _).
    rewrite Hload in Hload'. injection Hload' as <-. congruence.
  - intros postId userId userName room deadline Hctx Hload Hm Hp Hr He Hd.
    unfold apiAdvance. rewrite Hctx, Hload. cbn [option_map].
    destruct (withRoomDefaults_keeps room) as (Hid & Hst & Hpl & _).
    rewrite Hpl, Hm, Hst, Hp. cbn [negb Status_eqb].
    unfold MAX_QUEUE_TRANSACTION_RETRIES. rewrite retry_quiet.
    rewrite (advancePass_due userId _ room deadline Hm Hp Hr He Hd).
    cbn [fst]. unfold loadRoom. rewrite advanceOrEndRound_saves.
    cbn [timedOut RoomState.roomId RoomState.setUpdatedAt
         RoomState.setRoundResolvedAt].
    rewrite Hid. rewrite lookup_insert_eq. reflexivity.
Qed.
Lemma advance_noop_unless_due_witness :
  fst (apiAdvance (asUser "t2_b") "123e4567e8" early (duelWorld "t2_a"))
  = duelWorld "t2_a" /\
  option_map RoomState.roundNumber
    (loadRoom (fst (apiAdvance (asUser "t2_b") "123e4567e8" late
                               (duelWorld "t2_a"))) "123e4567e8")
  = Some 2.
Proof.
  assert (Hload : loadRoom (duelWorld "t2_a") "123e4567e8" = Some (duel "t2_a"))
    by reflexivity.
  assert (Hdeadline : forall room,
             loadRoom (duelWorld "t2_a") "123e4567e8" = Some room ->
             RoomState.status room = playing ->
             Js.truthy_Q (RoomState.roundEndsAt room) = true).
  { intros room Hroom _. rewrite Hload in Hroom. now injection Hroom as <-. }
  split.
  - destruct (advance_noop_unless_due (asUser "t2_b") "123e4567e8" early
                (duelWorld "t2_a") Hdeadline) as (Hnoop & _).
    apply Hnoop. intros (room & deadline & Hroom & _ & _ & Hd & Hle).
    rewrite Hload in Hroom. injection Hroom as <-.
    injection Hd as <-. apply Qle_bool_iff in Hle. discriminate.
  - destruct (advance_noop_unless_due (asUser "t2_b") "123e4567e8" late
                (duelWorld "t2_a") Hdeadline) as (_ & _ & Hdue).
    change "123e4567e8" with (RoomState.roomId (duel "t2_a")) at 2.
    rewrite (Hdue "t3_post" "t2_b" "t2_b" (duel "t2_a") 90001%Q);
      try reflexivity.
    apply Qle_bool_iff. reflexivity.
Defined.

(** ** Leaving a room *)

Lemma has_del {V} (o : Js.obj V) k : Js.has (Js.del o k) k = false.
Proof.
  unfold Js.has, Js.del. induction o as [|[k' v] o IH]; simpl; [reflexivity|].
  destruct (String.eqb_spec k k') as [->|Hne]; simpl; [exact IH|].
  destruct (String.eqb_spec k k'); [contradiction | exact IH].
Qed.

Lemma not_in_filter_neq (l : list string) u :
  ~ In u (List.filter (fun id => negb (String.eqb id u)) l).
Proof.
  intros H. apply filter_In in H as [_ H].
  now rewrite String.eqb_refl in H.
Qed.

Lemma advancedRoom_keeps now rs word room :
  RoomState.players (advancedRoom now rs word room) = RoomState.players room /\
  RoomState.order (advancedRoom now rs word room) = RoomState.order room /\
  RoomState.roomId (advancedRoom now rs word room) = RoomState.roomId room /\
  RoomState.maxRounds (advancedRoom now rs word room) = RoomState.maxRounds room.
Proof. unfold advancedRoom. destruct (lastRound room); repeat split. Qed.

Lemma userRooms_advanceOrEndRound postId room now random w :
  userRooms (advanceOrEndRound postId room now random w) = userRooms w.
Proof. unfold advanceOrEndRound. destruct (lastRound room); reflexivity. Qed.

Lemma existsb_eqb_In (l : list string) u :
  existsb (String.eqb u) l = true <-> In u l.
Proof.
  rewrite existsb_exists. split.
  - intros (x & Hx & He). apply String.eqb_eq in He. now subst.
  - intros H. exists u. split; [exact H | apply String.eqb_refl].
Qed.

(** C7: [leave] takes the caller out of the players map and of the turn order
    and deletes the caller's index entry.  When fewer than 2 members remain
    the room record and its index entry are deleted, whatever the resolution
    state, after the index entry of every remaining member was deleted.
    Otherwise the room is saved without the caller: as it is when the caller
    was not the drawer of a playing room, and else with the round forced to
    resolve and the state machine advanced. *)
Theorem leave_removes_and_tears_down
    (c : Context) (roomId : string) (env : LeaveEnv) (w : World)
    (postId userId userName : string) :
  ensureContext c = Ctx postId userId userName ->
  let w' := fst (apiLeave c roomId env w) in
  getUserRoom w' userId = None /\
  forall stored,
    loadRoom w roomId = Some stored ->
    let room := withoutPlayer userId (leaveNow env) (withRoomDefaults stored) in
    (Js.has (RoomState.players room) userId = false /\
     ~ In userId (RoomState.order room)) /\
    ((length (RoomState.order room) < 2)%nat ->
     loadRoom w' roomId = None /\
     roomIndex w' !! roomId = None /\
     forall id, In id (RoomState.order room) -> getUserRoom w' id = None) /\
    ((2 <= length (RoomState.order room))%nat ->
     (RoomState.drawerUserId stored = Some userId ->
      RoomState.status stored = playing ->
      loadRoom w' (RoomState.roomId stored)
      = Some (advancedRoom (leaveAdvanceNow env) (roundSecondsOf (settings w))
                (pickWord w (leaveRandom env))
                (RoomState.setRoundResolvedAt (Some (forcedNow env)) room))) /\
     (~ (RoomState.drawerUserId stored = Some userId /\
         RoomState.status stored = playing) ->
      loadRoom w' (RoomState.roomId stored) = Some room) /\
     (exists saved,
        loadRoom w' (RoomState.roomId stored) = Some saved /\
        RoomState.players saved = RoomState.players room /\
        RoomState.order saved = RoomState.order room)).
Proof.
  intros Hctx w'. subst w'. unfold apiLeave. rewrite Hctx.
  assert (Hself : forall w0, userRooms (setUserRoom userId None w0) !! userId = None).
  { intros w0. rewrite getUserRoom_setUserRoom. now rewrite decide_True. }
  destruct (loadRoom w roomId) as [stored|] eqn:Hload; cbn [option_map].
  2:{ split; [apply Hself | discriminate]. }
  destruct (withRoomDefaults_keeps stored)
    as (Hid & Hst & Hpl & Hord & _ & Hdr & _).
  set (room := withoutPlayer userId (leaveNow env) (withRoomDefaults stored)).
  assert (Hroomid : RoomState.roomId room = RoomState.roomId stored) by exact Hid.
  assert (Hisdrawer : isDrawer room userId = true
                      <-> RoomState.drawerUserId stored = Some userId).
  { rewrite isDrawer_iff. unfold room. cbn. now rewrite Hdr. }
  assert (Hstatus : RoomState.status room = RoomState.status stored) by exact Hst.
  cbv zeta.
  destruct (length (RoomState.order room) <? 2)%nat eqn:Hfew.
  - apply Nat.ltb_lt in Hfew. cbn [fst]. split.
    { unfold getUserRoom, deleteRoom. cbn [userRooms setRoomIndex setRooms].
      rewrite getUserRoom_fold_clear.
      destruct (existsb _ _); [reflexivity|]. cbn [send userRooms]. apply Hself. }
    intros s Hs. injection Hs as <-. fold room.
    split; [split; [apply has_del | apply not_in_filter_neq]|].
    split; [|intros; lia].
    intros _. split; [|split].
    + unfold loadRoom, deleteRoom. cbn [rooms setRoomIndex setRooms].
      apply lookup_delete_eq.
    + unfold deleteRoom. cbn [roomIndex setRoomIndex]. apply lookup_delete_eq.
    + intros id Hin. unfold getUserRoom, deleteRoom.
      cbn [userRooms setRoomIndex setRooms].
      rewrite getUserRoom_fold_clear.
      apply existsb_eqb_In in Hin. now rewrite Hin.
  - apply Nat.ltb_ge in Hfew.
    destruct (isDrawer room userId && Status_eqb (RoomState.status room) playing)
      eqn:Hforce; cbn [fst].
    + apply andb_true_iff in Hforce as [Hd Hp].
      apply Hisdrawer in Hd. apply Status_eqb_eq in Hp. rewrite Hstatus in Hp.
      split.
      { unfold getUserRoom. rewrite userRooms_advanceOrEndRound.
        cbn [send userRooms]. apply Hself. }
      intros s Hs. injection Hs as <-. fold room.
      split; [split; [apply has_del | apply not_in_filter_neq]|].
      split; [intros; lia|]. intros _.
      assert (Hsaved :
        loadRoom
          (advanceOrEndRound postId
             (RoomState.setRoundResolvedAt (Some (forcedNow env)) room)
             (leaveAdvanceNow env) (leaveRandom env)
             (send (roomChannel postId roomId) (MsgRoundEnded reason_left)
                (send (roomChannel postId roomId)
                   (MsgSystem (userName ++ " left the room."))
                   (setUserRoom userId None w))))
          (RoomState.roomId stored)
        = Some (advancedRoom (leaveAdvanceNow env) (roundSecondsOf (settings w))
                  (pickWord w (leaveRandom env))
                  (RoomState.setRoundResolvedAt (Some (forcedNow env)) room))).
      { unfold loadRoom. rewrite advanceOrEndRound_saves.
        cbn [RoomState.roomId RoomState.setRoundResolvedAt].
        rewrite Hroomid. rewrite lookup_insert_eq. reflexivity. }
      split; [intros _ _; exact Hsaved|]. split; [intros Hn; tauto|].
      eexists. split; [exact Hsaved|].
      destruct (advancedRoom_keeps (leaveAdvanceNow env)
                  (roundSecondsOf (settings w)) (pickWord w (leaveRandom env))
                  (RoomState.setRoundResolvedAt (Some (forcedNow env)) room))
        as (-> & -> & _). split; reflexivity.
    + split.
      { unfold getUserRoom. cbn [broadcastRoomState saveRoom send userRooms
                                   setRoomIndex setRooms]. apply Hself. }
      intros s Hs. injection Hs as <-. fold room.
      split; [split; [apply has_del | apply not_in_filter_neq]|].
      split; [intros; lia|]. intros _.
      assert (Hsaved :
        loadRoom
          (broadcastRoomState postId room
             (saveRoom room
                (send (roomChannel postId roomId)
                   (MsgSystem (userName ++ " left the room."))
                   (setUserRoom userId None w))))
          (RoomState.roomId stored) = Some room).
      { unfold loadRoom. cbn [broadcastRoomState saveRoom send rooms
                                setRoomIndex setRooms].
        rewrite Hroomid. apply lookup_insert_eq. }
      split.
      { intros Hd Hp. exfalso.
        apply andb_false_iff in Hforce as [Hf|Hf].
        - apply Hisdrawer in Hd. congruence.
        - rewrite Hstatus, Hp in Hf. discriminate. }
      split; [intros _; exact Hsaved|].
      exists room. split; [exact Hsaved|]. split; reflexivity.
Qed.
Lemma leave_removes_and_tears_down_witness :
  let w' := fst (apiLeave (asUser "t2_b") "123e4567e8" leaving
                          (duelIndexed "t2_a")) in
  getUserRoom (duelIndexed "t2_a") "t2_a" = Some "123e4567e8" /\
  getUserRoom w' "t2_b" = None /\
  getUserRoom w' "t2_a" = None /\
  loadRoom w' "123e4567e8" = None.
Proof.
  intros w'.
  destruct (leave_removes_and_tears_down (asUser "t2_b") "123e4567e8" leaving
              (duelIndexed "t2_a") "t3_post" "t2_b" "t2_b" eq_refl)
    as [Hself Hroom].
  destruct (Hroom (duel "t2_a") eq_refl) as (_ & Hdown & _).
  destruct Hdown as (Hgone & _ & Hothers); [vm_compute; lia|].
  split; [reflexivity|]. split; [exact Hself|]. split; [|exact Hgone].
  apply Hothers. left. reflexivity.
Defined.

(** ** Resolution of a round *)

Lemma get_adjust {V} (o : Js.obj V) k f u :
  Js.get (Js.adjust o k f) u
  = if String.eqb u k then option_map f (Js.get o k) else Js.get o u.
Proof.
  induction o as [|[k' v] o IH]; simpl.
  - now destruct (String.eqb u k).
  - destruct (String.eqb_spec k k') as [->|Hne]; simpl.
    + destruct (String.eqb_spec u k'); reflexivity.
    + destruct (String.eqb_spec u k') as [->|Hne'].
      * destruct (String.eqb_spec k' k); [congruence | reflexivity].
      * exact IH.
Qed.

Lemma has_adjust {V} (o : Js.obj V) k f u :
  Js.has (Js.adjust o k f) u = Js.has o u.
Proof.
  unfold Js.has. rewrite get_adjust.
  destruct (String.eqb_spec u k) as [->|]; [|reflexivity].
  now destruct (Js.get o k).
Qed.

(** The players of a room after [awardGuess]. *)
Lemma awardGuess_players userId now room :
  RoomState.players (awardGuess userId now room)
  = match RoomState.drawerUserId room with
    | Some drawer =>
        if Js.truthy_str (Some drawer) && Js.has (RoomState.players room) drawer
        then Js.adjust (Js.adjust (RoomState.players room) userId
                                  (Player.addScore 10))
                       drawer (Player.addScore 3)
        else Js.adjust (RoomState.players room) userId (Player.addScore 10)
    | None => Js.adjust (RoomState.players room) userId (Player.addScore 10)
    end.
Proof.
  unfold awardGuess. cbn.
  destruct (RoomState.drawerUserId room) as [d|]; [|reflexivity].
  rewrite has_adjust.
  destruct (negb (d =? "")%string && Js.has (RoomState.players room) d); reflexivity.
Qed.

Lemma awardGuess_fields userId now room :
  let room' := awardGuess userId now room in
  RoomState.roundResolvedAt room' = Some now /\
  RoomState.guessedCorrectUserIds room'
  = (RoomState.guessedCorrectUserIds room ++ [userId])%list /\
  RoomState.status room' = RoomState.status room /\
  RoomState.roundNumber room' = RoomState.roundNumber room /\
  RoomState.roomId room' = RoomState.roomId room /\
  RoomState.drawerUserId room' = RoomState.drawerUserId room.
Proof.
  unfold awardGuess. cbn.
  destruct (RoomState.drawerUserId room) as [d|] eqn:Hd; [|now rewrite ?Hd].
  destruct (_ && _); cbn; now rewrite ?Hd.
Qed.

Lemma guessPass_exec userId now raw v r :
  guessPass userId now raw = Txn.Exec v r ->
  exists stored,
    raw = Some stored /\
    v = Some (awardGuess userId now (withRoomDefaults stored)) /\
    r = Resolved (awardGuess userId now (withRoomDefaults stored)) /\
    Js.has (RoomState.players stored) userId = true /\
    isDrawer stored userId = false /\
    RoomState.status stored = playing /\
    Js.truthy_Z (RoomState.roundResolvedAt stored) = false /\
    Js.includes (RoomState.guessedCorrectUserIds stored) userId = false.
Proof.
  unfold guessPass. destruct raw as [stored|]; [|discriminate]. cbn [option_map].
  destruct (withRoomDefaults_keeps stored)
    as (_ & Hst & Hpl & _ & _ & Hdr & _ & _ & Hres & Hg).
  unfold isDrawer. rewrite Hst, Hpl, Hdr, Hres, Hg.
  destruct (Js.has (RoomState.players stored) userId) eqn:Hm; [|discriminate].
  cbn [negb].
  match goal with |- (if ?b then _ else _) = _ -> _ => destruct b eqn:Hd end;
    [discriminate|].
  destruct (Status_eqb (RoomState.status stored) playing) eqn:Hp; [|discriminate].
  cbn [negb]. apply Status_eqb_eq in Hp.
  destruct (Js.truthy_Z (RoomState.roundResolvedAt stored)) eqn:Hr; [discriminate|].
  destruct (Js.includes (RoomState.guessedCorrectUserIds stored) userId) eqn:Hi;
    [discriminate|].
  intros H. injection H as <- <-. exists stored.
  repeat (split; [reflexivity || assumption|]). exact Hi.
Qed.

Lemma guessPass_open userId now stored :
  Js.has (RoomState.players stored) userId = true ->
  isDrawer stored userId = false ->
  RoomState.status stored = playing ->
  Js.truthy_Z (RoomState.roundResolvedAt stored) = false ->
  Js.includes (RoomState.guessedCorrectUserIds stored) userId = false ->
  guessPass userId now (Some stored)
  = Txn.Exec (Some (awardGuess userId now (withRoomDefaults stored)))
             (Resolved (awardGuess userId now (withRoomDefaults stored))).
Proof.
  intros Hm Hd Hp Hr Hi. unfold guessPass. cbn [option_map].
  destruct (withRoomDefaults_keeps stored)
    as (_ & Hst & Hpl & _ & _ & Hdr & _ & _ & Hres & Hg).
  unfold isDrawer in *. rewrite Hst, Hpl, Hdr, Hres, Hg, Hm, Hd, Hp, Hr, Hi.
  reflexivity.
Qed.


Section RaceInvariant.
Import Race.








End RaceInvariant.



Lemma scoreOf_defaults room u : scoreOf (withRoomDefaults room) u = scoreOf room u.
Proof.
  unfold scoreOf. destruct (withRoomDefaults_keeps room) as (_ & _ & -> & _).
  reflexivity.
Qed.

(** The loser of the race re-reads the room on its retry but not the word:
    when the winner has already started the next round, the retry resolves
    that round.  Each round is still resolved once, by a different request. *)
Example stale_retry_resolves_next_round :
  Race.resolutions (Race.run staleRetry twoGuessers) = [(1%nat, 2); (0%nat, 1)] /\
  option_map (fun room => (scoreOf room "t2_a", scoreOf room "t2_b",
                           scoreOf room "t2_c", RoomState.roundNumber room,
                           RoomState.word room))
             (Race.value (Race.run staleRetry twoGuessers))
  = Some (Some 13, Some 10, Some 3, 3, Some "river").
Proof. split; reflexivity. Qed.

(** ** Round numbers along the requests *)

Lemma guessPass_return userId now raw r :
  guessPass userId now raw = Txn.Return r -> exists reply, r = Reply reply.
Proof.
  unfold guessPass. destruct (option_map withRoomDefaults raw); cbv zeta.
  - repeat match goal with
           | |- (if ?b then _ else _) = _ -> _ => destruct b
           end; intros H; try discriminate; injection H as <-; eauto.
  - intros H. injection H as <-. eauto.
Qed.

Lemma apiGuess_rooms c roomId bodyText env w :
  rooms (fst (apiGuess c roomId bodyText env w)) = rooms w \/
  exists userId stored,
    loadRoom w roomId = Some stored /\
    RoomState.status stored = playing /\
    rooms (fst (apiGuess c roomId bodyText env w))
    = <[safe (RoomState.roomId stored) :=
          advancedRoom (advanceNow env) (roundSecondsOf (settings w))
            (pickWord w (advanceRandom env))
            (awardGuess userId (resolveNow env) (withRoomDefaults stored))]>
        (<[safe roomId :=
             awardGuess userId (resolveNow env) (withRoomDefaults stored)]>
           (rooms w)).
Proof.
  unfold apiGuess.
  destruct (ensureContext c) as [msg|postId userId userName]; [now left|].
  destruct (loadRoom w roomId) as [stored|] eqn:Hload; [|now left].
  cbn [option_map].
  repeat match goal with
         | |- context [if ?b then _ else _] =>
             lazymatch b with
             | negb (isCorrect _ _) => fail
             | _ => destruct b; [now left|]
             end
         end.
  cbv zeta.
  destruct (negb (isCorrect _ _)); [now left|].
  unfold MAX_QUEUE_TRANSACTION_RETRIES. rewrite retry_quiet.
  change (loadRoom (send _ _ w) roomId) with (loadRoom w roomId). rewrite Hload.
  destruct (guessPass userId (resolveNow env) (Some stored)) as [r|v r] eqn:Hpass.
  - apply guessPass_return in Hpass as [reply ->]. now left.
  - apply guessPass_exec in Hpass
      as (s & Hs & -> & -> & _ & _ & Hp & _). injection Hs as <-.
    right. exists userId, stored. split; [reflexivity|]. split; [exact Hp|].
    cbn [fst]. rewrite advanceOrEndRound_saves.
    destruct (awardGuess_fields userId (resolveNow env) (withRoomDefaults stored))
      as (_ & _ & _ & _ & Hid & _).
    destruct (withRoomDefaults_keeps stored) as (Hid' & _).
    rewrite Hid, Hid'. reflexivity.
Qed.

Lemma apiAdvance_rooms c roomId env w :
  rooms (fst (apiAdvance c roomId env w)) = rooms w \/
  exists stored,
    loadRoom w roomId = Some stored /\
    RoomState.status stored = playing /\
    rooms (fst (apiAdvance c roomId env w))
    = <[safe (RoomState.roomId stored) :=
          advancedRoom (advanceNow env) (roundSecondsOf (settings w))
            (pickWord w (advanceRandom env))
            (timedOut (resolveNow env) (withRoomDefaults stored))]>
        (<[safe roomId := timedOut (resolveNow env) (withRoomDefaults stored)]>
           (rooms w)).
Proof.
  unfold apiAdvance.
  destruct (ensureContext c) as [msg|postId userId userName]; [now left|].
  destruct (loadRoom w roomId) as [stored|] eqn:Hload; [|now left].
  cbn [option_map].
  destruct (negb (Js.has _ userId)); [now left|].
  destruct (negb (Status_eqb _ playing)); [now left|].
  unfold MAX_QUEUE_TRANSACTION_RETRIES. rewrite retry_quiet.
  destruct (advancePass userId (resolveNow env) (Some stored)) as [r|v r] eqn:Hpass.
  - apply advancePass_return in Hpass as [reply ->]. now left.
  - apply advancePass_exec in Hpass
      as (s & Hs & -> & -> & _ & Hp & _). injection Hs as <-.
    right. exists stored. split; [reflexivity|]. split; [exact Hp|].
    cbn [fst]. rewrite advanceOrEndRound_saves.
    destruct (withRoomDefaults_keeps stored) as (Hid' & _).
    cbn [timedOut RoomState.roomId RoomState.setUpdatedAt
         RoomState.setRoundResolvedAt].
    rewrite Hid'. reflexivity.
Qed.

Lemma apiLeave_rooms c roomId env w :
  rooms (fst (apiLeave c roomId env w)) = rooms w \/
  exists userId stored,
    loadRoom w roomId = Some stored /\
    let room := withoutPlayer userId (leaveNow env) (withRoomDefaults stored) in
    (rooms (fst (apiLeave c roomId env w)) = delete (safe roomId) (rooms w) \/
     (RoomState.status stored = playing /\
      rooms (fst (apiLeave c roomId env w))
      = <[safe (RoomState.roomId stored) :=
            advancedRoom (leaveAdvanceNow env) (roundSecondsOf (settings w))
              (pickWord w (leaveRandom env))
              (RoomState.setRoundResolvedAt (Some (forcedNow env)) room)]>
          (rooms w)) \/
     rooms (fst (apiLeave c roomId env w))
     = <[safe (RoomState.roomId stored) := room]> (rooms w)).
Proof.
  unfold apiLeave.
  destruct (ensureContext c) as [msg|postId userId userName]; [now left|].
  destruct (loadRoom w roomId) as [stored|] eqn:Hload; [|now left].
  cbn [option_map]. right. exists userId, stored. split; [reflexivity|].
  cbv zeta.
  destruct (withRoomDefaults_keeps stored) as (Hid & Hst & _).
  destruct (length _ <? 2)%nat.
  - left. cbn [fst]. unfold deleteRoom. cbn [rooms setRoomIndex setRooms].
    rewrite (fold_left_frame rooms) by reflexivity. reflexivity.
  - destruct (isDrawer _ userId && Status_eqb _ playing) eqn:Hforce; cbn [fst].
    + right. left. apply andb_true_iff in Hforce as [_ Hp].
      apply Status_eqb_eq in Hp.
      split; [now rewrite <- Hst|].
      rewrite advanceOrEndRound_saves.
      cbn [withoutPlayer RoomState.roomId RoomState.setRoundResolvedAt
           RoomState.setUpdatedAt RoomState.setOrder RoomState.setPlayers].
      rewrite Hid. reflexivity.
    + right. right.
      cbn [broadcastRoomState saveRoom send rooms setRoomIndex setRooms
           withoutPlayer RoomState.roomId RoomState.setUpdatedAt
           RoomState.setOrder RoomState.setPlayers].
      rewrite Hid. reflexivity.
Qed.

Lemma apiPing_rooms c now w :
  rooms (fst (apiPing c now w)) = rooms w \/
  exists userId roomId stored,
    loadRoom w roomId = Some stored /\
    rooms (fst (apiPing c now w))
    = <[safe (RoomState.roomId stored) :=
          RoomState.setUpdatedAt now
            (RoomState.setPlayers
               (Js.adjust (RoomState.players (withRoomDefaults stored)) userId
                          (Player.setLastSeen now))
               (withRoomDefaults stored))]> (rooms w).
Proof.
  unfold apiPing.
  destruct (ensureContext c) as [msg|postId userId userName]; [now left|].
  destruct (getUserRoom w userId) as [roomId|]; [|now left].
  destruct (Js.truthy_str (Some roomId)); [|now left].
  destruct (loadRoom w roomId) as [stored|] eqn:Hload; [|now left].
  cbn [option_map].
  destruct (Js.has _ userId); [|now left].
  right. exists userId, roomId, stored. split; [exact Hload|].
  cbn [fst saveRoom rooms setRoomIndex setRooms RoomState.roomId
       RoomState.setUpdatedAt RoomState.setPlayers].
  destruct (withRoomDefaults_keeps stored) as (Hid & _). rewrite Hid. reflexivity.
Qed.

Lemma apiSession_rooms c w : rooms (fst (apiSession c w)) = rooms w.
Proof.
  destruct (apiSession c w) as [w' r] eqn:E. cbn [fst]. revert E.
  unfold apiSession.
  repeat match goal with
         | |- context [match ?x with _ => _ end] =>
             lazymatch x with
             | sessionFromQueue _ _ _ => fail
             | _ => destruct x
             end
         end;
    try (intros H; injection H as <- <-; reflexivity);
    intros H; apply sessionFromQueue_cases in H as [-> _]; reflexivity.
Qed.

Lemma apiMatchmakingLeave_rooms c w :
  rooms (fst (apiMatchmakingLeave c w)) = rooms w.
Proof. unfold apiMatchmakingLeave. destruct (ensureContext c); reflexivity. Qed.

Lemma apiRoomState_world c roomId w : fst (apiRoomState c roomId w) = w.
Proof.
  unfold apiRoomState. destruct (ensureContext c); [reflexivity|].
  destruct (option_map _ _); [|reflexivity]. now destruct (negb _).
Qed.
Lemma truthy_Q_pos q : (0 < q)%Q -> Js.truthy_Q (Some q) = true.
Proof.
  intros H. simpl. apply negb_true_iff.
  destruct (Qeq_bool q 0) eqn:E; [|reflexivity].
  apply Qeq_bool_iff in E. lra.
Qed.

Lemma deadline_truthy now rs :
  0 <= now -> (20 <= rs)%Q ->
  Js.truthy_Q (Some (inject_Z now + rs * 1000)%Q) = true.
Proof.
  intros Hnow Hrs. apply truthy_Q_pos.
  assert (H0 : (0 <= inject_Z now)%Q).
  { change 0%Q with (inject_Z 0). now rewrite <- Zle_Qle. }
  nra.
Qed.

Lemma roundSecondsOf_min st : (20 <= roundSecondsOf st)%Q.
Proof. apply Q.le_max_l. Qed.

Lemma whole_inject z : (inject_Z (Qfloor (inject_Z z)) == inject_Z z)%Q.
Proof. now rewrite Qfloor_Z. Qed.

Lemma maxRounds_setting_ok st :
  roundsSettingAccepted st ->
  let m := Qmax 1 (getSubredditSettingNumber st "roundsPerGame" 3) in
  (1 <= m)%Q /\ (inject_Z (Qfloor m) == m)%Q.
Proof.
  intros Hacc. cbv zeta. split; [apply Q.le_max_l|].
  assert (Hwhole : (inject_Z (Qfloor (getSubredditSettingNumber st "roundsPerGame" 3))
                    == getSubredditSettingNumber st "roundsPerGame" 3)%Q).
  { unfold getSubredditSettingNumber, roundsSettingAccepted,
           validateRoundsPerGame, asNumber in *.
    destruct (st "roundsPerGame") as [n|n]; destruct n as [q| | |];
      try reflexivity; destruct Hacc as [Hf|Hv]; try discriminate;
      (destruct (negb (isInteger q)) eqn:Hi; [discriminate|];
       apply negb_false_iff in Hi; unfold isInteger in Hi;
       now apply Qeq_bool_iff in Hi). }
  destruct (Q.max_spec 1 (getSubredditSettingNumber st "roundsPerGame" 3))
    as [[_ He]|[_ He]].
  - rewrite (Qfloor_comp _ _ He).
    eapply Qeq_trans; [exact Hwhole | symmetry; exact He].
  - rewrite (Qfloor_comp _ _ He).
    eapply Qeq_trans; [|symmetry; exact He]. reflexivity.
Qed.

Lemma newRoom_ok roomId picked now rs mr word :
  (1 <= mr)%Q -> (inject_Z (Qfloor mr) == mr)%Q ->
  0 <= now -> (20 <= rs)%Q ->
  RoomOk (safe roomId) (newRoom roomId picked now rs mr word).
Proof.
  intros Hmr Hwhole Hnow Hrs. constructor; cbn [newRoom RoomState.roomId
    RoomState.maxRounds RoomState.status RoomState.roundNumber
    RoomState.roundEndsAt]; auto.
  intros _. now apply deadline_truthy.
Qed.

Lemma withRoomDefaults_ok key room :
  RoomOk key room -> withRoomDefaults room = room.
Proof.
  intros [_ Hmax _ _ _]. unfold withRoomDefaults.
  apply ltb_ge in Hmax. now rewrite Hmax.
Qed.

Lemma RoomOk_touched key room mid :
  RoomOk key room -> touched room mid -> RoomOk key mid.
Proof.
  intros [Hk Hmax Hw Hr Hd] (Hid & Hm & Hrn & Hst & He).
  constructor; rewrite ?Hid, ?Hm, ?Hrn, ?Hst, ?He; auto.
Qed.

Lemma whole_succ_le (n : Z) (m : Q) :
  (inject_Z (Qfloor m) == m)%Q -> (inject_Z n < m)%Q -> (inject_Z (n + 1) <= m)%Q.
Proof.
  intros Hw Hlt. rewrite <- Hw in *. rewrite <- Zlt_Qlt in Hlt.
  rewrite <- Zle_Qle. lia.
Qed.

Lemma RoomOk_advanced key mid now rs word :
  RoomOk key mid -> RoomState.status mid = playing ->
  0 <= now -> (20 <= rs)%Q ->
  RoomOk key (advancedRoom now rs word mid).
Proof.
  intros [Hk Hmax Hw Hr Hd] Hp Hnow Hrs. unfold advancedRoom.
  destruct (lastRound mid) eqn:Hlast.
  - constructor; cbn; auto; discriminate.
  - apply lastRound_not in Hlast.
    constructor; cbn [startRound RoomState.roomId RoomState.maxRounds
      RoomState.status RoomState.roundNumber RoomState.roundEndsAt
      RoomState.setRoundNumber RoomState.setDrawerUserId RoomState.setWord
      RoomState.setRoundEndsAt RoomState.setRoundResolvedAt
      RoomState.setGuessedCorrectUserIds RoomState.setUpdatedAt]; auto.
    + intros _. now apply whole_succ_le.
    + intros _. now apply deadline_truthy.
Qed.

Lemma RoomOk_step key room room' :
  RoomOk key room -> roomStep room room' -> RoomOk key room'.
Proof.
  intros Hok (mid & Ht & [->|(Hp & now & rs & word & Hnow & Hrs & ->)]).
  - eapply RoomOk_touched; eassumption.
  - apply RoomOk_advanced; auto. eapply RoomOk_touched; eassumption.
Qed.

Lemma roomsChange_ok m m' :
  (forall key room, m !! key = Some room -> RoomOk key room) ->
  roomsChange m m' ->
  forall key room, m' !! key = Some room -> RoomOk key room.
Proof.
  intros Hok [->|k r Hfresh -> Hr|Hdrop|k r r' Hk -> Hstep] key room Hl.
  - eauto.
  - destruct (decide (k = key)) as [->|Hne].
    + rewrite lookup_insert_eq in Hl. now injection Hl as <-.
    + rewrite lookup_insert_ne in Hl by exact Hne. eauto.
  - destruct (Hdrop key) as [Hsame|Hnone]; [|congruence].
    rewrite Hsame in Hl. eauto.
  - destruct (decide (k = key)) as [->|Hne].
    + rewrite lookup_insert_eq in Hl. injection Hl as <-.
      eapply RoomOk_step; eauto.
    + rewrite lookup_insert_ne in Hl by exact Hne. eauto.
Qed.
Lemma joinQueue_rooms postId userId userName env w :
  rooms (fst (joinQueue postId userId userName env w)) = rooms w \/
  exists picked word,
    rooms (fst (joinQueue postId userId userName env w))
    = <[safe (roomIdOf (uuid (startEnv env))) :=
          newRoom (roomIdOf (uuid (startEnv env))) picked
                  (createNow (startEnv env)) (roundSecondsOf (settings w))
                  (Qmax 1 (getSubredditSettingNumber (settings w)
                                                     "roundsPerGame" 3))
                  word]> (rooms w).
Proof.
  unfold joinQueue. cbv zeta.
  set (w2 := setQueue _ (trackPost postId w)).
  assert (Hr : rooms w2 = rooms w).
  { unfold w2, trackPost. destruct (Js.includes _ _); reflexivity. }
  assert (Hs : settings w2 = settings w).
  { unfold w2, trackPost. destruct (Js.includes _ _); reflexivity. }
  destruct (maybeStartMatchForPost postId (startEnv env) w2) as [w3|] eqn:Hstart.
  2:{ left. exact Hr. }
  assert (Hw3 : rooms (fst (match getUserRoom w3 userId with
                            | Some updatedRoomId =>
                                if Js.truthy_str (Some updatedRoomId)
                                then (w3, ResMatched updatedRoomId
                                            (roomChannel postId updatedRoomId)
                                            (userChannel postId userId))
                                else (w3, ResQueued (userChannel postId userId)
                                            (length (loadQueue w3)))
                            | None => (w3, ResQueued (userChannel postId userId)
                                             (length (loadQueue w3)))
                            end)) = rooms w3).
  { destruct (getUserRoom w3 userId); [destruct (Js.truthy_str _)|]; reflexivity. }
  rewrite Hw3. clear Hw3.
  apply maybeStart_rooms in Hstart as [Hsame|(stored & picked & _ & Hnew)].
  - left. now rewrite Hsame.
  - right. exists picked. eexists. rewrite Hnew, Hr, Hs. reflexivity.
Qed.

Lemma apiMatchmakingJoin_rooms c env w :
  rooms (fst (apiMatchmakingJoin c env w)) = rooms w \/
  exists picked word,
    rooms (fst (apiMatchmakingJoin c env w))
    = <[safe (roomIdOf (uuid (startEnv env))) :=
          newRoom (roomIdOf (uuid (startEnv env))) picked
                  (createNow (startEnv env)) (roundSecondsOf (settings w))
                  (Qmax 1 (getSubredditSettingNumber (settings w)
                                                     "roundsPerGame" 3))
                  word]> (rooms w).
Proof.
  unfold apiMatchmakingJoin.
  destruct (ensureContext c) as [msg|postId userId userName]; [now left|].
  destruct (getUserRoom w userId) as [existing|];
    [destruct (Js.truthy_str (Some existing));
     [destruct (listsPlayer w existing userId); [now left|]|]|].
  - apply (joinQueue_rooms postId userId userName env (setUserRoom userId None w)).
  - apply joinQueue_rooms.
  - apply joinQueue_rooms.
Qed.

Lemma awardGuess_touched userId now room : touched room (awardGuess userId now room).
Proof.
  unfold touched, awardGuess. cbn.
  destruct (RoomState.drawerUserId room) as [d|] eqn:Hd; rewrite ?Hd;
    [destruct (_ && _)|]; cbn; repeat split.
Qed.

Lemma timedOut_touched now room : touched room (timedOut now room).
Proof. repeat split. Qed.

Lemma withoutPlayer_touched userId now room :
  touched room (withoutPlayer userId now room).
Proof. repeat split. Qed.

Lemma dropped_refl m : dropped m m.
Proof. intros key. now left. Qed.

Lemma dropped_trans m1 m2 m3 : dropped m1 m2 -> dropped m2 m3 -> dropped m1 m3.
Proof.
  intros H12 H23 key. destruct (H23 key) as [H|H]; [|now right].
  rewrite H. apply H12.
Qed.

Lemma dropped_delete k (m : gmap string RoomState.t) : dropped m (delete k m).
Proof.
  intros key. destruct (decide (k = key)) as [->|Hne].
  - right. apply lookup_delete_eq.
  - left. now apply lookup_delete_ne.
Qed.

Lemma dropped_fold_delete (f : string -> string) ids (m : gmap string RoomState.t) :
  dropped m (fold_left (fun m id => delete (f id) m) ids m).
Proof.
  revert m. induction ids as [|id ids IH]; intros m; cbn [fold_left].
  - apply dropped_refl.
  - eapply dropped_trans; [apply dropped_delete | apply IH].
Qed.

Lemma rooms_gcRoom now w roomId :
  dropped (rooms w) (rooms (gcRoom now w roomId)).
Proof.
  unfold gcRoom. destruct (option_map _ _) as [room|]; [|apply dropped_refl].
  cbv zeta. destruct (negb _); [apply dropped_refl|].
  unfold deleteRoom. cbn [rooms setRoomIndex setRooms].
  rewrite (fold_left_frame rooms) by reflexivity. apply dropped_delete.
Qed.

Lemma rooms_cronRoomGc postId now w :
  dropped (rooms w) (rooms (fst (cronRoomGc postId now w))).
Proof.
  unfold cronRoomGc. destruct (negb _); cbn [fst]; [apply dropped_refl|].
  generalize (indexedRoomIds w) as ids. intros ids. revert w.
  induction ids as [|id ids IH]; intros w; cbn [fold_left].
  - apply dropped_refl.
  - eapply dropped_trans; [apply rooms_gcRoom | apply IH].
Qed.

Lemma rooms_resetLobby w : dropped (rooms w) (rooms (fst (resetLobby w))).
Proof. unfold resetLobby. cbn [fst rooms]. apply dropped_fold_delete. Qed.

Lemma rooms_trackPost postId w : rooms (trackPost postId w) = rooms w.
Proof. unfold trackPost. destruct (Js.includes _ _); reflexivity. Qed.

Lemma rooms_cronMmSweep postId now env w :
  rooms (fst (cronMmSweep postId now env w)) = rooms w \/
  exists picked word,
    rooms (fst (cronMmSweep postId now env w))
    = <[safe (roomIdOf (uuid env)) :=
          newRoom (roomIdOf (uuid env)) picked (createNow env)
                  (roundSecondsOf (settings w))
                  (Qmax 1 (getSubredditSettingNumber (settings w)
                                                     "roundsPerGame" 3))
                  word]> (rooms w).
Proof.
  unfold cronMmSweep. destruct (negb _); [now left|]. cbv zeta.
  set (w2 := setQueue _ w).
  destruct (maybeStartMatchForPost postId env w2) as [w3|] eqn:Hstart;
    [|now left].
  apply maybeStart_rooms in Hstart as [H|(stored & picked & _ & H)].
  - left. exact H.
  - right. exists picked. eexists. exact H.
Qed.

Lemma handle_change c req w :
  WorldOk w -> roundsSettingAccepted (settings w) -> admissible w req ->
  roomsChange (rooms w) (rooms (fst (handle c req w))).
Proof.
  intros Hok Hacc Hadm.
  destruct req as [|env| |now|roomId|roomId text env|roomId env|roomId env
                  | | | |postId now env|postId now|fetched];
    cbn [handle admissible] in *.
  - apply change_none. apply apiSession_rooms.
  - destruct Hadm as [Hfresh Hnow].
    destruct (apiMatchmakingJoin_rooms c env w) as [H|(picked & word & H)].
    + now apply change_none.
    + eapply change_create; [exact Hfresh | exact H |].
      destruct (maxRounds_setting_ok _ Hacc) as [Hm Hw].
      apply newRoom_ok; auto. apply roundSecondsOf_min.
  - apply change_none. apply apiMatchmakingLeave_rooms.
  - destruct (apiPing_rooms c now w) as [H|(userId & roomId & stored & Hload & H)].
    + now apply change_none.
    + pose proof (Hok _ _ Hload) as Hroom.
      rewrite (withRoomDefaults_ok _ _ Hroom) in H.
      rewrite <- (ok_key _ _ Hroom) in H.
      eapply change_step; [exact Hload | exact H |].
      eexists. split; [|left; reflexivity]. repeat split.
  - apply change_none. now rewrite apiRoomState_world.
  - destruct (apiGuess_rooms c roomId text env w)
      as [H|(userId & stored & Hload & Hp & H)].
    + now apply change_none.
    + pose proof (Hok _ _ Hload) as Hroom.
      rewrite (withRoomDefaults_ok _ _ Hroom) in H.
      rewrite <- (ok_key _ _ Hroom), insert_insert_eq in H.
      eapply change_step; [exact Hload | exact H |].
      exists (awardGuess userId (resolveNow env) stored).
      split; [apply awardGuess_touched|]. right.
      split; [destruct (awardGuess_fields userId (resolveNow env) stored)
                as (_ & _ & -> & _); exact Hp|].
      eexists _, _, _. split; [exact Hadm|]. split; [apply roundSecondsOf_min|].
      reflexivity.
  - destruct (apiAdvance_rooms c roomId env w) as [H|(stored & Hload & Hp & H)].
    + now apply change_none.
    + pose proof (Hok _ _ Hload) as Hroom.
      rewrite (withRoomDefaults_ok _ _ Hroom) in H.
      rewrite <- (ok_key _ _ Hroom), insert_insert_eq in H.
      eapply change_step; [exact Hload | exact H |].
      exists (timedOut (resolveNow env) stored).
      split; [apply timedOut_touched|]. right. split; [exact Hp|].
      eexists _, _, _. split; [exact Hadm|]. split; [apply roundSecondsOf_min|].
      reflexivity.
  - destruct (apiLeave_rooms c roomId env w) as [H|(userId & stored & Hload & H)].
    + now apply change_none.
    + pose proof (Hok _ _ Hload) as Hroom. cbv zeta in H.
      rewrite (withRoomDefaults_ok _ _ Hroom) in H.
      rewrite <- (ok_key _ _ Hroom) in H.
      destruct H as [H|[[Hp H]|H]].
      * apply change_drop. rewrite H. apply dropped_delete.
      * eapply change_step; [exact Hload | exact H |].
        exists (RoomState.setRoundResolvedAt (Some (forcedNow env))
                  (withoutPlayer userId (leaveNow env) stored)).
        split; [repeat split|]. right. split; [exact Hp|].
        eexists _, _, _. split; [exact Hadm|]. split; [apply roundSecondsOf_min|].
        reflexivity.
      * eapply change_step; [exact Hload | exact H |].
        eexists. split; [apply withoutPlayer_touched|]. left. reflexivity.
  - apply change_none. unfold triggerPostCreate.
    destruct (ctxPostId c) as [postId|]; [destruct (Js.truthy_str _)|];
      cbn [fst]; [apply rooms_trackPost | reflexivity | reflexivity].
  - unfold triggerPostDelete.
    destruct (ctxPostId c) as [postId|]; [destruct (Js.truthy_str _)|];
      cbn [fst]; [|now apply change_none|now apply change_none].
    apply change_drop. apply rooms_resetLobby.
  - unfold menuResetLobby.
    destruct (ensureContext c) as [msg|postId userId userName]; cbn [fst];
      [now apply change_none|].
    apply change_drop. apply rooms_resetLobby.
  - destruct Hadm as [Hfresh Hnow].
    destruct (rooms_cronMmSweep postId now env w) as [H|(picked & word & H)].
    + now apply change_none.
    + eapply change_create; [exact Hfresh | exact H |].
      destruct (maxRounds_setting_ok _ Hacc) as [Hm Hw].
      apply newRoom_ok; auto. apply roundSecondsOf_min.
  - apply change_drop. apply rooms_cronRoomGc.
  - apply change_none. unfold cronDailyRotateWords.
    destruct fetched as [lines|]; [|reflexivity].
    cbv zeta. destruct (firstn _ _); reflexivity.
Qed.
Lemma settings_advanceOrEndRound postId room now random w :
  settings (advanceOrEndRound postId room now random w) = settings w.
Proof. unfold advanceOrEndRound. destruct (lastRound room); reflexivity. Qed.

Lemma settings_createMatch postId env picked w :
  settings (createMatch postId env picked w) = settings w.
Proof.
  unfold createMatch. cbv zeta.
  rewrite (fold_left_frame settings) by reflexivity.
  cbn [broadcastRoomState send settings].
  rewrite (fold_left_frame settings) by reflexivity. reflexivity.
Qed.

Lemma settings_joinQueue postId userId userName env w :
  settings (fst (joinQueue postId userId userName env w)) = settings w.
Proof.
  unfold joinQueue. cbv zeta.
  set (w2 := setQueue _ (trackPost postId w)).
  assert (Hs : settings w2 = settings w).
  { unfold w2, trackPost. destruct (Js.includes _ _); reflexivity. }
  destruct (maybeStartMatchForPost postId (startEnv env) w2) as [w3|] eqn:Hstart;
    [|exact Hs].
  assert (H3 : settings w3 = settings w).
  { apply maybeStart_cases in Hstart as [[stored ->]|(stored & picked & _ & ->)].
    - exact Hs.
    - rewrite settings_createMatch. exact Hs. }
  destruct (getUserRoom w3 userId); [destruct (Js.truthy_str _)|]; exact H3.
Qed.

Lemma handle_settings c req w : settings (fst (handle c req w)) = settings w.
Proof.
  destruct req as [|env| |now|roomId|roomId text env|roomId env|roomId env
                  | | | |postId now env|postId now|fetched];
    cbn [handle].
  - destruct (apiSession c w) as [w' r] eqn:E. cbn [fst]. revert E.
    unfold apiSession.
    repeat match goal with
           | |- context [match ?x with _ => _ end] =>
               lazymatch x with
               | sessionFromQueue _ _ _ => fail
               | _ => destruct x
               end
           end;
      try (intros H; injection H as <- <-; reflexivity);
      intros H; apply sessionFromQueue_cases in H as [-> _]; reflexivity.
  - unfold apiMatchmakingJoin.
    destruct (ensureContext c) as [msg|postId userId userName]; [reflexivity|].
    destruct (getUserRoom w userId) as [existing|];
      [destruct (Js.truthy_str (Some existing));
       [destruct (listsPlayer w existing userId); [reflexivity|]|]|];
      rewrite settings_joinQueue; reflexivity.
  - unfold apiMatchmakingLeave. destruct (ensureContext c); reflexivity.
  - unfold apiPing.
    repeat match goal with
           | |- context [match ?x with _ => _ end] => destruct x
           end; reflexivity.
  - now rewrite apiRoomState_world.
  - unfold apiGuess.
    destruct (ensureContext c) as [msg|postId userId userName]; [reflexivity|].
    destruct (option_map _ _); [|reflexivity].
    repeat match goal with
           | |- context [if ?b then _ else _] => destruct b; [reflexivity|]
           end.
    cbv zeta.
    destruct (Txn.retry _ _ _ _) as [stored [[reply|room]|[reply|room]|]];
      try reflexivity.
    cbn [fst]. rewrite settings_advanceOrEndRound.
    destruct stored; reflexivity.
  - unfold apiAdvance.
    destruct (ensureContext c) as [msg|postId userId userName]; [reflexivity|].
    destruct (option_map _ _); [|reflexivity].
    repeat match goal with
           | |- context [if ?b then _ else _] => destruct b; [reflexivity|]
           end.
    destruct (Txn.retry _ _ _ _) as [stored [[reply|room]|[reply|room]|]];
      try reflexivity.
    cbn [fst]. rewrite settings_advanceOrEndRound.
    destruct stored; reflexivity.
  - unfold apiLeave.
    destruct (ensureContext c) as [msg|postId userId userName]; [reflexivity|].
    destruct (option_map _ _); [|reflexivity].
    cbv zeta. destruct (_ <? 2)%nat; [|destruct (_ && _)]; cbn [fst].
    + unfold deleteRoom. cbn [settings setRoomIndex setRooms].
      rewrite (fold_left_frame settings) by reflexivity. reflexivity.
    + rewrite settings_advanceOrEndRound. reflexivity.
    + reflexivity.
  - unfold triggerPostCreate.
    destruct (ctxPostId c) as [postId|]; [destruct (Js.truthy_str _)|];
      cbn [fst]; [|reflexivity|reflexivity].
    unfold trackPost. destruct (Js.includes _ _); reflexivity.
  - unfold triggerPostDelete.
    destruct (ctxPostId c) as [postId|]; [destruct (Js.truthy_str _)|];
      reflexivity.
  - unfold menuResetLobby. destruct (ensureContext c); reflexivity.
  - unfold cronMmSweep. destruct (negb _); [reflexivity|]. cbv zeta.
    set (w2 := setQueue _ w).
    destruct (maybeStartMatchForPost postId env w2) as [w3|] eqn:Hstart;
      [|reflexivity].
    cbn [fst].
    apply maybeStart_cases in Hstart as [[stored ->]|(stored & picked & _ & ->)].
    + reflexivity.
    + rewrite settings_createMatch. reflexivity.
  - unfold cronRoomGc. destruct (negb _); cbn [fst]; [reflexivity|].
    apply fold_left_frame. intros w' roomId. unfold gcRoom.
    destruct (option_map _ _) as [room|]; [|reflexivity].
    cbv zeta. destruct (negb _); [reflexivity|].
    unfold deleteRoom. cbn [settings setRoomIndex setRooms].
    rewrite (fold_left_frame settings) by reflexivity. reflexivity.
  - unfold cronDailyRotateWords.
    destruct fetched as [lines|]; [|reflexivity].
    cbv zeta. destruct (firstn _ _); reflexivity.
Qed.

Lemma reachable_ok st w :
  roundsSettingAccepted st -> reachable st w -> WorldOk w /\ settings w = st.
Proof.
  intros Hacc. induction 1 as [|w c req Hreach [Hok Hst] Hadm].
  - split; [|reflexivity]. intros key room Hl. cbn in Hl.
    rewrite lookup_empty in Hl. discriminate.
  - split.
    + unfold WorldOk. eapply roomsChange_ok; [exact Hok|].
      apply handle_change; [exact Hok | now rewrite Hst | exact Hadm].
    + now rewrite handle_settings.
Qed.


(** ** What holds in every world that the requests lead to *)

Lemma insertBy_perm {A} (le : A -> A -> bool) x l :
  Permutation (x :: l) (Js.insertBy le x l).
Proof.
  induction l as [|y l IH]; simpl; [apply Permutation_refl|].
  destruct (le x y); [apply Permutation_refl|].
  eapply perm_trans; [apply perm_swap|]. now apply perm_skip.
Qed.

Lemma sortBy_perm {A} (le : A -> A -> bool) l : Permutation l (Js.sortBy le l).
Proof.
  induction l as [|x l IH]; simpl; [apply perm_nil|].
  eapply perm_trans; [apply perm_skip, IH | apply insertBy_perm].
Qed.

Lemma updateNth_userId n now name (l : Queue) :
  map QueueEntry.userId (Js.updateNth n (QueueEntry.refresh now name) l)
  = map QueueEntry.userId l.
Proof.
  revert n. induction l as [|q l IH]; intros [|n]; simpl; try reflexivity.
  now rewrite IH.
Qed.

Lemma upsertQueue_nodup userId userName now cutoff raw :
  List.NoDup (map QueueEntry.userId raw) ->
  List.NoDup (map QueueEntry.userId (upsertQueue userId userName now cutoff raw)).
Proof.
  intros Hnd. unfold upsertQueue. cbv zeta.
  set (queue := List.filter _ raw).
  assert (Hq : List.NoDup (map QueueEntry.userId queue))
    by (apply NoDup_map_filter; exact Hnd).
  eapply Permutation_NoDup; [apply Permutation_map, sortBy_perm|].
  destruct (Z.leb_spec 0 (Js.findIndex
              (fun q => (QueueEntry.userId q =? userId)%string) queue)) as [Hf|Hf].
  - unfold Js.updateAt. destruct (Z.ltb_spec (Js.findIndex
              (fun q => (QueueEntry.userId q =? userId)%string) queue) 0); [lia|].
    now rewrite updateNth_userId.
  - rewrite map_app. simpl.
    eapply Permutation_NoDup; [apply Permutation_cons_append|].
    constructor; [|exact Hq].
    intros Hin. apply in_map_iff in Hin as (q & Hu & Hin).
    pose proof (findIndex_none _ queue Hf q Hin) as Hne. simpl in Hne.
    apply String.eqb_neq in Hne. contradiction.
Qed.

Lemma strongly_sorted_skipn {A} (R : A -> A -> Prop) n (l : list A) :
  StronglySorted R l -> StronglySorted R (skipn n l).
Proof.
  intros H. rewrite <- (firstn_skipn n l) in H.
  now apply strongly_sorted_app in H as (_ & H & _).
Qed.

Lemma NoDup_map_skipn {A B} (g : A -> B) n (l : list A) :
  List.NoDup (map g l) -> List.NoDup (map g (skipn n l)).
Proof.
  intros H. rewrite <- (firstn_skipn n l), map_app in H.
  now apply List.NoDup_app_remove_l in H.
Qed.

Lemma tryMatchPick_queue_ok st now stored stored' r :
  QueueOk stored ->
  tryMatchPickAtomic st now [] stored = (stored', r) ->
  QueueOk stored'.
Proof.
  intros [Hs Hn]. unfold tryMatchPickAtomic, MAX_QUEUE_TRANSACTION_RETRIES.
  rewrite retry_quiet.
  destruct (matchPickPass (pickSettings st) now stored) as [r'|v r'] eqn:Hpass;
    intros H; injection H as <- <-; [split; assumption|].
  apply matchPickPass_exec in Hpass. cbv zeta in Hpass.
  destruct Hpass as (_ & _ & _ & ->). split.
  - apply strongly_sorted_skipn, strongly_sorted_filter, Hs.
  - apply NoDup_map_skipn, NoDup_map_filter, Hn.
Qed.

Lemma queue_createMatch postId env picked w :
  queue (createMatch postId env picked w) = queue w.
Proof.
  unfold createMatch. cbv zeta.
  rewrite (fold_left_frame queue) by reflexivity.
  cbn [broadcastRoomState send queue].
  rewrite (fold_left_frame queue) by reflexivity. reflexivity.
Qed.

Lemma maybeStart_queue_ok postId env w w' :
  QueueOk (queue w) ->
  maybeStartMatchForPost postId env w = Some w' -> QueueOk (queue w').
Proof.
  intros Hok. unfold maybeStartMatchForPost.
  destruct (tryMatchPickAtomic _ _ _ _) as [stored result] eqn:E.
  pose proof (tryMatchPick_queue_ok _ _ _ _ _ Hok E) as Hstored.
  destruct result as [|picked|]; intros H; try discriminate.
  - injection H as <-. exact Hstored.
  - destruct (length picked =? 0)%nat; injection H as <-.
    + exact Hstored.
    + rewrite queue_createMatch. exact Hstored.
Qed.

Lemma queue_advanceOrEndRound postId room now random w :
  queue (advanceOrEndRound postId room now random w) = queue w.
Proof. unfold advanceOrEndRound. destruct (lastRound room); reflexivity. Qed.

Lemma upsert_queue_ok userId userName now kick (stored : Queue) :
  QueueOk stored ->
  QueueOk (fst (queueUpsertAtomic userId userName now kick [] stored)).
Proof.
  intros [Hs Hn]. unfold queueUpsertAtomic. cbv zeta.
  unfold MAX_QUEUE_TRANSACTION_RETRIES. rewrite retry_quiet. cbn [fst].
  split; [apply upsertQueue_sorted | now apply upsertQueue_nodup].
Qed.

Lemma joinQueue_queue_ok postId userId userName env w :
  QueueOk (queue w) ->
  QueueOk (queue (fst (joinQueue postId userId userName env w))).
Proof.
  intros Hq. unfold joinQueue. cbv zeta.
  set (w2 := setQueue _ (trackPost postId w)).
  assert (Hq2 : QueueOk (queue w2)).
  { unfold w2. cbn [queue setQueue]. apply upsert_queue_ok.
    unfold trackPost. destruct (Js.includes _ _); exact Hq. }
  destruct (maybeStartMatchForPost postId (startEnv env) w2) as [w3|] eqn:Hstart;
    [|exact Hq2].
  pose proof (maybeStart_queue_ok _ _ _ _ Hq2 Hstart) as H3.
  destruct (getUserRoom w3 userId); [destruct (Js.truthy_str _)|]; exact H3.
Qed.

Lemma handle_queue_ok c req w :
  QueueOk (queue w) -> QueueOk (queue (fst (handle c req w))).
Proof.
  intros Hok.
  destruct req as [|env| |now|roomId|roomId text env|roomId env|roomId env
                  | | | |postId now env|postId now|fetched];
    cbn [handle].
  - destruct (apiSession c w) as [w' r] eqn:E. cbn [fst]. revert E.
    unfold apiSession.
    repeat match goal with
           | |- context [match ?x with _ => _ end] =>
               lazymatch x with
               | sessionFromQueue _ _ _ => fail
               | _ => destruct x
               end
           end;
      try (intros H; injection H as <- <-; exact Hok);
      intros H; apply sessionFromQueue_cases in H as [-> _]; exact Hok.
  - unfold apiMatchmakingJoin.
    destruct (ensureContext c) as [msg|postId userId userName]; [exact Hok|].
    destruct (getUserRoom w userId) as [existing|];
      [destruct (Js.truthy_str (Some existing));
       [destruct (listsPlayer w existing userId); [exact Hok|]|]|];
      apply joinQueue_queue_ok; exact Hok.
  - unfold apiMatchmakingLeave.
    destruct (ensureContext c) as [msg|postId userId userName]; [exact Hok|].
    cbn [fst queue setQueue]. destruct Hok as [Hs Hn]. split.
    + apply strongly_sorted_filter, Hs.
    + apply NoDup_map_filter, Hn.
  - unfold apiPing.
    repeat match goal with
           | |- context [match ?x with _ => _ end] => destruct x
           end; exact Hok.
  - now rewrite apiRoomState_world.
  - unfold apiGuess.
    destruct (ensureContext c) as [msg|postId userId userName]; [exact Hok|].
    destruct (option_map _ _); [|exact Hok].
    repeat match goal with
           | |- context [if ?b then _ else _] => destruct b; [exact Hok|]
           end.
    cbv zeta.
    destruct (Txn.retry _ _ _ _) as [stored [[reply|room]|[reply|room]|]];
      try exact Hok.
    cbn [fst]. rewrite queue_advanceOrEndRound.
    destruct stored; exact Hok.
  - unfold apiAdvance.
    destruct (ensureContext c) as [msg|postId userId userName]; [exact Hok|].
    destruct (option_map _ _); [|exact Hok].
    repeat match goal with
           | |- context [if ?b then _ else _] => destruct b; [exact Hok|]
           end.
    destruct (Txn.retry _ _ _ _) as [stored [[reply|room]|[reply|room]|]];
      try exact Hok.
    cbn [fst]. rewrite queue_advanceOrEndRound.
    destruct stored; exact Hok.
  - unfold apiLeave.
    destruct (ensureContext c) as [msg|postId userId userName]; [exact Hok|].
    destruct (option_map _ _); [|exact Hok].
    cbv zeta. destruct (_ <? 2)%nat; [|destruct (_ && _)]; cbn [fst].
    + unfold deleteRoom. cbn [queue setRoomIndex setRooms].
      rewrite (fold_left_frame queue) by reflexivity. exact Hok.
    + rewrite queue_advanceOrEndRound. exact Hok.
    + exact Hok.
  - unfold triggerPostCreate.
    destruct (ctxPostId c) as [postId|]; [destruct (Js.truthy_str _)|];
      cbn [fst]; [|exact Hok|exact Hok].
    unfold trackPost. destruct (Js.includes _ _); exact Hok.
  - unfold triggerPostDelete.
    destruct (ctxPostId c) as [postId|]; [destruct (Js.truthy_str _)|];
      cbn [fst]; [|exact Hok|exact Hok].
    split; constructor.
  - unfold menuResetLobby.
    destruct (ensureContext c); cbn [fst]; [exact Hok|]. split; constructor.
  - unfold cronMmSweep. destruct (negb _); [exact Hok|]. cbv zeta.
    set (w2 := setQueue _ w).
    assert (Hq2 : QueueOk (queue w2)).
    { unfold w2. cbn [queue setQueue]. unfold queueFilterStaleAtomic.
      cbv zeta. unfold MAX_QUEUE_TRANSACTION_RETRIES. rewrite retry_quiet.
      cbn [fst]. destruct Hok as [Hs Hn]. split.
      - apply strongly_sorted_filter, Hs.
      - apply NoDup_map_filter, Hn. }
    destruct (maybeStartMatchForPost postId env w2) as [w3|] eqn:Hstart;
      cbn [fst]; [|exact Hq2].
    exact (maybeStart_queue_ok _ _ _ _ Hq2 Hstart).
  - unfold cronRoomGc. destruct (negb _); cbn [fst]; [exact Hok|].
    rewrite (fold_left_frame queue); [exact Hok|].
    intros w' roomId. unfold gcRoom.
    destruct (option_map _ _) as [room|]; [|reflexivity].
    cbv zeta. destruct (negb _); [reflexivity|].
    unfold deleteRoom. cbn [queue setRoomIndex setRooms].
    rewrite (fold_left_frame queue) by reflexivity. reflexivity.
  - unfold cronDailyRotateWords.
    destruct fetched as [lines|]; [|exact Hok].
    cbv zeta. destruct (firstn _ _); exact Hok.
Qed.

(** *** Seats *)

Lemma findIndex_bounds {A} (f : A -> bool) (l : list A) :
  -1 <= Js.findIndex f l < Z.of_nat (length l).
Proof.
  induction l as [|x l IH]; cbn [Js.findIndex length]; [lia|].
  destruct (f x); [lia|]. cbv zeta.
  destruct (Z.ltb_spec (Js.findIndex f l) 0); lia.
Qed.

Lemma nextDrawer_in room :
  RoomState.order room <> [] ->
  exists d, nextDrawer room = Some d /\ In d (RoomState.order room).
Proof.
  intros Hne. unfold nextDrawer, Js.rem.
  assert (Hlen : 0 < Z.of_nat (length (RoomState.order room))).
  { destruct (RoomState.order room); [contradiction | cbn [length]; lia]. }
  destruct (Z.eqb_spec (Z.of_nat (length (RoomState.order room))) 0); [lia|].
  assert (Hidx : -1 <= drawerIndex room < Z.of_nat (length (RoomState.order room))).
  { unfold drawerIndex. cbv zeta.
    destruct (match RoomState.drawerUserId room with
              | Some d => Some d
              | None => Js.at_ (RoomState.order room) 0
              end); [apply findIndex_bounds | lia]. }
  pose proof (Z.rem_bound_pos (drawerIndex room + 1)
                (Z.of_nat (length (RoomState.order room)))
                ltac:(lia) Hlen) as Hrem.
  unfold Js.at_.
  destruct (Z.ltb_spec (Z.rem (drawerIndex room + 1)
                          (Z.of_nat (length (RoomState.order room)))) 0); [lia|].
  destruct (nth_error (RoomState.order room) _) as [d|] eqn:Hnth.
  - exists d. split; [reflexivity|]. eapply nth_error_In, Hnth.
  - apply nth_error_None in Hnth. lia.
Qed.

Lemma SeatOk_advanced now rs word room :
  List.NoDup (RoomState.order room) ->
  (2 <= length (RoomState.order room))%nat ->
  (forall u, Js.has (RoomState.players room) u = true
             <-> In u (RoomState.order room)) ->
  SeatOk (advancedRoom now rs word room).
Proof.
  intros Hnd Htwo Hpl.
  destruct (advancedRoom_keeps now rs word room) as (Hp & Ho & _).
  constructor; rewrite ?Ho, ?Hp; try assumption.
  unfold advancedRoom. destruct (lastRound room); [discriminate|].
  intros _. cbn. apply nextDrawer_in.
  destruct (RoomState.order room); [cbn in Htwo; lia | discriminate].
Qed.

(** A write that leaves the seats and the status alone. *)
Lemma SeatOk_same room room' :
  RoomState.order room' = RoomState.order room ->
  (forall u, Js.has (RoomState.players room') u
             = Js.has (RoomState.players room) u) ->
  RoomState.status room' = RoomState.status room ->
  RoomState.drawerUserId room' = RoomState.drawerUserId room ->
  SeatOk room -> SeatOk room'.
Proof.
  intros Ho Hp Hs Hd [Hnd Htwo Hpl Hdr].
  constructor; rewrite ?Ho, ?Hs, ?Hd; try assumption.
  intros u. rewrite Hp. apply Hpl.
Qed.

Lemma SeatOk_defaults room : SeatOk room -> SeatOk (withRoomDefaults room).
Proof.
  destruct (withRoomDefaults_keeps room) as (_ & Hs & Hp & Ho & _ & Hd & _).
  apply SeatOk_same; try assumption. intros u. now rewrite Hp.
Qed.

Lemma awardGuess_order userId now room :
  RoomState.order (awardGuess userId now room) = RoomState.order room.
Proof.
  unfold awardGuess. cbn.
  destruct (RoomState.drawerUserId room); [destruct (_ && _)|]; reflexivity.
Qed.

Lemma SeatOk_award userId now room :
  SeatOk room -> SeatOk (awardGuess userId now room).
Proof.
  destruct (awardGuess_fields userId now room) as (_ & _ & Hs & _ & _ & Hd).
  apply SeatOk_same; try assumption; [apply awardGuess_order|].
  intros u. rewrite awardGuess_players.
  destruct (RoomState.drawerUserId room); [destruct (_ && _)|];
    now rewrite ?has_adjust.
Qed.

Lemma SeatOk_newRoom roomId picked now rs mr word :
  List.NoDup (map QueueEntry.userId picked) ->
  (2 <= length picked)%nat ->
  SeatOk (newRoom roomId picked now rs mr word).
Proof.
  intros Hnd Htwo. constructor.
  - exact Hnd.
  - cbn. now rewrite length_map.
  - intros u. rewrite has_newRoom. cbn [newRoom RoomState.order].
    rewrite existsb_exists, in_map_iff. split.
    + intros (p & Hin & He). apply String.eqb_eq in He. now exists p.
    + intros (p & He & Hin). exists p. split; [exact Hin|].
      now apply String.eqb_eq.
  - intros _. cbn. destruct picked as [|p picked]; [cbn in Htwo; lia|].
    exists (QueueEntry.userId p). split; [reflexivity | now left].
Qed.

Lemma has_del_ne {V} (o : Js.obj V) k u :
  u <> k -> Js.has (Js.del o k) u = Js.has o u.
Proof.
  intros Hne. unfold Js.has, Js.del.
  induction o as [|[k' v] o IH]; [reflexivity|].
  cbn [List.filter fst]. destruct (String.eqb_spec k k') as [->|Hk]; cbn [negb].
  - rewrite IH. cbn [Js.get]. cbn.
    destruct (String.eqb_spec u k'); [contradiction | reflexivity].
  - cbn. destruct (String.eqb u k'); [reflexivity | exact IH].
Qed.

Lemma withoutPlayer_seats userId now room :
  SeatOk room ->
  let room' := withoutPlayer userId now room in
  List.NoDup (RoomState.order room') /\
  (forall u, Js.has (RoomState.players room') u = true
             <-> In u (RoomState.order room')) /\
  (RoomState.status room' = playing -> isDrawer room' userId = false ->
   exists d, RoomState.drawerUserId room' = Some d /\
             In d (RoomState.order room')).
Proof.
  intros [Hnd Htwo Hpl Hdr]. cbn. split; [|split].
  - now apply List.NoDup_filter.
  - intros u. rewrite filter_In.
    destruct (String.eqb_spec u userId) as [->|Hne].
    + rewrite has_del. split; [discriminate | intros [_ H]; discriminate].
    + rewrite has_del_ne by exact Hne. rewrite Hpl. cbn. tauto.
  - intros Hp Hnot. destruct (Hdr Hp) as (d & Hd & Hin).
    exists d. split; [exact Hd|]. apply filter_In. split; [exact Hin|].
    unfold isDrawer in Hnot. cbn in Hnot. rewrite Hd in Hnot.
    now rewrite Hnot.
Qed.

Lemma SeatsOk_rooms w w' : rooms w' = rooms w -> SeatsOk w -> SeatsOk w'.
Proof. intros H Hok key room. rewrite H. apply Hok. Qed.

Lemma rooms_insert_seats (m : gmap string RoomState.t) key room :
  (forall k r, m !! k = Some r -> SeatOk r) -> SeatOk room ->
  forall k r, <[key := room]> m !! k = Some r -> SeatOk r.
Proof.
  intros Hok Hroom k r.
  destruct (decide (key = k)) as [->|Hne].
  - rewrite lookup_insert_eq. now intros [= <-].
  - rewrite lookup_insert_ne by exact Hne. apply Hok.
Qed.

Lemma SeatsOk_insert w w' key room :
  rooms w' = <[key := room]> (rooms w) -> SeatOk room -> SeatsOk w -> SeatsOk w'.
Proof.
  intros H Hroom Hok k r. rewrite H. now apply rooms_insert_seats.
Qed.

Lemma SeatsOk_dropped w w' : dropped (rooms w) (rooms w') -> SeatsOk w -> SeatsOk w'.
Proof.
  intros Hd Hok k r Hl. destruct (Hd k) as [H|H]; rewrite H in Hl;
    [eapply Hok, Hl | discriminate].
Qed.

Lemma maybeStart_seats postId env w w' :
  QueueOk (queue w) -> SeatsOk w ->
  maybeStartMatchForPost postId env w = Some w' -> SeatsOk w'.
Proof.
  intros [_ Hnd] Hok H.
  apply maybeStart_rooms in H as [H|(stored & picked & Hpick & H)].
  - now apply (SeatsOk_rooms w).
  - apply tryMatchPick_quiet in Hpick.
    eapply SeatsOk_insert; [exact H | | exact Hok].
    apply SeatOk_newRoom.
    + eapply picked_nodup; [exact Hpick | exact Hnd].
    + eapply picked_size. exact Hpick.
Qed.

Lemma joinQueue_seats postId userId userName env w :
  QueueOk (queue w) -> SeatsOk w ->
  SeatsOk (fst (joinQueue postId userId userName env w)).
Proof.
  intros Hq Hok. unfold joinQueue. cbv zeta.
  set (w2 := setQueue _ (trackPost postId w)).
  assert (Hq2 : QueueOk (queue w2)).
  { unfold w2. cbn [queue setQueue]. apply upsert_queue_ok.
    unfold trackPost. destruct (Js.includes _ _); exact Hq. }
  assert (Hs2 : SeatsOk w2).
  { apply (SeatsOk_rooms w); [|exact Hok].
    unfold w2, trackPost. destruct (Js.includes _ _); reflexivity. }
  destruct (maybeStartMatchForPost postId (startEnv env) w2) as [w3|] eqn:Hstart;
    [|exact Hs2].
  pose proof (maybeStart_seats _ _ _ _ Hq2 Hs2 Hstart) as H3.
  destruct (getUserRoom w3 userId); [destruct (Js.truthy_str _)|]; exact H3.
Qed.

Lemma SeatOk_advanced_of now rs word room :
  SeatOk room -> SeatOk (advancedRoom now rs word room).
Proof. intros [Hnd Htwo Hpl _]. now apply SeatOk_advanced. Qed.

Lemma apiLeave_seats c roomId env w :
  SeatsOk w -> SeatsOk (fst (apiLeave c roomId env w)).
Proof.
  intros Hok. unfold apiLeave.
  destruct (ensureContext c) as [msg|postId userId userName]; [exact Hok|].
  destruct (loadRoom w roomId) as [stored|] eqn:Hload; cbn [option_map];
    [|exact Hok].
  pose proof (SeatOk_defaults _ (Hok _ _ Hload)) as Hstored.
  destruct (withoutPlayer_seats userId (leaveNow env) _ Hstored)
    as (Hnd & Hpl & Hdr).
  cbv zeta.
  destruct (Nat.ltb_spec
              (length (RoomState.order
                         (withoutPlayer userId (leaveNow env)
                                        (withRoomDefaults stored)))) 2)
    as [Hlt|Hge]; cbn [fst].
  - eapply SeatsOk_dropped; [|exact Hok].
    unfold deleteRoom. cbn [rooms setRoomIndex setRooms].
    rewrite (fold_left_frame rooms) by reflexivity. apply dropped_delete.
  - destruct (isDrawer _ userId) eqn:Hdrawer; cbn [andb].
    + destruct (Status_eqb _ playing) eqn:Hst; cbn [fst].
      * eapply SeatsOk_insert; [apply advanceOrEndRound_saves| |exact Hok].
        apply SeatOk_advanced; assumption.
      * eapply SeatsOk_insert; [reflexivity| |exact Hok].
        constructor; try assumption.
        intros Hp. rewrite Hp in Hst. discriminate.
    + cbn [fst]. eapply SeatsOk_insert; [reflexivity| |exact Hok].
      constructor; try assumption.
      intros Hp. now apply Hdr.
Qed.

Lemma handle_seats c req w :
  QueueOk (queue w) -> SeatsOk w -> SeatsOk (fst (handle c req w)).
Proof.
  intros Hq Hok.
  destruct req as [|env| |now|roomId|roomId text env|roomId env|roomId env
                  | | | |postId now env|postId now|fetched];
    cbn [handle].
  - eapply SeatsOk_rooms; [apply apiSession_rooms | exact Hok].
  - unfold apiMatchmakingJoin.
    destruct (ensureContext c) as [msg|postId userId userName]; [exact Hok|].
    destruct (getUserRoom w userId) as [existing|];
      [destruct (Js.truthy_str (Some existing));
       [destruct (listsPlayer w existing userId); [exact Hok|]|]|];
      apply joinQueue_seats; assumption.
  - eapply SeatsOk_rooms; [apply apiMatchmakingLeave_rooms | exact Hok].
  - destruct (apiPing_rooms c now w) as [H|(userId & roomId & stored & Hload & H)].
    + eapply SeatsOk_rooms; [exact H | exact Hok].
    + eapply SeatsOk_insert; [exact H | | exact Hok].
      eapply SeatOk_same; [| | | |apply SeatOk_defaults, (Hok _ _ Hload)];
        try reflexivity.
      intros u. cbn. apply has_adjust.
  - now rewrite apiRoomState_world.
  - destruct (apiGuess_rooms c roomId text env w)
      as [H|(userId & stored & Hload & Hp & H)].
    + eapply SeatsOk_rooms; [exact H | exact Hok].
    + pose proof (SeatOk_award userId (resolveNow env) _
                    (SeatOk_defaults _ (Hok _ _ Hload))) as Haward.
      intros k r. rewrite H.
      apply rooms_insert_seats; [|now apply SeatOk_advanced_of].
      apply rooms_insert_seats; [exact Hok | exact Haward].
  - destruct (apiAdvance_rooms c roomId env w) as [H|(stored & Hload & Hp & H)].
    + eapply SeatsOk_rooms; [exact H | exact Hok].
    + assert (Hout : SeatOk (timedOut (resolveNow env) (withRoomDefaults stored))).
      { eapply SeatOk_same; [| | | |apply SeatOk_defaults, (Hok _ _ Hload)];
          reflexivity. }
      intros k r. rewrite H.
      apply rooms_insert_seats; [|now apply SeatOk_advanced_of].
      apply rooms_insert_seats; [exact Hok | exact Hout].
  - now apply apiLeave_seats.
  - unfold triggerPostCreate.
    destruct (ctxPostId c) as [postId|]; [destruct (Js.truthy_str _)|];
      cbn [fst]; [|exact Hok|exact Hok].
    eapply SeatsOk_rooms; [apply rooms_trackPost | exact Hok].
  - unfold triggerPostDelete.
    destruct (ctxPostId c) as [postId|]; [destruct (Js.truthy_str _)|];
      cbn [fst]; [|exact Hok|exact Hok].
    eapply SeatsOk_dropped; [apply rooms_resetLobby | exact Hok].
  - unfold menuResetLobby.
    destruct (ensureContext c); cbn [fst]; [exact Hok|].
    eapply SeatsOk_dropped; [apply rooms_resetLobby | exact Hok].
  - unfold cronMmSweep. destruct (negb _); [exact Hok|]. cbv zeta.
    set (w2 := setQueue _ w).
    assert (Hq2 : QueueOk (queue w2)).
    { unfold w2. cbn [queue setQueue]. unfold queueFilterStaleAtomic.
      cbv zeta. unfold MAX_QUEUE_TRANSACTION_RETRIES. rewrite retry_quiet.
      cbn [fst]. destruct Hq as [Hs Hn]. split.
      - apply strongly_sorted_filter, Hs.
      - apply NoDup_map_filter, Hn. }
    destruct (maybeStartMatchForPost postId env w2) as [w3|] eqn:Hstart;
      cbn [fst]; [|exact Hok].
    exact (maybeStart_seats _ _ _ _ Hq2 Hok Hstart).
  - eapply SeatsOk_dropped; [apply rooms_cronRoomGc | exact Hok].
  - unfold cronDailyRotateWords.
    destruct fetched as [lines|]; [|exact Hok].
    cbv zeta. destruct (firstn _ _); exact Hok.
Qed.

Lemma reachable_seats st w : reachable st w -> QueueOk (queue w) /\ SeatsOk w.
Proof.
  induction 1 as [|w c req Hreach [Hq Hs] Hadm].
  - split; [split; constructor|]. intros key room Hl. cbn in Hl.
    rewrite lookup_empty in Hl. discriminate.
  - split; [now apply handle_queue_ok | now apply handle_seats].
Qed.





(** X3: in every world that the requests lead to, the turn order of a stored
    room names each of its players once, two at least, and the drawer of a
    playing room is in it: the next drawer is the entry after the drawer's
    only position. *)
Theorem reachable_room_seats
    (st : Settings) (w : World) (roomId : string) (room : RoomState.t) :
  reachable st w ->
  loadRoom w roomId = Some room ->
  List.NoDup (RoomState.order room) /\
  (2 <= length (RoomState.order room))%nat /\
  (forall u, Js.has (RoomState.players room) u = true
             <-> In u (RoomState.order room)) /\
  (RoomState.status room = playing ->
   exists d i,
     RoomState.drawerUserId room = Some d /\
     RoomState.order room !! i = Some d /\
     nextDrawer room
     = RoomState.order room !! ((i + 1) mod length (RoomState.order room))%nat).
Proof.
  intros Hreach Hload.
  destruct (reachable_seats st w Hreach) as [_ Hseats].
  destruct (Hseats _ _ Hload) as [Hnd Htwo Hpl Hdr].
  split; [exact Hnd|]. split; [exact Htwo|]. split; [exact Hpl|].
  intros Hp. destruct (Hdr Hp) as (d & Hd & Hin).
  apply In_nth_error in Hin as [i Hi].
  exists d, i. rewrite <- nth_error_lookup.
  split; [exact Hd|]. split; [exact Hi|].
  rewrite nth_error_lookup in Hi.
  apply (nextDrawer_rotates room d i); [exact Hd | exact Hi |].
  intros j Hj Hjd. rewrite <- !nth_error_lookup in *.
  assert (j = i); [|lia].
  apply (proj1 (List.NoDup_nth_error _) Hnd).
  - apply nth_error_Some. rewrite Hjd. discriminate.
  - now rewrite Hjd, Hi.
Qed.

Lemma reachable_room_seats_witness :
  exists room,
    loadRoom afterTwoJoins "123e4567e8" = Some room /\
    List.NoDup (RoomState.order room) /\
    (2 <= length (RoomState.order room))%nat.
Proof.
  assert (Hreach : reachable defaultSettings afterTwoJoins).
  { unfold afterTwoJoins. apply reach_handle; [apply reach_handle|].
    - apply reach_empty.
    - split; [reflexivity | discriminate].
    - split; [reflexivity | discriminate]. }
  destruct (loadRoom afterTwoJoins "123e4567e8") as [room|] eqn:Hroom;
    [|vm_compute in Hroom; discriminate].
  exists room. split; [reflexivity|].
  destruct (reachable_room_seats
              defaultSettings afterTwoJoins "123e4567e8" room Hreach Hroom)
    as (Hnd & Htwo & _).
  split; assumption.
Defined.

(** ** Keys, channels and room ids *)

Lemma safeChar_channel c : channelChar (safeChar c) = true.
Proof.
  unfold safeChar.
  destruct (Js.isLetter c || Js.isDigit c || Ascii.eqb c "_"%char) eqn:E;
    [exact E | reflexivity].
Qed.

Lemma safeChar_fixed c : channelChar c = true -> safeChar c = c.
Proof. unfold safeChar, channelChar. now intros ->. Qed.

Lemma safeChar_fixed_inv c : safeChar c = c -> channelChar c = true.
Proof.
  unfold safeChar.
  destruct (Js.isLetter c || Js.isDigit c || Ascii.eqb c "_"%char) eqn:E;
    [intros _; exact E|].
  intros <-. reflexivity.
Qed.

Lemma safe_channel s : Js.allChars channelChar (safe s) = true.
Proof.
  unfold safe. induction s as [|c s IH]; cbn; [reflexivity|].
  now rewrite safeChar_channel, IH.
Qed.

Lemma safe_fixed_iff s : safe s = s <-> Js.allChars channelChar s = true.
Proof.
  unfold safe. induction s as [|c s IH]; cbn; [tauto|]. split.
  - intros [= Hc Hs]. rewrite (safeChar_fixed_inv _ Hc). now apply IH.
  - intros [Hc Hs]%andb_true_iff.
    rewrite (safeChar_fixed _ Hc). f_equal. now apply IH.
Qed.

(** X4: [safe] keeps the length of its argument, yields only letters, digits
    and underscores, changes nothing in a string that has only those, and so
    changes nothing when applied twice. *)
Theorem safe_yields_channel_names (s : string) :
  String.length (safe s) = String.length s /\
  Js.allChars channelChar (safe s) = true /\
  (safe s = s <-> Js.allChars channelChar s = true) /\
  safe (safe s) = safe s.
Proof.
  split; [|split; [apply safe_channel | split; [apply safe_fixed_iff|]]].
  - unfold safe. induction s as [|c s IH]; cbn; [reflexivity | now rewrite IH].
  - apply safe_fixed_iff, safe_channel.
Qed.

Lemma mapChars_app f a b :
  Js.mapChars f (a ++ b) = (Js.mapChars f a ++ Js.mapChars f b)%string.
Proof. induction a as [|c a IH]; simpl; [reflexivity | now rewrite IH]. Qed.

Lemma safe_app a b : safe (a ++ b) = (safe a ++ safe b)%string.
Proof. apply mapChars_app. Qed.

Lemma allChars_app f a b :
  Js.allChars f (a ++ b) = Js.allChars f a && Js.allChars f b.
Proof.
  induction a as [|c a IH]; simpl; [reflexivity|].
  now rewrite IH, andb_assoc.
Qed.

Lemma allChars_weaken (f g : ascii -> bool) s :
  (forall c, f c = true -> g c = true) ->
  Js.allChars f s = true -> Js.allChars g s = true.
Proof.
  intros Hfg. induction s as [|c s IH]; cbn; [reflexivity|].
  intros [Hc Hs]%andb_true_iff. now rewrite (Hfg _ Hc), IH.
Qed.

(** Splitting at the first separator: the text before it has none. *)
Lemma split_first (sep : ascii) a a' b b' :
  Js.allChars (fun c => negb (Ascii.eqb c sep)) a = true ->
  Js.allChars (fun c => negb (Ascii.eqb c sep)) a' = true ->
  (a ++ String sep b)%string = (a' ++ String sep b')%string ->
  a = a' /\ b = b'.
Proof.
  revert a'. induction a as [|c a IH]; intros [|c' a']; cbn; intros Ha Ha' H.
  - now injection H.
  - injection H as <- _. now rewrite Ascii.eqb_refl in Ha'.
  - injection H as -> _. now rewrite Ascii.eqb_refl in Ha.
  - injection H as <- H.
    apply andb_true_iff in Ha as [_ Ha]. apply andb_true_iff in Ha' as [_ Ha'].
    destruct (IH a' Ha Ha' H) as [-> ->]. now split.
Qed.

(** Splitting at the last separator: the text after it has none. *)
Lemma split_last (sep : ascii) a a' b b' :
  Js.allChars (fun c => negb (Ascii.eqb c sep)) b = true ->
  Js.allChars (fun c => negb (Ascii.eqb c sep)) b' = true ->
  (a ++ String sep b)%string = (a' ++ String sep b')%string ->
  a = a' /\ b = b'.
Proof.
  intros Hb Hb'. revert a'. induction a as [|c a IH]; intros [|c' a']; cbn; intros H.
  - now injection H.
  - injection H as _ H. subst b. rewrite allChars_app in Hb. cbn in Hb.
    rewrite Ascii.eqb_refl in Hb. cbn in Hb. now rewrite andb_false_r in Hb.
  - injection H as _ H. subst b'. rewrite allChars_app in Hb'. cbn in Hb'.
    rewrite Ascii.eqb_refl in Hb'. cbn in Hb'. now rewrite andb_false_r in Hb'.
  - injection H as <- H. destruct (IH a' H) as [-> ->]. now split.
Qed.

Lemma channel_no_pipe s :
  Js.allChars channelChar s = true ->
  Js.allChars (fun c => negb (Ascii.eqb c "|"%char)) s = true.
Proof.
  apply allChars_weaken. intros c Hc.
  destruct (Ascii.eqb_spec c "|"%char) as [->|]; [discriminate Hc | reflexivity].
Qed.

Lemma alnum_no_underscore s :
  Js.allChars alnumChar s = true ->
  Js.allChars (fun c => negb (Ascii.eqb c "_"%char)) s = true.
Proof.
  apply allChars_weaken. intros c Hc.
  destruct (Ascii.eqb_spec c "_"%char) as [->|]; [discriminate Hc | reflexivity].
Qed.

Lemma alnum_safe s : Js.allChars alnumChar s = true -> safe s = s.
Proof.
  intros H. apply safe_fixed_iff.
  revert H. apply allChars_weaken. intros c Hc. unfold channelChar.
  unfold alnumChar in Hc. now rewrite Hc.
Qed.

Lemma join_pipe_inj (l l' : list string) :
  l <> [] -> l' <> [] ->
  Forall (fun s => Js.allChars (fun c => negb (Ascii.eqb c "|"%char)) s = true) l ->
  Forall (fun s => Js.allChars (fun c => negb (Ascii.eqb c "|"%char)) s = true) l' ->
  Js.join "|" l = Js.join "|" l' -> l = l'.
Proof.
  revert l'. induction l as [|x l IH]; intros l' Hne Hne' Hl Hl' H;
    [congruence|].
  destruct l' as [|y l']; [congruence|].
  inversion Hl as [|? ? Hx Hl2]; inversion Hl' as [|? ? Hy Hl2']; subst.
  destruct l as [|x2 l], l' as [|y2 l'].
  - cbn in H. now subst.
  - exfalso. cbn [Js.join] in H. subst x.
    rewrite allChars_app in Hx. simpl in Hx. now rewrite andb_false_r in Hx.
  - exfalso. cbn [Js.join] in H. subst y.
    rewrite allChars_app in Hy. simpl in Hy. now rewrite andb_false_r in Hy.
  - change (Js.join "|" (x :: x2 :: l))
      with (x ++ String "|" (Js.join "|" (x2 :: l)))%string in H.
    change (Js.join "|" (y :: y2 :: l'))
      with (y ++ String "|" (Js.join "|" (y2 :: l')))%string in H.
    destruct (split_first _ _ _ _ _ Hx Hy H) as [-> Hrest].
    f_equal. apply IH; [discriminate | discriminate | exact Hl2 | exact Hl2' | exact Hrest].
Qed.

(** X5: the Redis key of a post-scoped value determines the post and the
    parts it was built from, up to [safe]: keys of different kinds, of
    different rooms or of different posts do not collide. *)
Theorem storage_keys_do_not_collide
    (postId postId' : string) (parts parts' : list string) :
  k postId parts = k postId' parts' ->
  safe postId = safe postId' /\ map safe parts = map safe parts'.
Proof.
  unfold k. intros H.
  apply join_pipe_inj in H; try discriminate.
  - injection H as H1 H2. now split.
  - constructor; [reflexivity|]. constructor.
    + apply channel_no_pipe, safe_channel.
    + apply List.Forall_forall. intros s (p & <- & _)%in_map_iff.
      apply channel_no_pipe, safe_channel.
  - constructor; [reflexivity|]. constructor.
    + apply channel_no_pipe, safe_channel.
    + apply List.Forall_forall. intros s (p & <- & _)%in_map_iff.
      apply channel_no_pipe, safe_channel.
Qed.

Lemma storage_keys_do_not_collide_witness :
  k "t3-a" ["room"; "ab-1"] = k "t3_a" ["room"; "ab_1"] /\
  safe "t3-a" = safe "t3_a" /\
  map safe ["room"; "ab-1"] = map safe ["room"; "ab_1"].
Proof.
  split; [reflexivity|].
  apply (storage_keys_do_not_collide "t3-a" "t3_a" ["room"; "ab-1"] ["room"; "ab_1"]).
  reflexivity.
Defined.

Lemma roomChannel_eq postId roomId :
  roomChannel postId roomId
  = ("room_" ++ safe postId ++ String "_" (safe roomId))%string.
Proof. unfold roomChannel. now rewrite !safe_app. Qed.

Lemma userChannel_eq postId userId :
  userChannel postId userId
  = ("u_" ++ safe postId ++ String "_" (safe userId))%string.
Proof. unfold userChannel. now rewrite !safe_app. Qed.

Lemma append_cancel (a b b' : string) : (a ++ b = a ++ b')%string -> b = b'.
Proof. induction a as [|c a IH]; cbn; [auto|]. intros [= H]. auto. Qed.

(** X6: within a post, the realtime channels of two rooms (of two users)
    are the same only if the ids agree up to [safe]; a room channel is never
    a user channel; and for room ids of letters and digits, as the server
    generates them, the room channel determines the room id and the post up
    to [safe]. *)
Theorem channels_keep_rooms_and_users_apart (postId : string) :
  (forall r r',
     roomChannel postId r = roomChannel postId r' -> safe r = safe r') /\
  (forall u u',
     userChannel postId u = userChannel postId u' -> safe u = safe u') /\
  (forall postId' r u, roomChannel postId r <> userChannel postId' u) /\
  (forall postId' r r',
     Js.allChars alnumChar r = true -> Js.allChars alnumChar r' = true ->
     roomChannel postId r = roomChannel postId' r' ->
     safe postId = safe postId' /\ r = r').
Proof.
  split; [|split; [|split]].
  - intros r r'. rewrite !roomChannel_eq. intros H.
    apply append_cancel, append_cancel in H. now injection H.
  - intros u u'. rewrite !userChannel_eq. intros H.
    apply append_cancel, append_cancel in H. now injection H.
  - intros postId' r u. rewrite roomChannel_eq, userChannel_eq. discriminate.
  - intros postId' r r' Hr Hr'. rewrite !roomChannel_eq.
    rewrite (alnum_safe _ Hr), (alnum_safe _ Hr'). intros H.
    apply append_cancel in H.
    apply split_last in H; [exact H | |]; now apply alnum_no_underscore.
Qed.

Lemma sliceTo_length n s : (String.length (Js.sliceTo n s) <= n)%nat.
Proof.
  unfold Js.sliceTo. revert s. induction n as [|n IH]; intros [|c s]; cbn; try lia.
  specialize (IH s). lia.
Qed.

Lemma allChars_substring f n s :
  Js.allChars f s = true -> Js.allChars f (substring 0 n s) = true.
Proof.
  revert s. induction n as [|n IH]; intros [|c s]; cbn; try reflexivity.
  intros [Hc Hs]%andb_true_iff. now rewrite Hc, IH.
Qed.

Lemma allChars_filterChars (f g : ascii -> bool) s :
  (forall c, f c = true -> g c = true -> alnumChar c = true) ->
  Js.allChars f s = true ->
  Js.allChars alnumChar (Js.filterChars g s) = true.
Proof.
  intros Hfg. induction s as [|c s IH]; cbn; [reflexivity|].
  intros [Hc Hs]%andb_true_iff. destruct (g c) eqn:Hg; cbn; [|now apply IH].
  now rewrite (Hfg _ Hc Hg), IH.
Qed.

(** X7: the room id cut from the text of a UUID has at most ten characters,
    all of them hexadecimal digits, so [safe] leaves it as it is and the room
    is stored and announced under that very id. *)
Theorem generated_room_id_is_plain (uuid : string) :
  Js.allChars uuidChar uuid = true ->
  (String.length (roomIdOf uuid) <= 10)%nat /\
  Js.allChars alnumChar (roomIdOf uuid) = true /\
  safe (roomIdOf uuid) = roomIdOf uuid.
Proof.
  intros Huuid.
  assert (Hal : Js.allChars alnumChar (roomIdOf uuid) = true).
  { unfold roomIdOf, Js.sliceTo. apply allChars_substring.
    revert Huuid. apply allChars_filterChars.
    intros c Hc Hg. unfold uuidChar in Hc. unfold alnumChar, Js.isLetter, Js.isLower.
    destruct (Ascii.eqb c "-"%char); [discriminate Hg|].
    rewrite orb_false_r in Hc. apply orb_true_iff in Hc as [Hd|Hx].
    - rewrite Hd. apply orb_true_r.
    - cbv zeta in Hx. apply andb_true_iff in Hx as [H1 H2].
      apply Nat.leb_le in H1, H2.
      replace (97 <=? nat_of_ascii c)%nat with true by (symmetry; apply Nat.leb_le; lia).
      replace (nat_of_ascii c <=? 122)%nat with true by (symmetry; apply Nat.leb_le; lia).
      cbn. now rewrite orb_true_r. }
  split; [apply sliceTo_length|]. split; [exact Hal | now apply alnum_safe].
Qed.

Lemma generated_room_id_is_plain_witness :
  Js.allChars uuidChar "123e4567-e89b-12d3-a456-426614174000" = true /\
  roomIdOf "123e4567-e89b-12d3-a456-426614174000" = "123e4567e8" /\
  safe (roomIdOf "123e4567-e89b-12d3-a456-426614174000")
  = roomIdOf "123e4567-e89b-12d3-a456-426614174000".
Proof.
  split; [reflexivity|]. split; [reflexivity|].
  apply (generated_room_id_is_plain "123e4567-e89b-12d3-a456-426614174000").
  reflexivity.
Defined.

(** ** Settings validators *)

Lemma validateMaxPlayers_iff v :
  validateMaxPlayers v = true <->
  exists q, asNumber v = Js.Finite q /\ (2 <= q <= 4)%Q.
Proof.
  unfold validateMaxPlayers. destruct (asNumber v) as [q| | |].
  - destruct (Js.ltb q 2) eqn:H2; cbn [orb].
    + apply ltb_lt in H2. split; [discriminate|].
      intros (q' & [= <-] & Hq). lra.
    + apply ltb_ge in H2. destruct (Js.ltb 4 q) eqn:H4.
      * apply ltb_lt in H4. split; [discriminate|].
        intros (q' & [= <-] & Hq). lra.
      * apply ltb_ge in H4. split; [|reflexivity].
        intros _. exists q. split; [reflexivity | lra].
  - split; [discriminate | intros (q & H & _); discriminate].
  - split; [discriminate | intros (q & H & _); discriminate].
  - split; [discriminate | intros (q & H & _); discriminate].
Qed.

Lemma isInteger_iff q : isInteger q = true <-> exists n : Z, (q == inject_Z n)%Q.
Proof.
  unfold isInteger. rewrite Qeq_bool_iff. split.
  - intros H. exists (Qfloor q). now symmetry.
  - intros [n Hn]. rewrite (Qfloor_comp _ _ Hn), Qfloor_Z. now symmetry.
Qed.

Lemma validateRoundsPerGame_iff v :
  validateRoundsPerGame v = true <->
  exists q n, asNumber v = Js.Finite q /\ (q == inject_Z n)%Q /\ 1 <= n <= 10.
Proof.
  unfold validateRoundsPerGame. destruct (asNumber v) as [q| | |].
  - destruct (isInteger q) eqn:Hi; cbn [negb].
    + apply isInteger_iff in Hi as [n Hn].
      destruct (Js.ltb q 1) eqn:H1; cbn [orb].
      * apply ltb_lt in H1. split; [discriminate|].
        intros (q' & n' & [= <-] & Hq & Hn').
        assert (Hx : (inject_Z n' < inject_Z 1)%Q) by (rewrite <- Hq; exact H1).
        rewrite <- Zlt_Qlt in Hx. lia.
      * apply ltb_ge in H1. destruct (Js.ltb 10 q) eqn:H10.
        -- apply ltb_lt in H10. split; [discriminate|].
           intros (q' & n' & [= <-] & Hq & Hn').
           assert (Hx : (inject_Z 10 < inject_Z n')%Q) by (rewrite <- Hq; exact H10).
           rewrite <- Zlt_Qlt in Hx. lia.
        -- apply ltb_ge in H10. split; [|reflexivity].
           intros _. exists q, n. split; [reflexivity|]. split; [exact Hn|].
           assert (Ha : (inject_Z 1 <= inject_Z n)%Q) by (rewrite <- Hn; exact H1).
           assert (Hb : (inject_Z n <= inject_Z 10)%Q) by (rewrite <- Hn; exact H10).
           rewrite <- Zle_Qle in Ha, Hb. lia.
    + split; [discriminate|].
      intros (q' & n & [= <-] & Hq & _).
      assert (isInteger q = true) by (apply isInteger_iff; now exists n).
      congruence.
  - split; [discriminate | intros (q & n & H & _); discriminate].
  - split; [discriminate | intros (q & n & H & _); discriminate].
  - split; [discriminate | intros (q & n & H & _); discriminate].
Qed.

(** X8: the two settings validators accept exactly the finite numbers from 2
    to 4 (whole or not) and the whole numbers from 1 to 10, and a value they
    accept is the room capacity, respectively the number of rounds of a new
    room, with no clamping. *)
Theorem validated_settings_are_used_as_saved (st : Settings) :
  (validateMaxPlayers (st "maxPlayers") = true <->
   exists q, asNumber (st "maxPlayers") = Js.Finite q /\ (2 <= q <= 4)%Q) /\
  (forall q, asNumber (st "maxPlayers") = Js.Finite q -> (2 <= q <= 4)%Q ->
             (maxPlayers (pickSettings st) == q)%Q) /\
  (validateRoundsPerGame (st "roundsPerGame") = true <->
   exists q n, asNumber (st "roundsPerGame") = Js.Finite q /\
               (q == inject_Z n)%Q /\ 1 <= n <= 10) /\
  (forall q, asNumber (st "roundsPerGame") = Js.Finite q -> (1 <= q)%Q ->
             (Qmax 1 (getSubredditSettingNumber st "roundsPerGame" 3) == q)%Q).
Proof.
  split; [apply validateMaxPlayers_iff|]. split; [|split].
  - intros q Hq [H2 H4]. cbn [pickSettings maxPlayers].
    unfold getSubredditSettingNumber. unfold asNumber in Hq. rewrite Hq.
    rewrite (Q.max_r 2 q) by exact H2. now apply Q.min_r.
  - apply validateRoundsPerGame_iff.
  - intros q Hq H1. unfold getSubredditSettingNumber.
    unfold asNumber in Hq. rewrite Hq. now apply Q.max_r.
Qed.

Lemma setting_unreadable st name fallback :
  Js.isFinite (asNumber (st name)) = false ->
  getSubredditSettingNumber st name fallback = fallback.
Proof.
  unfold getSubredditSettingNumber, asNumber.
  destruct (st name) as [[q| | |]|[q| | |]]; cbn; try discriminate; reflexivity.
Qed.

(** X28: whatever the subreddit settings hold, the numbers the server derives
    from them have their floors (and the capacity its ceiling): capacity 2 to
    4, at least 2 players to start, quick start after at least 1 second,
    inactivity window at least 5 seconds, rounds of at least 20 seconds, at
    least 1 round; and a setting that is unset or not a finite number reads
    as its default: 4, 2, 8, 20, 80 and 3. *)
Theorem derived_settings_have_floors_and_defaults (st : Settings) :
  let ps := pickSettings st in
  let rounds := Qmax 1 (getSubredditSettingNumber st "roundsPerGame" 3) in
  ((2 <= maxPlayers ps <= 4)%Q /\ (2 <= minPlayersToStart ps)%Q /\
   (1 <= quickStartSeconds ps)%Q /\ (5 <= inactiveKickSeconds ps)%Q /\
   (20 <= roundSecondsOf st)%Q /\ (1 <= rounds)%Q) /\
  (Js.isFinite (asNumber (st "maxPlayers")) = false -> maxPlayers ps = 4%Q) /\
  (Js.isFinite (asNumber (st "minPlayersToStart")) = false ->
   minPlayersToStart ps = 2%Q) /\
  (Js.isFinite (asNumber (st "queueQuickStartSeconds")) = false ->
   quickStartSeconds ps = 8%Q) /\
  (Js.isFinite (asNumber (st "inactiveKickSeconds")) = false ->
   inactiveKickSeconds ps = 20%Q) /\
  (Js.isFinite (asNumber (st "roundTimeSec")) = false ->
   roundSecondsOf st = 80%Q) /\
  (Js.isFinite (asNumber (st "roundsPerGame")) = false -> rounds = 3%Q).
Proof.
  intros ps rounds. subst ps rounds. unfold roundSecondsOf.
  cbn [pickSettings maxPlayers minPlayersToStart quickStartSeconds
       inactiveKickSeconds].
  split.
  { split; [split; [apply Q.min_glb; [discriminate | apply Q.le_max_l]
                   | apply Q.le_min_l]|].
    repeat split; apply Q.le_max_l. }
  repeat split; intros H; rewrite (setting_unreadable _ _ _ H); reflexivity.
Qed.

(** ** The queue seen from the endpoints *)

Lemma updateAt_findIndex {A} (f : A -> bool) (g : A -> A) (l : list A) :
  0 <= Js.findIndex f l ->
  exists l1 x l2,
    l = (l1 ++ x :: l2)%list /\ f x = true /\
    (forall y, In y l1 -> f y = false) /\
    List.find f l = Some x /\
    Js.updateAt (Js.findIndex f l) g l = (l1 ++ g x :: l2)%list.
Proof.
  induction l as [|a l IH]; cbn [Js.findIndex]; [lia|].
  destruct (f a) eqn:Fa.
  - intros _. exists [], a, l. cbn. rewrite Fa. repeat split; try reflexivity.
    intros y [].
  - cbv zeta. destruct (Z.ltb_spec (Js.findIndex f l) 0) as [Hlt|Hge]; [lia|].
    intros _. destruct (IH Hge) as (l1 & x & l2 & -> & Fx & Hl1 & Hfind & Hup).
    exists (a :: l1), x, l2. cbn [List.find]. rewrite Fa.
    split; [reflexivity|]. split; [exact Fx|]. split.
    { intros y [<-|Hy]; [exact Fa | now apply Hl1]. }
    split; [exact Hfind|].
    unfold Js.updateAt in *.
    destruct (Z.ltb_spec (Js.findIndex f (l1 ++ x :: l2)) 0); [lia|].
    destruct (Z.ltb_spec (Js.findIndex f (l1 ++ x :: l2) + 1) 0); [lia|].
    replace (Z.to_nat (Js.findIndex f (l1 ++ x :: l2) + 1))
      with (S (Z.to_nat (Js.findIndex f (l1 ++ x :: l2)))) by lia.
    cbn [Js.updateNth app]. now rewrite Hup.
Qed.

Lemma find_none_iff {A} (f : A -> bool) (l : list A) :
  List.find f l = None <-> forall x, In x l -> f x = false.
Proof.
  split; [apply find_none|].
  induction l as [|a l IH]; cbn; [reflexivity|]. intros H.
  rewrite (H a (or_introl eq_refl)). apply IH. intros x Hx. apply H. now right.
Qed.

(** X9: the join upsert on a queue that holds no user twice keeps every
    other entry that is not stale as it is, drops the stale ones, and leaves
    exactly one entry of the caller: the old one with its [joinedAt] (the
    place in line) and a fresh [lastSeen] and name when it was not stale, a
    new one that joins now otherwise. *)
Theorem join_upsert_keeps_place
    (userId userName : string) (now : Z) (cutoff : Q) (raw : Queue) :
  List.NoDup (map QueueEntry.userId raw) ->
  let queue := upsertQueue userId userName now cutoff raw in
  let joined :=
    match List.find (fun q => String.eqb (QueueEntry.userId q) userId)
                    (List.filter (notStale cutoff) raw) with
    | Some old => QueueEntry.joinedAt old
    | None => now
    end in
  forall q,
    In q queue <->
    q = QueueEntry.mk userId userName joined now \/
    (In q raw /\ notStale cutoff q = true /\ QueueEntry.userId q <> userId).
Proof.
  intros Hnd queue joined q. subst queue joined. unfold upsertQueue. cbv zeta.
  rewrite in_sortBy.
  set (fresh := List.filter (notStale cutoff) raw).
  assert (Hfresh : forall x, In x fresh <-> In x raw /\ notStale cutoff x = true)
    by (intros x; apply filter_In).
  assert (Hnd' : List.NoDup (map QueueEntry.userId fresh))
    by (apply NoDup_map_filter; exact Hnd).
  set (f := fun q0 : QueueEntry.t => String.eqb (QueueEntry.userId q0) userId).
  destruct (Z.leb_spec 0 (Js.findIndex f fresh)) as [Hge|Hlt].
  - destruct (updateAt_findIndex f (QueueEntry.refresh now userName) fresh Hge)
      as (l1 & x & l2 & Hl & Fx & Hl1 & Hfind & Hup).
    rewrite Hup, Hfind. apply String.eqb_eq in Fx.
    assert (Hrefresh : QueueEntry.refresh now userName x
                       = QueueEntry.mk userId userName (QueueEntry.joinedAt x) now)
      by (unfold QueueEntry.refresh; now rewrite Fx).
    rewrite Hrefresh.
    assert (Hothers : forall y, In y (l1 ++ l2)%list -> QueueEntry.userId y <> userId).
    { rewrite Hl, map_app in Hnd'. cbn [map] in Hnd'.
      apply List.NoDup_remove_2 in Hnd'. intros y Hy Heq. apply Hnd'.
      rewrite Fx, <- Heq, <- map_app. now apply in_map. }
    rewrite in_app_iff. cbn [In]. split.
    + intros [H|[H|H]].
      * right. assert (Hin : In q fresh) by (rewrite Hl; apply in_or_app; now left).
        apply Hfresh in Hin as [Hraw Hns].
        split; [exact Hraw|]. split; [exact Hns|].
        apply Hothers, in_or_app; now left.
      * left. now symmetry.
      * right.
        assert (Hin : In q fresh) by (rewrite Hl; apply in_or_app; right; now right).
        apply Hfresh in Hin as [Hraw Hns].
        split; [exact Hraw|]. split; [exact Hns|].
        apply Hothers, in_or_app; now right.
    + intros [->|(Hraw & Hns & Hne)]; [right; now left|].
      assert (Hin : In q fresh) by (apply Hfresh; now split).
      rewrite Hl in Hin. apply in_app_iff in Hin as [H|[H|H]].
      * now left.
      * subst x. contradiction.
      * right. now right.
  - assert (Hnone : forall x, In x fresh -> f x = false)
      by (apply findIndex_none; lia).
    rewrite (proj2 (find_none_iff f fresh) Hnone).
    rewrite in_app_iff. cbn [In]. split.
    + intros [H|[H|[]]].
      * right. pose proof (proj1 (Hfresh q) H) as [Hraw Hns].
        split; [exact Hraw|]. split; [exact Hns|].
        intros Heq. specialize (Hnone q H). unfold f in Hnone.
        apply String.eqb_neq in Hnone. contradiction.
      * left. now symmetry.
    + intros [->|(Hraw & Hns & Hne)]; [right; now left|].
      left. apply Hfresh. now split.
Qed.

Lemma join_upsert_keeps_place_witness :
  In (QueueEntry.mk "t2_b" "bob" 1001 9500)
     (upsertQueue "t2_b" "bob" 9500 5000 threeWaiting) /\
  ~ In (entry "t2_b" 1001) (upsertQueue "t2_b" "bob" 9500 5000 threeWaiting).
Proof.
  assert (Hnd : List.NoDup (map QueueEntry.userId threeWaiting)).
  { repeat (constructor; [cbn; intuition discriminate|]). constructor. }
  pose proof (join_upsert_keeps_place "t2_b" "bob" 9500 5000 threeWaiting Hnd)
    as Hspec.
  cbv zeta in Hspec. split.
  - apply Hspec. left. reflexivity.
  - intros Hin. apply Hspec in Hin as [Heq|(_ & _ & Hne)].
    + discriminate Heq.
    + now apply Hne.
Defined.

Lemma apiSession_ctx c postId userId userName w :
  ensureContext c = Ctx postId userId userName ->
  apiSession c w =
  match getUserRoom w userId with
  | Some existingRoomId =>
      if Js.truthy_str (Some existingRoomId) then
        if listsPlayer w existingRoomId userId
        then (w, ResMatched existingRoomId (roomChannel postId existingRoomId)
                            (userChannel postId userId))
        else sessionFromQueue userId (userChannel postId userId)
                              (setUserRoom userId None w)
      else sessionFromQueue userId (userChannel postId userId) w
  | None => sessionFromQueue userId (userChannel postId userId) w
  end.
Proof.
  intros (Hp & Hu & Tp & Tu)%ensureContext_userId.
  unfold apiSession. rewrite Hp, Hu, Tp, Tu. reflexivity.
Qed.

Lemma existsb_userId_In (queue : Queue) u :
  existsb (fun q => String.eqb (QueueEntry.userId q) u) queue = true <->
  In u (map QueueEntry.userId queue).
Proof.
  rewrite existsb_exists, in_map_iff. split.
  - intros (q & Hin & He). apply String.eqb_eq in He. now exists q.
  - intros (q & He & Hin). exists q. split; [exact Hin|]. now apply String.eqb_eq.
Qed.

(** X10: after [/api/matchmaking/leave] the caller is out of the queue, and
    nothing else is touched: the other entries keep their order, rooms and the
    user index are as before, and the next session bootstrap of the caller
    never answers "queued". *)
Theorem cancel_leaves_the_queue
    (c : Context) (postId userId userName : string) (w : World) :
  ensureContext c = Ctx postId userId userName ->
  let w' := fst (apiMatchmakingLeave c w) in
  queue w'
  = List.filter (fun q => negb (String.eqb (QueueEntry.userId q) userId))
                (queue w) /\
  rooms w' = rooms w /\ userRooms w' = userRooms w /\ sent w' = sent w /\
  forall personalChannel n,
    snd (apiSession c w') <> ResQueued personalChannel n.
Proof.
  intros Hctx w'. subst w'. unfold apiMatchmakingLeave. rewrite Hctx.
  cbn [fst]. unfold queueRemoveUserAtomic. cbv zeta.
  unfold MAX_QUEUE_TRANSACTION_RETRIES. rewrite retry_quiet.
  cbn [queue rooms userRooms sent setQueue].
  split; [reflexivity|]. do 3 (split; [reflexivity|]).
  intros pc n. rewrite (apiSession_ctx _ _ _ _ _ Hctx).
  set (w1 := setQueue (removeUser userId (queue w)) w).
  assert (Hout : forall w2, queue w2 = queue w1 ->
                 snd (sessionFromQueue userId (userChannel postId userId) w2)
                 <> ResQueued pc n).
  { intros w2 Hq. unfold sessionFromQueue, loadQueue. cbv zeta. rewrite Hq.
    destruct (existsb _ (queue w1)) eqn:Hin; [|discriminate].
    apply existsb_userId_In in Hin. now apply removeUser_gone in Hin. }
  destruct (getUserRoom w1 userId) as [rid|];
    [destruct (Js.truthy_str (Some rid));
     [destruct (listsPlayer w1 rid userId); [discriminate|]|]|];
    now apply Hout.
Qed.

Lemma cancel_leaves_the_queue_witness :
  queue (fst (apiMatchmakingLeave (asUser "t2_b") fiveQueued))
  = [entry "t2_a" 1000; entry "t2_c" 1002; entry "t2_d" 1003; entry "t2_e" 1004].
Proof.
  destruct (cancel_leaves_the_queue (asUser "t2_b") "t3_post" "t2_b" "t2_b"
              fiveQueued eq_refl) as [Hq _].
  rewrite Hq. reflexivity.
Defined.

Lemma upsertQueue_fresh_entry userId userName now cutoff raw :
  exists e,
    In e (upsertQueue userId userName now cutoff raw) /\
    QueueEntry.userId e = userId /\ QueueEntry.lastSeen e = now.
Proof.
  unfold upsertQueue. cbv zeta.
  set (fresh := List.filter (notStale cutoff) raw).
  set (f := fun q : QueueEntry.t => String.eqb (QueueEntry.userId q) userId).
  destruct (Z.leb_spec 0 (Js.findIndex f fresh)) as [Hge|Hlt].
  - destruct (updateAt_findIndex f (QueueEntry.refresh now userName) fresh Hge)
      as (l1 & x & l2 & Hl & Fx & _ & _ & Hup).
    exists (QueueEntry.refresh now userName x). rewrite in_sortBy, Hup.
    split; [apply in_or_app; right; now left|].
    split; [now apply String.eqb_eq in Fx | reflexivity].
  - exists (QueueEntry.mk userId userName now now). rewrite in_sortBy.
    split; [apply in_or_app; right; now left|]. split; reflexivity.
Qed.

Lemma userRooms_createMatch postId env picked w u :
  userRooms (createMatch postId env picked w) !! u
  = if existsb (fun p => String.eqb (QueueEntry.userId p) u) picked
    then (if Js.truthy_str (Some (roomIdOf (uuid env)))
          then Some (roomIdOf (uuid env)) else None)
    else userRooms w !! u.
Proof.
  unfold createMatch. cbv zeta.
  rewrite (fold_left_frame userRooms) by reflexivity.
  cbn [broadcastRoomState send userRooms].
  now rewrite getUserRoom_fold_set.
Qed.

(** What [maybeStartMatchForPost] does to the queue and to the user index
    when no other client interferes. *)
Lemma maybeStart_effect postId env w w' :
  maybeStartMatchForPost postId env w = Some w' ->
  (queue w' = queue w /\ userRooms w' = userRooms w) \/
  exists picked,
    let fresh :=
      List.filter
        (notStale (staleCutoffOf (pickNow env)
                     (inactiveKickSeconds (pickSettings (settings w)))))
        (queue w) in
    fresh = (picked ++ queue w')%list /\
    forall u,
      userRooms w' !! u
      = if existsb (fun p => String.eqb (QueueEntry.userId p) u) picked
        then (if Js.truthy_str (Some (roomIdOf (uuid env)))
              then Some (roomIdOf (uuid env)) else None)
        else userRooms w !! u.
Proof.
  unfold maybeStartMatchForPost, tryMatchPickAtomic.
  unfold MAX_QUEUE_TRANSACTION_RETRIES. rewrite retry_quiet.
  destruct (matchPickPass _ _ _) as [r|v r] eqn:Hpass.
  - destruct r as [|picked|]; intros H; try discriminate.
    + injection H as <-. left. split; reflexivity.
    + destruct (length picked =? 0)%nat eqn:Hlen; injection H as <-.
      * left. split; reflexivity.
      * exfalso. unfold matchPickPass in Hpass. cbv zeta in Hpass.
        repeat match type of Hpass with
               | (if ?b then _ else _) = _ => destruct b
               | match ?q with _ => _ end = _ => destruct q
               end; discriminate.
  - apply matchPickPass_exec in Hpass. cbv zeta in Hpass.
    destruct Hpass as (_ & _ & -> & ->).
    set (fresh := List.filter _ (queue w)).
    set (picked := firstn _ fresh).
    destruct (length picked =? 0)%nat eqn:Hlen; intros H; injection H as <-.
    + right. exists picked. cbv zeta. cbn [queue setQueue userRooms].
      fold fresh. apply Nat.eqb_eq in Hlen. rewrite Hlen.
      destruct picked; [|discriminate]. split; [reflexivity|].
      intros u. reflexivity.
    + right. exists picked. cbv zeta. rewrite queue_createMatch.
      cbn [queue setQueue]. fold fresh. split.
      * unfold picked. rewrite length_firstn.
        rewrite <- (firstn_skipn (Js.sliceEnd fresh (Qmin (maxPlayers (pickSettings (settings w))) (qlen fresh))) fresh) at 1.
        f_equal. f_equal.
        symmetry. apply Nat.min_l.
        unfold Js.sliceEnd. cbv zeta.
        destruct (Z.ltb_spec (Js.truncate (Qmin (maxPlayers (pickSettings (settings w))) (qlen fresh))) 0); lia.
      * intros u. now rewrite userRooms_createMatch.
Qed.

(** X11: a session bootstrap that follows a matchmaking join gives the same
    answer as the join when that was "matched", and also when it was "queued"
    provided the pick ran within the inactivity window of the join and the
    room id is not empty; nothing is changed by it. *)
Theorem session_after_join_agrees
    (c : Context) (env : JoinEnv) (w w' : World) (r : Response) :
  apiMatchmakingJoin c env w = (w', r) ->
  match r with
  | ResMatched _ _ _ => apiSession c w' = (w', r)
  | ResQueued _ _ =>
      roomIdOf (uuid (startEnv env)) <> "" ->
      (inject_Z (pickNow (startEnv env))
       - inactiveKickSeconds (pickSettings (settings w)) * 1000
       <= inject_Z (joinNow env))%Q ->
      apiSession c w' = (w', r)
  | _ => True
  end.
Proof.
  unfold apiMatchmakingJoin.
  destruct (ensureContext c) as [msg|postId userId userName] eqn:Hctx.
  { intros H. injection H as <- <-. exact I. }
  assert (Hjoin : forall w0,
    Js.truthy_str (getUserRoom w0 userId) = false ->
    settings w0 = settings w ->
    joinQueue postId userId userName env w0 = (w', r) ->
    match r with
    | ResMatched _ _ _ => apiSession c w' = (w', r)
    | ResQueued _ _ =>
        roomIdOf (uuid (startEnv env)) <> "" ->
        (inject_Z (pickNow (startEnv env))
         - inactiveKickSeconds (pickSettings (settings w)) * 1000
         <= inject_Z (joinNow env))%Q ->
        apiSession c w' = (w', r)
    | _ => True
    end).
  { intros w0 Hfalsy Hst. unfold joinQueue. cbv zeta.
    set (w2 := setQueue _ (trackPost postId w0)).
    assert (Hidx2 : userRooms w2 = userRooms w0).
    { unfold w2, trackPost. destruct (Js.includes _ _); reflexivity. }
    assert (Hst2 : settings w2 = settings w).
    { rewrite <- Hst. unfold w2, trackPost. destruct (Js.includes _ _); reflexivity. }
    destruct (upsertQueue_fresh_entry userId userName (joinNow env)
                (staleCutoffOf (joinNow env)
                   (Qmax 5 (getSubredditSettingNumber
                              (settings (trackPost postId w0))
                              "inactiveKickSeconds" 20)))
                (queue (trackPost postId w0))) as (e & He & Heu & Hes).
    assert (Hin2 : In e (queue w2)).
    { unfold w2. cbn [queue setQueue]. unfold queueUpsertAtomic. cbv zeta.
      unfold MAX_QUEUE_TRANSACTION_RETRIES. rewrite retry_quiet. exact He. }
    destruct (maybeStartMatchForPost postId (startEnv env) w2) as [w3|] eqn:Hstart.
    2:{ intros H. injection H as <- <-. exact I. }
    rewrite (apiSession_ctx _ _ _ _ _ Hctx).
    destruct (getUserRoom w3 userId) as [rid|] eqn:Hrid.
    - destruct (Js.truthy_str (Some rid)) eqn:Htruthy;
        intros H; injection H as <- <-.
      + rewrite Hrid, Htruthy.
        destruct (maybeStart_index _ _ _ _ _ _ Hstart Hrid Htruthy) as [Hold|Hnew].
        * unfold getUserRoom in Hold. rewrite Hidx2 in Hold.
          unfold getUserRoom in Hfalsy. rewrite Hold in Hfalsy. congruence.
        * now rewrite Hnew.
      + intros Hroom Hclock. rewrite Hrid, Htruthy.
        unfold sessionFromQueue, loadQueue. cbv zeta.
        replace (existsb _ (queue w3)) with true; [reflexivity|].
        symmetry. apply existsb_userId_In.
        apply maybeStart_effect in Hstart as [[Hq _]|(picked & Hsplit & Hidx)].
        * rewrite Hq, <- Heu. now apply in_map.
        * cbv zeta in Hsplit. rewrite Hst2 in Hsplit.
          assert (Hfresh : In e (picked ++ queue w3)%list).
          { rewrite <- Hsplit. apply filter_In. split; [exact Hin2|].
            unfold notStale, staleCutoffOf. apply geb_le. now rewrite Hes. }
          apply in_app_iff in Hfresh as [Hp|Hq];
            [|rewrite <- Heu; now apply in_map].
          exfalso. specialize (Hidx userId).
          replace (existsb _ picked) with true in Hidx
            by (symmetry; apply existsb_userId_In; rewrite <- Heu; now apply in_map).
          unfold getUserRoom in Hrid. rewrite Hrid in Hidx.
          assert (Ht : Js.truthy_str (Some (roomIdOf (uuid (startEnv env)))) = true).
          { cbn. apply negb_true_iff. now apply String.eqb_neq. }
          rewrite Ht in Hidx. injection Hidx as ->. congruence.
    - intros H. injection H as <- <-. intros Hroom Hclock. rewrite Hrid.
      unfold sessionFromQueue, loadQueue. cbv zeta.
      replace (existsb _ (queue w3)) with true; [reflexivity|].
      symmetry. apply existsb_userId_In.
      apply maybeStart_effect in Hstart as [[Hq _]|(picked & Hsplit & Hidx)].
      + rewrite Hq, <- Heu. now apply in_map.
      + cbv zeta in Hsplit. rewrite Hst2 in Hsplit.
        assert (Hfresh : In e (picked ++ queue w3)%list).
        { rewrite <- Hsplit. apply filter_In. split; [exact Hin2|].
          unfold notStale, staleCutoffOf. apply geb_le. now rewrite Hes. }
        apply in_app_iff in Hfresh as [Hp|Hq];
          [|rewrite <- Heu; now apply in_map].
        exfalso. specialize (Hidx userId).
        replace (existsb _ picked) with true in Hidx
          by (symmetry; apply existsb_userId_In; rewrite <- Heu; now apply in_map).
        unfold getUserRoom in Hrid. rewrite Hrid in Hidx.
        assert (Ht : Js.truthy_str (Some (roomIdOf (uuid (startEnv env)))) = true).
        { cbn. apply negb_true_iff. now apply String.eqb_neq. }
        rewrite Ht in Hidx. discriminate. }
  destruct (getUserRoom w userId) as [existing|] eqn:Hex.
  - destruct (Js.truthy_str (Some existing)) eqn:Htruthy.
    + destruct (listsPlayer w existing userId) eqn:Hlists.
      * intros H. injection H as <- <-.
        rewrite (apiSession_ctx _ _ _ _ _ Hctx), Hex, Htruthy, Hlists. reflexivity.
      * apply Hjoin; [|reflexivity].
        unfold getUserRoom. rewrite getUserRoom_setUserRoom.
        destruct (decide (userId = userId)); [reflexivity | contradiction].
    + apply Hjoin; [|reflexivity]. now rewrite Hex.
  - apply Hjoin; [|reflexivity]. now rewrite Hex.
Qed.

Lemma session_after_join_agrees_witness :
  apiSession (asUser "t2_a")
    (fst (apiMatchmakingJoin (asUser "t2_a")
            {| joinNow := 1000; startEnv := startAt10s |}
            (emptyWorld defaultSettings)))
  = (fst (apiMatchmakingJoin (asUser "t2_a")
            {| joinNow := 1000; startEnv := startAt10s |}
            (emptyWorld defaultSettings)),
     ResQueued (userChannel "t3_post" "t2_a") 1).
Proof.
  apply (session_after_join_agrees (asUser "t2_a")
           {| joinNow := 1000; startEnv := startAt10s |}
           (emptyWorld defaultSettings) _
           (ResQueued (userChannel "t3_post" "t2_a") 1) eq_refl).
  - discriminate.
  - vm_compute. discriminate.
Defined.

(** X12: one pass of the matchmaking sweep over a post adds nothing to its
    queue and changes nothing when the post is not tracked; when it is, every
    entry left in the queue was last seen within the inactivity window of the
    sweep. *)
Theorem sweep_only_removes
    (postId : string) (now : Z) (env : StartEnv) (w : World) :
  let w' := fst (cronMmSweep postId now env w) in
  let cutoff :=
    (inject_Z now
     - Qmax 5 (getSubredditSettingNumber (settings w) "inactiveKickSeconds" 20)
       * 1000)%Q in
  (Js.includes (trackedPosts w) postId = false -> w' = w) /\
  (forall q, In q (queue w') -> In q (queue w)) /\
  (Js.includes (trackedPosts w) postId = true ->
   forall q, In q (queue w') -> notStale cutoff q = true).
Proof.
  intros w' cutoff. subst w'. unfold cronMmSweep.
  destruct (Js.includes (trackedPosts w) postId); cbn [negb].
  2:{ split; [reflexivity|]. split; [auto | discriminate]. }
  cbv zeta. fold cutoff.
  set (w2 := setQueue _ w).
  assert (Hq2 : queue w2 = List.filter (notStale cutoff) (queue w)).
  { unfold w2. cbn [queue setQueue]. unfold queueFilterStaleAtomic. cbv zeta.
    unfold MAX_QUEUE_TRANSACTION_RETRIES. now rewrite retry_quiet. }
  assert (Hsub : forall q, In q (queue (fst
                   match maybeStartMatchForPost postId env w2 with
                   | Some w0 => (w0, ResOk)
                   | None => (w2, ResError 500 "Internal Server Error")
                   end)) -> In q (queue w2)).
  { destruct (maybeStartMatchForPost postId env w2) as [w3|] eqn:Hstart;
      cbn [fst]; [|auto].
    apply maybeStart_effect in Hstart as [[Hq _]|(picked & Hsplit & _)].
    - now rewrite Hq.
    - cbv zeta in Hsplit. intros q Hin.
      assert (Hf : In q (picked ++ queue w3)%list) by (apply in_or_app; now right).
      rewrite <- Hsplit in Hf. now apply filter_In in Hf as [Hf _]. }
  split; [discriminate|]. split.
  - intros q Hin. apply Hsub in Hin. rewrite Hq2 in Hin.
    now apply filter_In in Hin as [Hin _].
  - intros _ q Hin. apply Hsub in Hin. rewrite Hq2 in Hin.
    now apply filter_In in Hin as [_ Hin].
Qed.

(** ** The user index under contention *)

(** X13: however other clients write the user index while [setUserRoom]
    runs, when it returns the stored index maps the user to the room (or has
    no entry for the user when the room id is [null] or empty), and every
    other user's entry is as in the value the write was based on: the one read
    in the pass that commits, or after five conflicts the one the last
    conflicting client wrote. *)
Theorem user_index_write_always_lands
    (userId : string) (roomId : option string)
    (sched : list (Txn.interference (gmap string string)))
    (stored : gmap string string) :
  let passes := firstn MAX_QUEUE_TRANSACTION_RETRIES sched in
  let result := setUserRoomOn userId roomId sched stored in
  exists snapshot,
    In snapshot (stored :: Txn.writes passes) /\
    (Txn.allConflict MAX_QUEUE_TRANSACTION_RETRIES sched = true ->
     snapshot = List.last (Txn.writes passes) stored) /\
    result !! userId = (if Js.truthy_str roomId then roomId else None) /\
    forall u, u <> userId -> result !! u = snapshot !! u.
Proof.
  intros passes result.
  assert (H : exists snapshot,
      In snapshot (stored :: Txn.writes passes) /\
      (Txn.allConflict MAX_QUEUE_TRANSACTION_RETRIES sched = true ->
       snapshot = List.last (Txn.writes passes) stored) /\
      result = updateUserRoom userId roomId snapshot).
  { subst result. unfold setUserRoomOn. cbv zeta.
    destruct (Txn.allConflict MAX_QUEUE_TRANSACTION_RETRIES sched) eqn:Hc.
    - rewrite (retry_exec_contended (updateUserRoom userId roomId)
                 (fun _ => tt) _ _ _ Hc).
      exists (List.last (Txn.writes passes) stored).
      split; [apply last_writes_in|]. split; reflexivity.
    - destruct (retry_exec_uncontended (updateUserRoom userId roomId)
                  (fun _ => tt) _ sched stored Hc)
        as (s & Hin & ->); [unfold MAX_QUEUE_TRANSACTION_RETRIES; lia|].
      exists s. split; [exact Hin|]. split; [discriminate | reflexivity]. }
  destruct H as (snapshot & Hin & Hlast & ->).
  exists snapshot. split; [exact Hin|]. split; [exact Hlast|]. split.
  - rewrite updateUserRoom_lookup.
    destruct (decide (userId = userId)); [reflexivity | contradiction].
  - intros u Hne. rewrite updateUserRoom_lookup.
    destruct (decide (userId = u)); [congruence | reflexivity].
Qed.

(** ** The word pool *)

Lemma WORDS_lengths :
  forallb (fun x => (3 <=? String.length x)%nat && (String.length x <=? 24)%nat)
          WORDS = true.
Proof. reflexivity. Qed.

Lemma getWordPool_nonempty w : getWordPool w <> [].
Proof.
  unfold getWordPool. destruct (activeWords w) as [parsed|]; [|discriminate].
  cbv zeta. destruct (List.filter _ _); discriminate.
Qed.

Lemma getWordPool_lengths w word :
  In word (getWordPool w) ->
  (3 <= String.length word <= 24)%nat.
Proof.
  assert (Hw : In word WORDS -> (3 <= String.length word <= 24)%nat).
  { intros Hin. pose proof (proj1 (forallb_forall _ _) WORDS_lengths _ Hin) as H.
    apply andb_true_iff in H as [H1 H2].
    apply Nat.leb_le in H1, H2. lia. }
  unfold getWordPool. destruct (activeWords w) as [parsed|]; [|exact Hw].
  cbv zeta. destruct (List.filter _ _) as [|x l] eqn:Hf; [exact Hw|].
  rewrite <- Hf. intros [_ H]%filter_In.
  apply andb_true_iff in H as [H1 H2]. apply Nat.leb_le in H1, H2. lia.
Qed.

(** X14: the word pool is never empty and holds only words of 3 to 24
    characters, whatever the stored word list is; for every reading of
    [Math.random()] in [0, 1), [pickWord] yields a word of the pool. *)
Theorem pick_word_always_draws (w : World) (random : Q) :
  (0 <= random)%Q -> (random < 1)%Q ->
  exists word,
    pickWord w random = Some word /\
    In word (getWordPool w) /\
    (3 <= String.length word <= 24)%nat.
Proof.
  intros H0 H1. unfold pickWord. cbv zeta.
  pose proof (getWordPool_nonempty w) as Hne.
  set (pool := getWordPool w) in *.
  set (len := Z.of_nat (length pool)).
  assert (Hlen : 0 < len).
  { subst len. destruct pool; [congruence | cbn [length]; lia]. }
  assert (HlenQ : (0 < inject_Z len)%Q).
  { change 0%Q with (inject_Z 0). now rewrite <- Zlt_Qlt. }
  assert (Hlo : 0 <= Qfloor (random * inject_Z len)).
  { rewrite <- (Qfloor_Z 0). apply Qfloor_resp_le.
    apply Qmult_le_0_compat; [exact H0 | now apply Qlt_le_weak]. }
  assert (Hhi : Qfloor (random * inject_Z len) < len).
  { rewrite Zlt_Qlt. eapply Qle_lt_trans; [apply Qfloor_le|].
    rewrite <- (Qmult_1_l (inject_Z len)) at 2.
    now apply Qmult_lt_compat_r. }
  unfold Js.at_.
  destruct (Z.ltb_spec (Qfloor (random * inject_Z len)) 0); [lia|].
  destruct (nth_error pool (Z.to_nat (Qfloor (random * inject_Z len))))
    as [word|] eqn:Hnth.
  - exists word. split; [reflexivity|].
    assert (Hin : In word pool) by (eapply nth_error_In, Hnth).
    split; [exact Hin | now apply (getWordPool_lengths w)].
  - apply nth_error_None in Hnth. subst len. lia.
Qed.

Lemma pick_word_always_draws_witness :
  exists word, pickWord (emptyWorld defaultSettings) (1 # 2) = Some word /\
               In word WORDS.
Proof.
  destruct (pick_word_always_draws (emptyWorld defaultSettings) (1 # 2))
    as (word & Hpick & Hin & _); [discriminate | reflexivity|].
  exists word. split; [exact Hpick | exact Hin].
Defined.














Lemma in_uniq x l : In x (uniq l) <-> In x l.
Proof.
  induction l as [|a l IH]; cbn; [tauto|].
  rewrite filter_In, IH. split.
  - intros [->|[H _]]; auto.
  - intros [->|H]; [now left|].
    destruct (String.eqb_spec a x) as [->|Hne]; [now left|].
    right. split; [exact H|]. reflexivity.
Qed.

Lemma uniq_nodup l : List.NoDup (uniq l).
Proof.
  induction l as [|a l IH]; cbn; constructor.
  - intros [_ H]%filter_In. now rewrite String.eqb_refl in H.
  - now apply List.NoDup_filter.
Qed.


Lemma filter_all {A} (f : A -> bool) l :
  (forall x, In x l -> f x = true) -> List.filter f l = l.
Proof.
  induction l as [|a l IH]; cbn; [reflexivity|]. intros H.
  rewrite (H a (or_introl eq_refl)). f_equal. apply IH. intros x Hx. apply H. now right.
Qed.



(** ** Scoreboards *)

Lemma insertBy_score_sorted x l :
  StronglySorted (fun a b => Player.score b <= Player.score a) l ->
  StronglySorted (fun a b => Player.score b <= Player.score a)
                 (Js.insertBy byScoreDesc x l).
Proof.
  induction 1 as [|a l Hs IH Ha]; cbn; [repeat constructor|].
  unfold byScoreDesc at 1. destruct (Z.leb_spec (Player.score a) (Player.score x)).
  - constructor; [now constructor|]. constructor; [assumption|].
    eapply List.Forall_impl; [|exact Ha]. cbn. intros b Hb. lia.
  - constructor; [exact IH|].
    apply List.Forall_forall. intros b Hb. apply in_insertBy in Hb as [->|Hb]; [lia|].
    now apply (proj1 (List.Forall_forall _ _) Ha).
Qed.

Lemma sortBy_score_sorted l :
  StronglySorted (fun a b => Player.score b <= Player.score a)
                 (Js.sortBy byScoreDesc l).
Proof.
  induction l as [|x l IH]; cbn; [constructor | now apply insertBy_score_sorted].
Qed.

(** Insertion puts a player in front of the players that have the same
    score. *)
Lemma insertBy_score_stable s x l :
  List.filter (fun p => Player.score p =? s) (Js.insertBy byScoreDesc x l)
  = List.filter (fun p => Player.score p =? s) (x :: l).
Proof.
  induction l as [|a l IH]; [reflexivity|]. cbn [Js.insertBy].
  unfold byScoreDesc at 1.
  destruct (Z.leb_spec (Player.score a) (Player.score x)) as [Hle|Hlt];
    [reflexivity|].
  cbn [List.filter] in *. rewrite IH.
  destruct (Z.eqb_spec (Player.score a) s), (Z.eqb_spec (Player.score x) s);
    try reflexivity.
  lia.
Qed.

Lemma sortBy_score_stable s l :
  List.filter (fun p => Player.score p =? s) (Js.sortBy byScoreDesc l)
  = List.filter (fun p => Player.score p =? s) l.
Proof.
  induction l as [|x l IH]; [reflexivity|]. cbn [Js.sortBy].
  rewrite insertBy_score_stable. cbn [List.filter]. now rewrite IH.
Qed.

(** X16: the player list of a room snapshot holds the players of the room,
    each once, from the highest score to the lowest, players with the same
    score in the order in which they are stored in the room. *)
Theorem scoreboard_is_ranked (room : RoomState.t) (viewerId : string) :
  let board := RoomPublicState.players (publicState room viewerId) in
  Permutation (Js.values (RoomState.players room)) board /\
  StronglySorted (fun a b => Player.score b <= Player.score a) board /\
  forall s,
    List.filter (fun p => Player.score p =? s) board
    = List.filter (fun p => Player.score p =? s)
                  (Js.values (RoomState.players room)).
Proof.
  cbn. split; [apply sortBy_perm|]. split; [apply sortBy_score_sorted|].
  intros s. apply sortBy_score_stable.
Qed.

Lemma sorted_firstn_skipn n (l : list Player.t) :
  StronglySorted (fun a b => Player.score b <= Player.score a) l ->
  forall p q, In p (firstn n l) -> In q (skipn n l) ->
              Player.score q <= Player.score p.
Proof.
  intros Hs p q Hp Hq. rewrite <- (firstn_skipn n l) in Hs.
  apply strongly_sorted_app in Hs as (_ & _ & H). now apply H.
Qed.

(** X17: the score line of the "Game over" message names the leaders: at
    most three players, numbered from 1, none of whom has a lower score than
    a player left out; with no players it is empty. *)
Theorem top_scores_names_the_leaders (room : RoomState.t) :
  exists top rest,
    Permutation (Js.values (RoomState.players room)) (top ++ rest) /\
    length top = Nat.min 3 (length (RoomState.players room)) /\
    StronglySorted (fun a b => Player.score b <= Player.score a) top /\
    (forall p q, In p top -> In q rest -> Player.score q <= Player.score p) /\
    topScores room = Js.join " • " (scoreLines 0 top).
Proof.
  set (board := Js.sortBy byScoreDesc (Js.values (RoomState.players room))).
  exists (firstn 3 board), (skipn 3 board).
  pose proof (sortBy_score_sorted (Js.values (RoomState.players room))) as Hs.
  fold board in Hs.
  split; [rewrite firstn_skipn; apply sortBy_perm|]. split.
  { rewrite length_firstn. f_equal. unfold board.
    rewrite <- (Permutation_length (sortBy_perm byScoreDesc _)).
    unfold Js.values. apply length_map. }
  split.
  { rewrite <- (firstn_skipn 3 board) in Hs.
    now apply strongly_sorted_app in Hs as (Hs & _). }
  split; [now apply sorted_firstn_skipn | reflexivity].
Qed.

(** ** What the player endpoints leave alone *)

(** X18: a request without a post id or without a logged-in user changes
    nothing, whichever player endpoint it is sent to: the session bootstrap
    answers "logged-out", the heartbeat answers ok, the join answers 500 and
    the others 400 with the message that names what is missing. *)
Theorem requests_without_identity_change_nothing
    (c : Context) (message : string) (w : World) :
  ensureContext c = Missing message ->
  (message = "Missing postId (request must come from an interactive post)" \/
   message = "Missing userId (user must be logged in)") /\
  apiSession c w = (w, ResLoggedOut) /\
  (forall env,
     apiMatchmakingJoin c env w = (w, ResError 500 "Matchmaking failed")) /\
  apiMatchmakingLeave c w = (w, ResError 400 message) /\
  (forall now, apiPing c now w = (w, ResOk)) /\
  (forall roomId, apiRoomState c roomId w = (w, ResError 400 message)) /\
  (forall roomId bodyText env,
     apiGuess c roomId bodyText env w = (w, ResError 400 message)) /\
  (forall roomId env, apiAdvance c roomId env w = (w, ResError 400 message)) /\
  (forall roomId env, apiLeave c roomId env w = (w, ResError 400 message)).
Proof.
  intros Hctx.
  assert (Hmsg : message = "Missing postId (request must come from an interactive post)" \/
                 message = "Missing userId (user must be logged in)").
  { revert Hctx. unfold ensureContext.
    destruct (negb (Js.truthy_str (ctxPostId c))); [intros [= <-]; now left|].
    destruct (negb (Js.truthy_str (ctxUserId c))); [intros [= <-]; now right|].
    destruct (ctxPostId c), (ctxUserId c); try discriminate;
      intros [= <-]; now left. }
  split; [exact Hmsg|]. split.
  { revert Hctx. unfold ensureContext, apiSession.
    destruct (ctxPostId c) as [p|], (ctxUserId c) as [u|]; try reflexivity.
    destruct (negb (Js.truthy_str (Some p))); [reflexivity|].
    destruct (negb (Js.truthy_str (Some u))); [reflexivity | discriminate]. }
  unfold apiMatchmakingJoin, apiMatchmakingLeave, apiPing, apiRoomState,
    apiGuess, apiAdvance, apiLeave.
  rewrite Hctx. repeat split.
Qed.

Lemma requests_without_identity_change_nothing_witness :
  apiSession anonymous (duelWorld "t2_a") = (duelWorld "t2_a", ResLoggedOut) /\
  apiLeave anonymous "123e4567e8" leaving (duelWorld "t2_a")
  = (duelWorld "t2_a", ResError 400 "Missing userId (user must be logged in)").
Proof.
  destruct (requests_without_identity_change_nothing anonymous
              "Missing userId (user must be logged in)" (duelWorld "t2_a") eq_refl)
    as (_ & Hs & _ & _ & _ & _ & _ & _ & Hl).
  split; [exact Hs | apply Hl].
Defined.



(** X20: the heartbeat always answers ok and never touches the queue (a
    queued user is kept alive by the join poll only), the user index or the
    outbox; in the room the index names for the caller it sets the caller's
    [lastSeen] and the room's [updatedAt] and nothing else: every score, the
    turn order, the round and the word stay as they are. *)
Theorem heartbeat_touches_only_last_seen (c : Context) (now : Z) (w : World) :
  let w' := fst (apiPing c now w) in
  snd (apiPing c now w) = ResOk /\
  queue w' = queue w /\ userRooms w' = userRooms w /\ sent w' = sent w /\
  (rooms w' = rooms w \/
   exists userId roomId stored room',
     getUserRoom w userId = Some roomId /\
     loadRoom w roomId = Some stored /\
     rooms w' = <[safe (RoomState.roomId stored) := room']> (rooms w) /\
     RoomState.updatedAt room' = now /\
     option_map Player.lastSeen (Js.get (RoomState.players room') userId)
     = Some now /\
     (forall u, option_map Player.score (Js.get (RoomState.players room') u)
                = option_map Player.score (Js.get (RoomState.players stored) u)) /\
     (forall u, u <> userId ->
                Js.get (RoomState.players room') u
                = Js.get (RoomState.players stored) u) /\
     RoomState.order room' = RoomState.order stored /\
     RoomState.status room' = RoomState.status stored /\
     RoomState.roundNumber room' = RoomState.roundNumber stored /\
     RoomState.drawerUserId room' = RoomState.drawerUserId stored /\
     RoomState.word room' = RoomState.word stored /\
     RoomState.roundEndsAt room' = RoomState.roundEndsAt stored /\
     RoomState.roundResolvedAt room' = RoomState.roundResolvedAt stored).
Proof.
  intros w'. subst w'. unfold apiPing.
  destruct (ensureContext c) as [msg|postId userId userName];
    [cbn; repeat split; now left|].
  destruct (getUserRoom w userId) as [roomId|] eqn:Hidx;
    [|cbn; repeat split; now left].
  destruct (Js.truthy_str (Some roomId)); [|cbn; repeat split; now left].
  destruct (loadRoom w roomId) as [stored|] eqn:Hload; cbn [option_map];
    [|cbn; repeat split; now left].
  destruct (withRoomDefaults_keeps stored)
    as (Hid & Hst & Hpl & Hor & Hrn & Hdr & Hwd & Hre & Hrr & _).
  destruct (Js.has (RoomState.players (withRoomDefaults stored)) userId) eqn:Hhas;
    [|cbn; repeat split; now left].
  cbv zeta. cbn [fst snd saveRoom queue userRooms sent rooms setRooms setRoomIndex].
  do 4 (split; [reflexivity|]). right.
  exists userId, roomId, stored. eexists.
  split; [exact Hidx|]. split; [exact Hload|].
  split; [cbn [RoomState.roomId RoomState.setUpdatedAt RoomState.setPlayers];
          rewrite Hid; reflexivity|].
  cbn [RoomState.updatedAt RoomState.players RoomState.order RoomState.status
       RoomState.roundNumber RoomState.drawerUserId RoomState.word
       RoomState.roundEndsAt RoomState.roundResolvedAt
       RoomState.setUpdatedAt RoomState.setPlayers].
  rewrite Hpl in *. split; [reflexivity|]. split.
  { rewrite get_adjust, String.eqb_refl.
    unfold Js.has in Hhas. destruct (Js.get (RoomState.players stored) userId);
      [reflexivity | discriminate]. }
  split.
  { intros u. rewrite get_adjust.
    destruct (String.eqb_spec u userId) as [->|Hne]; [|reflexivity].
    now destruct (Js.get (RoomState.players stored) userId). }
  split.
  { intros u Hne. rewrite get_adjust.
    destruct (String.eqb_spec u userId); [contradiction | reflexivity]. }
  repeat split; assumption.
Qed.

(** ** Lobby upkeep: tracked posts, reset and garbage collection *)

Lemma uniq_fixed l : List.NoDup l -> uniq l = l.
Proof.
  induction 1 as [|a l Ha Hl IH]; cbn; [reflexivity|].
  rewrite IH. f_equal. apply filter_all. intros y Hy.
  destruct (String.eqb_spec a y) as [->|]; [contradiction | reflexivity].
Qed.

Lemma includes_In l x : Js.includes l x = true <-> In x l.
Proof. unfold Js.includes. apply existsb_eqb_In. Qed.

(** X21: the list of tracked posts behaves as a set kept in order of first
    tracking: [trackPost] adds the post at the end unless it is there,
    [untrackPost] removes it, neither touches another post or anything else
    of the store, and a list without duplicates stays without. *)
Theorem tracked_posts_form_a_set (postId : string) (w : World) :
  let tracked := trackedPosts (trackPost postId w) in
  let untracked := trackedPosts (untrackPost postId w) in
  (forall p, In p tracked <-> p = postId \/ In p (trackedPosts w)) /\
  (forall p, In p untracked <-> p <> postId /\ In p (trackedPosts w)) /\
  (List.NoDup (trackedPosts w) ->
   List.NoDup tracked /\
   (~ In postId (trackedPosts w) ->
    tracked = (trackedPosts w ++ [postId])%list) /\
   untracked
   = List.filter (fun p => negb (String.eqb p postId)) (trackedPosts w)) /\
  List.NoDup untracked /\
  trackPost postId (trackPost postId w) = trackPost postId w /\
  (forall p, In p (trackedPosts (untrackPost postId (trackPost postId w)))
             <-> p <> postId /\ In p (trackedPosts w)).
Proof.
  intros tracked untracked.
  assert (Htr : forall p, In p tracked <-> p = postId \/ In p (trackedPosts w)).
  { intros p. subst tracked. unfold trackPost.
    destruct (Js.includes (trackedPosts w) postId) eqn:Hinc.
    - apply includes_In in Hinc. split; [now right|].
      intros [->|H]; assumption.
    - cbn [trackedPosts setTrackedPosts]. rewrite in_uniq, in_app_iff. cbn.
      intuition. }
  assert (Hun : forall l p,
            In p (uniq (List.filter (fun id => negb (String.eqb id postId)) l))
            <-> p <> postId /\ In p l).
  { intros l p. rewrite in_uniq, filter_In. split.
    - intros [Hin Hne]. split; [|exact Hin]. intros ->.
      now rewrite String.eqb_refl in Hne.
    - intros [Hne Hin]. split; [exact Hin|].
      now destruct (String.eqb_spec p postId). }
  split; [exact Htr|]. split; [apply Hun|]. split; [|split; [|split]].
  - intros Hnd. split; [|split].
    + subst tracked. unfold trackPost.
      destruct (Js.includes (trackedPosts w) postId); [exact Hnd|].
      apply uniq_nodup.
    + intros Hnot. subst tracked. unfold trackPost.
      destruct (Js.includes (trackedPosts w) postId) eqn:Hinc;
        [apply includes_In in Hinc; contradiction|].
      cbn [trackedPosts setTrackedPosts]. apply uniq_fixed.
      eapply Permutation_NoDup; [apply Permutation_cons_append|].
      now constructor.
    + subst untracked. unfold untrackPost. cbv zeta.
      cbn [trackedPosts setTrackedPosts]. apply uniq_fixed.
      now apply List.NoDup_filter.
  - apply uniq_nodup.
  - unfold trackPost at 1.
    replace (Js.includes (trackedPosts (trackPost postId w)) postId) with true;
      [reflexivity|].
    symmetry. apply includes_In, Htr. now left.
  - intros p. unfold untrackPost at 1. cbv zeta.
    cbn [trackedPosts setTrackedPosts]. rewrite Hun. fold tracked. rewrite Htr.
    intuition.
Qed.

Lemma fold_delete_lookup (f : string -> string) ids
    (m : gmap string RoomState.t) key :
  fold_left (fun m id => delete (f id) m) ids m !! key
  = if existsb (fun id => String.eqb (f id) key) ids then None else m !! key.
Proof.
  revert m. induction ids as [|id ids IH]; intros m; cbn [fold_left existsb];
    [reflexivity|].
  rewrite IH. destruct (existsb _ ids); cbn; [now rewrite orb_true_r|].
  rewrite orb_false_r. destruct (String.eqb_spec (f id) key) as [->|Hne].
  - apply lookup_delete_eq.
  - now apply lookup_delete_ne.
Qed.

Lemma indexedRoomIds_In w roomId :
  In roomId (indexedRoomIds w) <-> roomIndex w !! roomId <> None.
Proof.
  unfold indexedRoomIds. rewrite in_map_iff. split.
  - intros ([k v] & <- & Hin). cbn.
    apply list_elem_of_In, elem_of_map_to_list in Hin. congruence.
  - intros H. destruct (roomIndex w !! roomId) as [v|] eqn:E; [|contradiction].
    exists (roomId, v). split; [reflexivity|].
    now apply list_elem_of_In, elem_of_map_to_list.
Qed.

(** X22: [resetLobby] empties the queue, the room index and the user index,
    deletes the record of every room the index names and no other, and
    reports how many the index named; after it every logged-in user's session
    bootstrap answers "menu". *)
Theorem reset_lobby_sends_everyone_to_the_menu (w : World) :
  let w' := fst (resetLobby w) in
  snd (resetLobby w) = size (roomIndex w) /\
  queue w' = [] /\ roomIndex w' = ∅ /\ userRooms w' = ∅ /\
  (forall roomId, roomIndex w !! roomId <> None -> loadRoom w' roomId = None) /\
  (forall key,
     (forall roomId, roomIndex w !! roomId <> None -> safe roomId <> key) ->
     rooms w' !! key = rooms w !! key) /\
  settings w' = settings w /\ trackedPosts w' = trackedPosts w /\
  activeWords w' = activeWords w /\ sent w' = sent w /\
  forall c postId userId userName,
    ensureContext c = Ctx postId userId userName ->
    apiSession c w' = (w', ResMenu (userChannel postId userId)).
Proof.
  intros w'. subst w'. unfold resetLobby. cbv zeta.
  cbn [fst snd queue roomIndex userRooms rooms settings trackedPosts
       activeWords sent].
  split.
  { unfold indexedRoomIds. rewrite length_map. apply length_map_to_list. }
  do 3 (split; [reflexivity|]). split.
  { intros roomId Hidx. unfold loadRoom. cbn [rooms].
    rewrite fold_delete_lookup.
    replace (existsb _ (indexedRoomIds w)) with true; [reflexivity|].
    symmetry. apply existsb_exists. exists roomId.
    split; [now apply indexedRoomIds_In | apply String.eqb_refl]. }
  split.
  { intros key Hkey. rewrite fold_delete_lookup.
    destruct (existsb _ (indexedRoomIds w)) eqn:E; [|reflexivity].
    apply existsb_exists in E as (roomId & Hin & He).
    apply String.eqb_eq in He. apply indexedRoomIds_In in Hin.
    now apply Hkey in Hin. }
  do 4 (split; [reflexivity|]).
  intros c postId userId userName Hctx.
  rewrite (apiSession_ctx _ _ _ _ _ Hctx). unfold getUserRoom.
  cbn [userRooms]. rewrite lookup_empty. reflexivity.
Qed.

Lemma shouldDelete_defaults now room :
  shouldDelete now (withRoomDefaults room) = shouldDelete now room.
Proof.
  unfold shouldDelete.
  destruct (withRoomDefaults_keeps room) as (_ & _ & _ & -> & _).
  unfold withRoomDefaults. now destruct (Js.ltb _ _).
Qed.

(** One room id of the pass in terms of [shouldDelete]. *)
Lemma gcRoom_cases now w roomId :
  match loadRoom w roomId with
  | Some stored =>
      if shouldDelete now stored then
        rooms (gcRoom now w roomId) = delete (safe roomId) (rooms w) /\
        roomIndex (gcRoom now w roomId) = delete roomId (roomIndex w) /\
        forall u,
          userRooms (gcRoom now w roomId) !! u
          = if existsb (String.eqb u) (RoomState.order stored)
            then None else userRooms w !! u
      else gcRoom now w roomId = w
  | None => gcRoom now w roomId = w
  end.
Proof.
  unfold gcRoom. destruct (loadRoom w roomId) as [stored|]; cbn [option_map];
    [|reflexivity].
  cbv zeta. fold (shouldDelete now (withRoomDefaults stored)).
  rewrite shouldDelete_defaults.
  destruct (shouldDelete now stored); cbn [negb]; [|reflexivity].
  destruct (withRoomDefaults_keeps stored) as (_ & _ & _ & -> & _).
  unfold deleteRoom. cbn [rooms roomIndex userRooms setRooms setRoomIndex].
  rewrite !(fold_left_frame rooms), !(fold_left_frame roomIndex) by reflexivity.
  split; [reflexivity|]. split; [reflexivity|].
  intros u. apply getUserRoom_fold_clear.
Qed.

Lemma gcRoom_frames now w roomId :
  queue (gcRoom now w roomId) = queue w /\
  sent (gcRoom now w roomId) = sent w /\
  settings (gcRoom now w roomId) = settings w.
Proof.
  unfold gcRoom. destruct (option_map _ _) as [room|]; [|repeat split].
  cbv zeta. destruct (negb _); [repeat split|].
  unfold deleteRoom. cbn [queue sent settings setRooms setRoomIndex].
  rewrite (fold_left_frame queue), (fold_left_frame sent),
    (fold_left_frame settings) by reflexivity.
  repeat split.
Qed.

Lemma gcRoom_shrinks now w roomId :
  dropped (rooms w) (rooms (gcRoom now w roomId)) /\
  (forall u, userRooms (gcRoom now w roomId) !! u = userRooms w !! u \/
             userRooms (gcRoom now w roomId) !! u = None) /\
  (forall key room, rooms w !! key = Some room -> shouldDelete now room = false ->
                    rooms (gcRoom now w roomId) !! key = Some room).
Proof.
  pose proof (gcRoom_cases now w roomId) as H. unfold loadRoom in H.
  destruct (rooms w !! safe roomId) as [stored|] eqn:Hload.
  - destruct (shouldDelete now stored) eqn:Hdel.
    + destruct H as (Hr & _ & Hu). split; [|split].
      * rewrite Hr. apply dropped_delete.
      * intros u. rewrite Hu. destruct (existsb _ _); auto.
      * intros key room Hk Hkeep. rewrite Hr.
        destruct (decide (safe roomId = key)) as [<-|Hne]; [congruence|].
        now rewrite lookup_delete_ne.
    + rewrite H. split; [apply dropped_refl|]. split; auto.
  - rewrite H. split; [apply dropped_refl|]. split; auto.
Qed.

Lemma gc_fold_shrinks now ids w :
  dropped (rooms w) (rooms (fold_left (gcRoom now) ids w)) /\
  (forall u, userRooms (fold_left (gcRoom now) ids w) !! u = userRooms w !! u \/
             userRooms (fold_left (gcRoom now) ids w) !! u = None) /\
  (forall key room, rooms w !! key = Some room -> shouldDelete now room = false ->
                    rooms (fold_left (gcRoom now) ids w) !! key = Some room).
Proof.
  revert w. induction ids as [|id ids IH]; intros w; cbn [fold_left].
  - split; [apply dropped_refl|]. split; auto.
  - destruct (gcRoom_shrinks now w id) as (Hd & Hu & Hk).
    destruct (IH (gcRoom now w id)) as (Hd' & Hu' & Hk').
    split; [eapply dropped_trans; eassumption|]. split.
    + intros u. destruct (Hu' u) as [-> | ->]; [apply Hu | now right].
    + intros key room Hroom Hkeep. apply Hk'; [|exact Hkeep]. now apply Hk.
Qed.

Lemma gc_fold_removes now ids w roomId stored :
  In roomId ids ->
  loadRoom w roomId = Some stored -> shouldDelete now stored = true ->
  loadRoom (fold_left (gcRoom now) ids w) roomId = None /\
  forall u, In u (RoomState.order stored) ->
            userRooms (fold_left (gcRoom now) ids w) !! u = None.
Proof.
  revert w. induction ids as [|id ids IH]; intros w Hin Hload Hdel;
    [destruct Hin|].
  cbn [fold_left].
  destruct (gc_fold_shrinks now ids (gcRoom now w id)) as (Hd & Hu & _).
  pose proof (gcRoom_cases now w id) as Hcase.
  destruct (decide (safe id = safe roomId)) as [Hkey|Hkey].
  - (* this id names the record: it is deleted now *)
    unfold loadRoom in Hcase, Hload. rewrite Hkey, Hload, Hdel in Hcase.
    destruct Hcase as (Hr & _ & Hidx). split.
    + unfold loadRoom. destruct (Hd (safe roomId)) as [-> | ->]; [|reflexivity].
      rewrite Hr, <- Hkey. apply lookup_delete_eq.
    + intros u Hin'. destruct (Hu u) as [-> | ->]; [|reflexivity].
      rewrite Hidx.
      replace (existsb (String.eqb u) (RoomState.order stored)) with true;
        [reflexivity|].
      symmetry. now apply existsb_eqb_In.
  - (* another record: this one is still there *)
    destruct Hin as [->|Hin]; [contradiction|].
    apply IH; [exact Hin | | exact Hdel].
    destruct (gcRoom_shrinks now w id) as (Hd1 & _ & _).
    unfold loadRoom in *.
    destruct (rooms w !! safe id) as [other|].
    + destruct (shouldDelete now other).
      * destruct Hcase as (Hr & _). rewrite Hr.
        now rewrite lookup_delete_ne.
      * now rewrite Hcase.
    + now rewrite Hcase.
Qed.

(** X23: one pass of the room garbage collection over a tracked post deletes
    every indexed room whose turn order has fewer than two users or that was
    not updated for more than 30 minutes, and clears the index entries of the
    users in its turn order; it keeps every other room as it is, never adds
    an index entry and sends no message; a post that is not tracked is not
    visited. *)
Theorem room_gc_removes_idle_rooms (postId : string) (now : Z) (w : World) :
  let w' := fst (cronRoomGc postId now w) in
  (Js.includes (trackedPosts w) postId = false -> w' = w) /\
  (Js.includes (trackedPosts w) postId = true ->
   forall roomId stored,
     roomIndex w !! roomId <> None ->
     loadRoom w roomId = Some stored ->
     shouldDelete now stored = true ->
     loadRoom w' roomId = None /\
     forall u, In u (RoomState.order stored) -> getUserRoom w' u = None) /\
  (forall key room,
     rooms w !! key = Some room -> shouldDelete now room = false ->
     rooms w' !! key = Some room) /\
  (forall key room, rooms w' !! key = Some room -> rooms w !! key = Some room) /\
  (forall u rid, getUserRoom w' u = Some rid -> getUserRoom w u = Some rid) /\
  queue w' = queue w /\ sent w' = sent w.
Proof.
  intros w'. subst w'. unfold cronRoomGc.
  destruct (Js.includes (trackedPosts w) postId); cbn [negb fst].
  2:{ split; [reflexivity|]. split; [discriminate|]. repeat split; auto. }
  destruct (gc_fold_shrinks now (indexedRoomIds w) w) as (Hd & Hu & Hk).
  split; [discriminate|]. split.
  { intros _ roomId stored Hidx Hload Hdel.
    apply gc_fold_removes; [now apply indexedRoomIds_In | exact Hload | exact Hdel]. }
  split; [exact Hk|]. split.
  { intros key room Hroom. destruct (Hd key) as [H|H]; congruence. }
  split.
  { unfold getUserRoom. intros u rid Hrid. destruct (Hu u) as [H|H]; congruence. }
  split.
  - apply fold_left_frame. intros w0 id. apply gcRoom_frames.
  - apply fold_left_frame. intros w0 id. apply gcRoom_frames.
Qed.

Lemma trackedPosts_createMatch postId env picked w :
  trackedPosts (createMatch postId env picked w) = trackedPosts w.
Proof.
  unfold createMatch. cbv zeta.
  rewrite (fold_left_frame trackedPosts) by reflexivity.
  cbn [broadcastRoomState send trackedPosts].
  rewrite (fold_left_frame trackedPosts) by reflexivity. reflexivity.
Qed.

Lemma trackedPosts_joinQueue postId userId userName env w :
  trackedPosts (fst (joinQueue postId userId userName env w))
  = trackedPosts (trackPost postId w).
Proof.
  unfold joinQueue. cbv zeta.
  set (w2 := setQueue _ (trackPost postId w)).
  destruct (maybeStartMatchForPost postId (startEnv env) w2) as [w3|] eqn:Hstart;
    [|reflexivity].
  assert (H3 : trackedPosts w3 = trackedPosts (trackPost postId w)).
  { apply maybeStart_cases in Hstart as [[stored ->]|(stored & picked & _ & ->)].
    - reflexivity.
    - now rewrite trackedPosts_createMatch. }
  destruct (getUserRoom w3 userId); [destruct (Js.truthy_str _)|]; exact H3.
Qed.

(** X29: the post-delete trigger resets the lobby of the post and stops
    tracking it, so the matchmaking sweep and the room garbage collection
    pass it by from then on; other posts stay tracked, and the next join on
    the post tracks it again. *)
Theorem deleted_post_is_left_alone (c : Context) (postId : string) (w : World) :
  ctxPostId c = Some postId -> postId <> "" ->
  let w' := fst (triggerPostDelete c w) in
  queue w' = [] /\ roomIndex w' = ∅ /\ userRooms w' = ∅ /\
  Js.includes (trackedPosts w') postId = false /\
  (forall p, p <> postId ->
             (In p (trackedPosts w') <-> In p (trackedPosts w))) /\
  (forall now env, cronMmSweep postId now env w' = (w', ResOk)) /\
  (forall now, cronRoomGc postId now w' = (w', ResOk)) /\
  (forall userId userName env,
     Js.includes
       (trackedPosts (fst (joinQueue postId userId userName env w'))) postId
     = true).
Proof.
  intros Hc Hne w'. subst w'. unfold triggerPostDelete. rewrite Hc.
  replace (Js.truthy_str (Some postId)) with true
    by (symmetry; cbn; apply negb_true_iff; now apply String.eqb_neq).
  cbn [fst]. set (w1 := fst (resetLobby w)).
  assert (Hin : forall p, In p (trackedPosts (untrackPost postId w1))
                          <-> p <> postId /\ In p (trackedPosts w)).
  { intros p. unfold untrackPost. cbv zeta. cbn [trackedPosts setTrackedPosts].
    rewrite in_uniq, filter_In. change (trackedPosts w1) with (trackedPosts w).
    split.
    - intros [Hp Hn]. split; [|exact Hp]. intros ->.
      now rewrite String.eqb_refl in Hn.
    - intros [Hn Hp]. split; [exact Hp|]. now destruct (String.eqb_spec p postId). }
  assert (Hout : Js.includes (trackedPosts (untrackPost postId w1)) postId = false).
  { destruct (Js.includes _ postId) eqn:E; [|reflexivity].
    apply includes_In, Hin in E as [E _]. contradiction. }
  split; [reflexivity|]. split; [reflexivity|]. split; [reflexivity|].
  split; [exact Hout|]. split.
  { intros p Hp. rewrite Hin. tauto. }
  split; [intros now env; unfold cronMmSweep; now rewrite Hout|].
  split; [intros now; unfold cronRoomGc; now rewrite Hout|].
  intros userId userName env. rewrite trackedPosts_joinQueue.
  apply includes_In. unfold trackPost. rewrite Hout.
  cbn [trackedPosts setTrackedPosts]. apply in_uniq, in_or_app. right. now left.
Qed.

Lemma deleted_post_is_left_alone_witness :
  cronMmSweep "t3_post" 10000 startAt10s
    (fst (triggerPostDelete (asUser "t2_a") afterTwoJoins))
  = (fst (triggerPostDelete (asUser "t2_a") afterTwoJoins), ResOk) /\
  Js.includes (trackedPosts afterTwoJoins) "t3_post" = true.
Proof.
  destruct (deleted_post_is_left_alone (asUser "t2_a") "t3_post" afterTwoJoins
              eq_refl ltac:(discriminate))
    as (_ & _ & _ & _ & _ & Hsweep & _).
  split; [apply Hsweep | reflexivity].
Defined.

(** ** Match start *)

Lemma sent_fold_send {A} (chan : A -> string) (msg : A -> RealtimeMessage) l w :
  sent (fold_left (fun w p => send (chan p) (msg p) w) l w)
  = (sent w ++ map (fun p => (chan p, msg p)) l)%list.
Proof.
  revert w. induction l as [|p l IH]; intros w; cbn [fold_left map].
  - now rewrite app_nil_r.
  - rewrite IH. cbn [send sent]. now rewrite <- app_assoc.
Qed.

Lemma sent_createMatch postId env picked w :
  let roomId := roomIdOf (uuid env) in
  let chan := roomChannel postId roomId in
  let room :=
    newRoom roomId picked (createNow env) (roundSecondsOf (settings w))
            (Qmax 1 (getSubredditSettingNumber (settings w) "roundsPerGame" 3))
            (pickWord w (wordRandom env)) in
  sent (createMatch postId env picked w)
  = (sent w
     ++ [(chan, MsgSystem "Match found! Starting round 1.");
         (chan, roomStateMessage room)]
     ++ map (fun p => (userChannel postId (QueueEntry.userId p),
                       MsgMatchFound roomId chan)) picked)%list.
Proof.
  intros roomId chan room. unfold createMatch. cbv zeta.
  rewrite sent_fold_send. unfold broadcastRoomState. cbn [send sent].
  rewrite (fold_left_frame sent) by reflexivity.
  cbn [saveRoom sent setRoomIndex setRooms newRoom RoomState.roomId].
  fold roomId chan. now rewrite <- !app_assoc.
Qed.

(** X27: when [maybeStartMatchForPost] starts a match, the picked entries
    are the head of the fresh part of the queue and leave it; the new room is
    stored under the generated id with the picked users as its turn order;
    the room channel gets the system line and a room snapshot, then every
    picked user gets "match-found" on the personal channel, in queue order;
    every picked user is indexed to the room and no other index entry
    changes.  When no match starts nothing is sent. *)
Theorem match_start_seats_and_notifies
    (postId : string) (env : StartEnv) (w w' : World) :
  maybeStartMatchForPost postId env w = Some w' ->
  (sent w' = sent w /\ rooms w' = rooms w /\ userRooms w' = userRooms w) \/
  exists picked room,
    let roomId := roomIdOf (uuid env) in
    let chan := roomChannel postId roomId in
    picked <> [] /\
    List.filter
      (notStale (staleCutoffOf (pickNow env)
                   (inactiveKickSeconds (pickSettings (settings w)))))
      (queue w)
    = (picked ++ queue w')%list /\
    loadRoom w' roomId = Some room /\
    RoomState.roomId room = roomId /\
    RoomState.order room = map QueueEntry.userId picked /\
    RoomState.drawerUserId room = head (map QueueEntry.userId picked) /\
    sent w'
    = (sent w
       ++ [(chan, MsgSystem "Match found! Starting round 1.");
           (chan, roomStateMessage room)]
       ++ map (fun p => (userChannel postId (QueueEntry.userId p),
                         MsgMatchFound roomId chan)) picked)%list /\
    (roomId <> "" ->
     forall p, In p picked ->
               getUserRoom w' (QueueEntry.userId p) = Some roomId) /\
    (forall u, ~ In u (map QueueEntry.userId picked) ->
               getUserRoom w' u = getUserRoom w u).
Proof.
  unfold maybeStartMatchForPost, tryMatchPickAtomic.
  unfold MAX_QUEUE_TRANSACTION_RETRIES. rewrite retry_quiet.
  destruct (matchPickPass _ _ _) as [r|v r] eqn:Hpass.
  - destruct r as [|picked|]; intros H; try discriminate.
    + injection H as <-. left. repeat split.
    + destruct (length picked =? 0)%nat eqn:Hlen; injection H as <-.
      * left. repeat split.
      * exfalso. unfold matchPickPass in Hpass. cbv zeta in Hpass.
        repeat match type of Hpass with
               | (if ?b then _ else _) = _ => destruct b
               | match ?q with _ => _ end = _ => destruct q
               end; discriminate.
  - apply matchPickPass_exec in Hpass. cbv zeta in Hpass.
    destruct Hpass as (_ & _ & -> & ->).
    set (fresh := List.filter _ (queue w)).
    set (picked := firstn _ fresh).
    destruct (length picked =? 0)%nat eqn:Hlen; intros H; injection H as <-.
    { left. repeat split. }
    right. exists picked. eexists. cbv zeta.
    split; [intros E; rewrite E in Hlen; discriminate|].
    rewrite queue_createMatch. cbn [queue setQueue]. split.
    { unfold picked. rewrite length_firstn.
      rewrite <- (firstn_skipn
                    (Js.sliceEnd fresh
                       (Qmin (maxPlayers (pickSettings (settings w))) (qlen fresh)))
                    fresh) at 1.
      f_equal. f_equal. symmetry. apply Nat.min_l.
      unfold Js.sliceEnd. cbv zeta.
      destruct (Z.ltb_spec
                  (Js.truncate (Qmin (maxPlayers (pickSettings (settings w)))
                                     (qlen fresh))) 0); lia. }
    split.
    { unfold loadRoom. rewrite rooms_createMatch. apply lookup_insert_eq. }
    split; [reflexivity|]. split; [reflexivity|]. split.
    { cbn [newRoom RoomState.drawerUserId]. unfold Js.at_. cbn.
      now destruct (map QueueEntry.userId picked). }
    split; [exact (sent_createMatch postId env picked (setQueue _ w))|]. split.
    + intros Hroom p Hp. unfold getUserRoom. rewrite userRooms_createMatch.
      replace (existsb _ picked) with true
        by (symmetry; apply existsb_userId_In; now apply in_map).
      replace (Js.truthy_str (Some (roomIdOf (uuid env)))) with true;
        [reflexivity|].
      symmetry. cbn. apply negb_true_iff. now apply String.eqb_neq.
    + intros u Hu. unfold getUserRoom. rewrite userRooms_createMatch.
      destruct (existsb _ picked) eqn:E; [|reflexivity].
      apply existsb_userId_In in E. contradiction.
Qed.

Lemma match_start_seats_and_notifies_witness :
  exists w' room,
    maybeStartMatchForPost "t3_post" startAt10s fiveQueued = Some w' /\
    loadRoom w' "123e4567e8" = Some room /\
    RoomState.order room = ["t2_a"; "t2_b"; "t2_c"; "t2_d"] /\
    map QueueEntry.userId (queue w') = ["t2_e"] /\
    length (sent w') = 6%nat.
Proof.
  destruct (maybeStartMatchForPost "t3_post" startAt10s fiveQueued)
    as [w'|] eqn:Hstart; [|vm_compute in Hstart; discriminate].
  destruct (match_start_seats_and_notifies "t3_post" startAt10s fiveQueued w' Hstart)
    as [(Hsent & _)|(picked & room & Hspec)].
  - exfalso. vm_compute in Hstart. injection Hstart as <-. discriminate Hsent.
  - cbv zeta in Hspec.
    destruct Hspec as (_ & Hsplit & Hload & _ & Horder & _ & Hsent & _).
    exists w', room. split; [reflexivity|]. split; [exact Hload|].
    assert (Hw : queue w' = [entry "t2_e" 1004] /\ length (sent w') = 6%nat).
    { vm_compute in Hstart. injection Hstart as <-. split; reflexivity. }
    destruct Hw as [Hq Hn]. rewrite Hq in Hsplit.
    assert (Hp : picked = [entry "t2_a" 1000; entry "t2_b" 1001;
                           entry "t2_c" 1002; entry "t2_d" 1003]).
    { vm_compute in Hsplit.
      apply (f_equal (fun l => firstn (length l - 1) l)) in Hsplit.
      rewrite length_app in Hsplit. cbn [length] in Hsplit.
      replace (length picked + 1 - 1)%nat with (length picked) in Hsplit by lia.
      rewrite firstn_app, firstn_all, Nat.sub_diag in Hsplit.
      cbn in Hsplit. rewrite app_nil_r in Hsplit. now symmetry. }
    rewrite Horder, Hp, Hq. split; [reflexivity|]. split; [reflexivity | exact Hn].
Defined.

(** ** Scores along a run *)

Lemma scoresGrow_refl room : scoresGrow room room.
Proof. intros u s' H. exists s'. split; [exact H | now left]. Qed.

Lemma scoresGrow_same room room' :
  (forall u, scoreOf room' u = scoreOf room u) -> scoresGrow room room'.
Proof. intros H u s' Hs. rewrite H in Hs. exists s'. split; [exact Hs | now left]. Qed.

Lemma scoresGrow_trans_same room mid room' :
  scoresGrow room mid -> (forall u, scoreOf room' u = scoreOf mid u) ->
  scoresGrow room room'.
Proof. intros H Hs u s' Hu. rewrite Hs in Hu. now apply H. Qed.

Lemma scoreOf_advancedRoom now rs word room u :
  scoreOf (advancedRoom now rs word room) u = scoreOf room u.
Proof.
  unfold scoreOf. now destruct (advancedRoom_keeps now rs word room) as (-> & _).
Qed.

Lemma get_del {V} (o : Js.obj V) k u :
  Js.get (Js.del o k) u = if String.eqb u k then None else Js.get o u.
Proof.
  unfold Js.del. induction o as [|[k' v] o IH]; cbn [List.filter Js.get fst].
  - now destruct (String.eqb u k).
  - destruct (String.eqb_spec k k') as [->|Hk]; cbn [negb Js.get].
    + rewrite IH. now destruct (String.eqb_spec u k').
    + destruct (String.eqb_spec u k') as [->|Hu]; [|exact IH].
      destruct (String.eqb_spec k' k); [congruence | reflexivity].
Qed.

Lemma scoresGrow_award userId now room :
  isDrawer room userId = false ->
  scoresGrow room (awardGuess userId now room).
Proof.
  intros Hnot u s'. unfold scoreOf. rewrite awardGuess_players.
  assert (Hten : forall o, option_map Player.score
                   (Js.get (Js.adjust o userId (Player.addScore 10)) u) = Some s' ->
                 exists s, option_map Player.score (Js.get o u) = Some s /\
                           (s' = s \/ s' = s + 10)).
  { intros o. rewrite get_adjust.
    destruct (String.eqb_spec u userId) as [->|Hne].
    - destruct (Js.get o userId) as [p|]; [|discriminate]. cbn.
      intros [= <-]. eexists. split; [reflexivity | now right].
    - intros H. exists s'. split; [exact H | now left]. }
  destruct (RoomState.drawerUserId room) as [d|] eqn:Hd.
  2:{ intros H. destruct (Hten _ H) as (s & Hs & Hc). exists s. intuition. }
  destruct (Js.truthy_str (Some d) && Js.has (RoomState.players room) d).
  2:{ intros H. destruct (Hten _ H) as (s & Hs & Hc). exists s. intuition. }
  rewrite get_adjust.
  assert (Hdu : d <> userId).
  { unfold isDrawer in Hnot. rewrite Hd in Hnot. now apply String.eqb_neq. }
  destruct (String.eqb_spec u d) as [->|Hne].
  - rewrite get_adjust.
    destruct (String.eqb_spec d userId); [contradiction|].
    destruct (Js.get (RoomState.players room) d) as [p|]; [|discriminate]. cbn.
    intros [= <-]. eexists. split; [reflexivity | now right; right].
  - intros H. destruct (Hten _ H) as (s & Hs & Hc). exists s. intuition.
Qed.

Lemma apiGuess_rooms_guesser c roomId bodyText env w :
  rooms (fst (apiGuess c roomId bodyText env w)) = rooms w \/
  exists userId stored,
    loadRoom w roomId = Some stored /\
    isDrawer stored userId = false /\
    rooms (fst (apiGuess c roomId bodyText env w))
    = <[safe (RoomState.roomId stored) :=
          advancedRoom (advanceNow env) (roundSecondsOf (settings w))
            (pickWord w (advanceRandom env))
            (awardGuess userId (resolveNow env) (withRoomDefaults stored))]>
        (<[safe roomId :=
             awardGuess userId (resolveNow env) (withRoomDefaults stored)]>
           (rooms w)).
Proof.
  unfold apiGuess.
  destruct (ensureContext c) as [msg|postId userId userName]; [now left|].
  destruct (loadRoom w roomId) as [stored|] eqn:Hload; [|now left].
  cbn [option_map].
  repeat match goal with
         | |- context [if ?b then _ else _] =>
             lazymatch b with
             | negb (isCorrect _ _) => fail
             | _ => destruct b; [now left|]
             end
         end.
  cbv zeta.
  destruct (negb (isCorrect _ _)); [now left|].
  unfold MAX_QUEUE_TRANSACTION_RETRIES. rewrite retry_quiet.
  change (loadRoom (send _ _ w) roomId) with (loadRoom w roomId). rewrite Hload.
  destruct (guessPass userId (resolveNow env) (Some stored)) as [r|v r] eqn:Hpass.
  - apply guessPass_return in Hpass as [reply ->]. now left.
  - apply guessPass_exec in Hpass
      as (s & Hs & -> & -> & _ & Hnot & _). injection Hs as <-.
    right. exists userId, stored. split; [reflexivity|]. split; [exact Hnot|].
    cbn [fst]. rewrite advanceOrEndRound_saves.
    destruct (awardGuess_fields userId (resolveNow env) (withRoomDefaults stored))
      as (_ & _ & _ & _ & Hid & _).
    destruct (withRoomDefaults_keeps stored) as (Hid' & _).
    rewrite Hid, Hid'. reflexivity.
Qed.

Lemma isDrawer_defaults room u :
  isDrawer (withRoomDefaults room) u = isDrawer room u.
Proof.
  unfold isDrawer.
  now destruct (withRoomDefaults_keeps room) as (_ & _ & _ & _ & _ & -> & _).
Qed.

(** X26: along every run of the endpoints, one request never adds a player
    to a stored room and never lowers a score: the score of a player who is
    still in the room is the old one, or the old one plus 10 or plus 3, the
    awards of a resolved guess. *)
Theorem scores_only_grow
    (st : Settings) (w : World) (c : Context) (req : Request)
    (key : string) (room room' : RoomState.t) :
  roundsSettingAccepted st -> reachable st w -> admissible w req ->
  rooms w !! key = Some room ->
  rooms (fst (handle c req w)) !! key = Some room' ->
  forall u s',
    scoreOf room' u = Some s' ->
    exists s, scoreOf room u = Some s /\ (s' = s \/ s' = s + 10 \/ s' = s + 3).
Proof.
  intros Hacc Hreach Hadm Hroom Hroom'.
  destruct (reachable_ok st w Hacc Hreach) as [Hok _].
  change (scoresGrow room room').
  assert (Hsame : rooms (fst (handle c req w)) = rooms w -> scoresGrow room room').
  { intros E. rewrite E, Hroom in Hroom'. injection Hroom' as <-.
    apply scoresGrow_refl. }
  assert (Hdrop : dropped (rooms w) (rooms (fst (handle c req w))) ->
                  scoresGrow room room').
  { intros Hd. destruct (Hd key) as [E|E]; rewrite E in Hroom'; [|discriminate].
    rewrite Hroom in Hroom'. injection Hroom' as <-. apply scoresGrow_refl. }
  assert (Hnew : forall k r, rooms w !! k = None ->
            rooms (fst (handle c req w)) = <[k := r]> (rooms w) ->
            scoresGrow room room').
  { intros k r Hfresh E. rewrite E in Hroom'.
    destruct (decide (k = key)) as [->|Hne]; [congruence|].
    rewrite lookup_insert_ne in Hroom' by exact Hne.
    rewrite Hroom in Hroom'. injection Hroom' as <-. apply scoresGrow_refl. }
  assert (Hupd : forall roomId stored r,
            loadRoom w roomId = Some stored ->
            rooms (fst (handle c req w))
            = <[safe (RoomState.roomId stored) := r]> (rooms w) ->
            scoresGrow stored r -> scoresGrow room room').
  { intros roomId stored r Hload E Hgrow. rewrite E in Hroom'.
    destruct (decide (safe (RoomState.roomId stored) = key)) as [Hk|Hne].
    - rewrite Hk, lookup_insert_eq in Hroom'. injection Hroom' as <-.
      pose proof (ok_key _ _ (Hok _ _ Hload)) as Hkey. unfold loadRoom in Hload.
      rewrite Hkey, Hk, Hroom in Hload. now injection Hload as <-.
    - rewrite lookup_insert_ne in Hroom' by exact Hne.
      rewrite Hroom in Hroom'. injection Hroom' as <-. apply scoresGrow_refl. }
  destruct req as [|env| |now|roomId|roomId text env|roomId env|roomId env
                  | | | |postId now env|postId now|fetched];
    cbn [handle admissible] in *.
  - apply Hsame, apiSession_rooms.
  - destruct Hadm as [Hfresh _].
    destruct (apiMatchmakingJoin_rooms c env w) as [H|(picked & word & H)];
      [now apply Hsame | now apply (Hnew _ _ Hfresh H)].
  - apply Hsame, apiMatchmakingLeave_rooms.
  - destruct (apiPing_rooms c now w) as [H|(userId & roomId & stored & Hload & H)];
      [now apply Hsame|].
    apply (Hupd _ _ _ Hload H). apply scoresGrow_same. intros u.
    rewrite <- (scoreOf_defaults stored u). unfold scoreOf.
    cbn [RoomState.players RoomState.setUpdatedAt RoomState.setPlayers].
    rewrite get_adjust. destruct (String.eqb_spec u userId) as [->|]; [|reflexivity].
    now destruct (Js.get _ userId).
  - apply Hsame. now rewrite apiRoomState_world.
  - destruct (apiGuess_rooms_guesser c roomId text env w)
      as [H|(userId & stored & Hload & Hnot & H)]; [now apply Hsame|].
    pose proof (ok_key _ _ (Hok _ _ Hload)) as Hkey.
    rewrite <- Hkey, insert_insert_eq, Hkey in H.
    apply (Hupd _ _ _ Hload H).
    eapply scoresGrow_trans_same; [|intros u; apply scoreOf_advancedRoom].
    intros u s' Hs.
    destruct (scoresGrow_award userId (resolveNow env) (withRoomDefaults stored)
                ltac:(now rewrite isDrawer_defaults) u s' Hs) as (s & Hs0 & Hc).
    exists s. split; [now rewrite <- scoreOf_defaults | exact Hc].
  - destruct (apiAdvance_rooms c roomId env w) as [H|(stored & Hload & _ & H)];
      [now apply Hsame|].
    pose proof (ok_key _ _ (Hok _ _ Hload)) as Hkey.
    rewrite <- Hkey, insert_insert_eq, Hkey in H.
    apply (Hupd _ _ _ Hload H). apply scoresGrow_same. intros u.
    rewrite scoreOf_advancedRoom. apply (scoreOf_defaults stored u).
  - destruct (apiLeave_rooms c roomId env w) as [H|(userId & stored & Hload & H)];
      [now apply Hsame|].
    cbv zeta in H.
    assert (Hleft : forall r,
              (forall u, scoreOf r u
                         = scoreOf (withoutPlayer userId (leaveNow env)
                                                  (withRoomDefaults stored)) u) ->
              scoresGrow stored r).
    { intros r Hr u s' Hs. rewrite Hr in Hs. unfold scoreOf in Hs.
      cbn [withoutPlayer RoomState.players RoomState.setUpdatedAt
           RoomState.setOrder RoomState.setPlayers] in Hs.
      rewrite get_del in Hs. destruct (String.eqb u userId); [discriminate|].
      exists s'. split; [|now left].
      rewrite <- (scoreOf_defaults stored u). exact Hs. }
    destruct H as [H|[[_ H]|H]].
    + apply Hdrop. rewrite H. apply dropped_delete.
    + apply (Hupd _ _ _ Hload H). apply Hleft. intros u.
      now rewrite scoreOf_advancedRoom.
    + apply (Hupd _ _ _ Hload H). now apply Hleft.
  - apply Hsame. unfold triggerPostCreate.
    destruct (ctxPostId c) as [postId|]; [destruct (Js.truthy_str _)|];
      cbn [fst]; [apply rooms_trackPost | reflexivity | reflexivity].
  - unfold triggerPostDelete in *.
    destruct (ctxPostId c) as [postId|]; [destruct (Js.truthy_str _)|];
      cbn [fst] in *; [|now apply Hsame|now apply Hsame].
    apply Hdrop. apply rooms_resetLobby.
  - unfold menuResetLobby in *.
    destruct (ensureContext c) as [msg|postId userId userName]; cbn [fst] in *;
      [now apply Hsame|].
    apply Hdrop. apply rooms_resetLobby.
  - destruct Hadm as [Hfresh _].
    destruct (rooms_cronMmSweep postId now env w) as [H|(picked & word & H)];
      [now apply Hsame | now apply (Hnew _ _ Hfresh H)].
  - apply Hdrop, rooms_cronRoomGc.
  - apply Hsame. unfold cronDailyRotateWords.
    destruct fetched as [lines|]; [|reflexivity].
    cbv zeta. destruct (firstn _ _); reflexivity.
Qed.

Lemma scores_only_grow_witness :
  exists room room' s,
    rooms afterTwoJoins !! "123e4567e8" = Some room /\
    rooms (fst (handle (asUser "t2_b") rightGuess afterTwoJoins)) !! "123e4567e8"
    = Some room' /\
    scoreOf room' "t2_b" = Some 10 /\
    scoreOf room "t2_b" = Some s /\ (10 = s \/ 10 = s + 10 \/ 10 = s + 3).
Proof.
  assert (Hacc : roundsSettingAccepted defaultSettings) by (left; reflexivity).
  assert (Hreach : reachable defaultSettings afterTwoJoins).
  { unfold afterTwoJoins. apply reach_handle; [apply reach_handle|].
    - apply reach_empty.
    - split; [reflexivity | discriminate].
    - split; [reflexivity | discriminate]. }
  assert (Hadm : admissible afterTwoJoins rightGuess) by discriminate.
  destruct (rooms afterTwoJoins !! "123e4567e8") as [room|] eqn:Hr;
    [|vm_compute in Hr; discriminate].
  destruct (rooms (fst (handle (asUser "t2_b") rightGuess afterTwoJoins))
              !! "123e4567e8") as [room'|] eqn:Hr';
    [|vm_compute in Hr'; discriminate].
  assert (Hscore : scoreOf room' "t2_b" = Some 10).
  { vm_compute in Hr'. injection Hr' as <-. reflexivity. }
  destruct (scores_only_grow defaultSettings afterTwoJoins (asUser "t2_b")
              rightGuess "123e4567e8" room room' Hacc Hreach Hadm Hr Hr'
              "t2_b" 10 Hscore) as (s & Hs & Hc).
  exists room, room', s. repeat split; assumption.
Defined.

(** ** Drawing endpoints *)

Lemma clamp_within lo hi n :
  (lo <= hi)%Q -> within lo hi (numMax (Js.Finite lo) (numMin (Js.Finite hi) n)).
Proof.
  intros Hle. destruct n as [q| | |]; cbn.
  - right. eexists. split; [reflexivity|]. split.
    + apply Q.le_max_l.
    + apply Q.max_lub; [exact Hle | apply Q.le_min_l].
  - now left.
  - right. eexists. split; [reflexivity|]. split.
    + apply Q.le_max_l.
    + apply Q.max_lub; [exact Hle | apply Qle_refl].
  - right. exists lo. split; [reflexivity|]. split; [apply Qle_refl | exact Hle].
Qed.

Lemma clipAll_spec points clipped :
  clipAll points = inr clipped ->
  length clipped = length points /\
  forall x y, In (x, y) clipped -> within 0 1 x /\ within 0 1 y.
Proof.
  revert clipped. induction points as [|p points IH]; intros clipped; cbn.
  - intros [= <-]. split; [reflexivity | intros x y []].
  - destruct p as [x y|message]; [|discriminate].
    destruct (clipAll points) as [message|rest]; [discriminate|].
    intros [= <-]. destruct (IH rest eq_refl) as [Hlen Hin].
    split; [cbn; now rewrite Hlen|].
    intros x' y' [[= <- <-]|H]; [|now apply Hin].
    split; apply clamp_within; discriminate.
Qed.

(** X24: a stroke or a canvas-clear goes out only for the drawer of the
    stored room, on the channel of that room and in the drawer's name; a
    stroke carries at most 64 points (two at least unless it ends a stroke),
    every coordinate within 0 and 1 or [NaN], a width within 2 and 10 or
    [NaN], and a colour that is a [#] followed by 3 to 8 hexadecimal
    digits. *)
Theorem canvas_messages_come_from_the_drawer
    (c : Context) (roomId : string) (body : DrawBody) (w : World)
    (chan : string) (msg : CanvasMessage) (r : Response) :
  apiDraw c roomId body w = (Some (chan, msg), r) \/
  apiClear c roomId w = (Some (chan, msg), r) ->
  exists postId userId userName stored,
    ensureContext c = Ctx postId userId userName /\
    loadRoom w roomId = Some stored /\
    RoomState.drawerUserId stored = Some userId /\
    chan = roomChannel postId roomId /\ r = ResOk /\
    match msg with
    | MsgCanvasClear from => from = userId
    | MsgDraw from points color width newStroke endStroke =>
        from = userId /\
        (length points <= 64)%nat /\
        ((2 <= length points)%nat \/ endStroke = true) /\
        (forall x y, In (x, y) points -> within 0 1 x /\ within 0 1 y) /\
        within 2 10 width /\
        colorAccepted color = true /\
        newStroke = bodyNewStroke body /\ endStroke = bodyEndStroke body
    end.
Proof.
  unfold apiDraw, apiClear.
  destruct (ensureContext c) as [message|postId userId userName];
    [intros [H|H]; discriminate|].
  destruct (loadRoom w roomId) as [stored|] eqn:Hload; cbn [option_map];
    [|intros [H|H]; discriminate].
  destruct (isDrawer (withRoomDefaults stored) userId) eqn:Hdrawer; cbn [negb];
    [|intros [H|H]; discriminate].
  assert (Hd : RoomState.drawerUserId stored = Some userId).
  { unfold isDrawer in Hdrawer.
    destruct (withRoomDefaults_keeps stored) as (_ & _ & _ & _ & _ & Hdr & _).
    rewrite Hdr in Hdrawer.
    destruct (RoomState.drawerUserId stored) as [d|]; [|discriminate].
    apply String.eqb_eq in Hdrawer. now subst. }
  intros H. exists postId, userId, userName, stored.
  split; [reflexivity|]. split; [reflexivity|]. split; [exact Hd|].
  destruct H as [H|H].
  - cbv zeta in H.
    destruct (clipAll (firstn 64 (match bodyPoints body with
                                  | Some l => l
                                  | None => []
                                  end))) as [message|clipped] eqn:Hclip;
      [discriminate|].
    destruct ((2 <=? length clipped)%nat || bodyEndStroke body) eqn:Hsend;
      [|discriminate].
    injection H as <- <- <-.
    apply clipAll_spec in Hclip as [Hlen Hin].
    split; [reflexivity|]. split; [reflexivity|]. split; [reflexivity|].
    split; [rewrite Hlen; apply firstn_le_length|]. split.
    { apply orb_true_iff in Hsend as [H2|He]; [left; now apply Nat.leb_le | now right]. }
    split; [exact Hin|]. split; [apply clamp_within; discriminate|].
    split; [|split; reflexivity].
    destruct (colorAccepted (match bodyColor body with
                             | Some s => s
                             | None => "#111"
                             end)) eqn:Hc; [exact Hc | reflexivity].
  - injection H as <- <- <-. split; [reflexivity|]. split; reflexivity.
Qed.

Lemma canvas_messages_come_from_the_drawer_witness :
  apiDraw (asUser "t2_a") "123e4567e8" wildStroke (duelWorld "t2_a")
  = (Some (roomChannel "t3_post" "123e4567e8",
           MsgDraw "t2_a"
                   [(Js.Finite 1, Js.Finite 0); (Js.NaN, Js.Finite (1 # 4))]
                   "#111" (Js.Finite 10) true false),
     ResOk) /\
  apiDraw (asUser "t2_b") "123e4567e8" wildStroke (duelWorld "t2_a")
  = (None, ResError 403 "Not the drawer") /\
  RoomState.drawerUserId (duel "t2_a") = Some "t2_a".
Proof.
  split; [vm_compute; reflexivity|]. split; [reflexivity|].
  destruct (canvas_messages_come_from_the_drawer
              (asUser "t2_a") "123e4567e8" wildStroke (duelWorld "t2_a")
              (roomChannel "t3_post" "123e4567e8")
              (MsgDraw "t2_a"
                       [(Js.Finite 1, Js.Finite 0); (Js.NaN, Js.Finite (1 # 4))]
                       "#111" (Js.Finite 10) true false)
              ResOk)
    as (postId & userId & userName & stored & _ & Hload & Hd & _).
  - left. vm_compute. reflexivity.
  - vm_compute in Hload. injection Hload as <-. reflexivity.
Defined.

(** ** Reports *)

Lemma appendReport_spec {E} (entry : E) (stored : list E) :
  appendReport entry stored = firstn REPORTS_MAX (entry :: stored) /\
  head (appendReport entry stored) = Some entry /\
  length (appendReport entry stored) = Nat.min REPORTS_MAX (S (length stored)).
Proof.
  unfold appendReport. cbv zeta.
  destruct (Nat.ltb_spec REPORTS_MAX (length (entry :: stored))) as [Hlt|Hge].
  - split; [reflexivity|]. split; [reflexivity|].
    rewrite length_firstn. reflexivity.
  - rewrite firstn_all2 by exact Hge. split; [reflexivity|].
    split; [reflexivity|]. cbn [length] in *. lia.
Qed.

Lemma orElse_empty_length n a :
  (String.length
     (if String.eqb (Js.sliceTo n a) "" then "(empty)" else Js.sliceTo n a)
   <= Nat.max n 7)%nat.
Proof.
  destruct (String.eqb _ ""); [cbn; lia|].
  pose proof (sliceTo_length n a). lia.
Qed.

(** X25: a report goes to the front of its list and the list is cut to the
    500 newest; the older reports keep their order.  A word report stores a
    non-empty word of at most 80 characters (["(empty)"] for a blank one), a
    player report a player id that is absent or ["t2_"] followed by 1 to 64
    characters, and either a reason of at most 200 characters. *)
Theorem reports_keep_the_newest_500
    (c : Context) (subreddit : option string) (now : Z)
    (subject alternative reason : option string) :
  (forall (stored : list WordReport),
     let list := reportWord c subreddit now subject alternative reason stored in
     exists entry,
       list = firstn 500 (entry :: stored) /\
       (length list <= 500)%nat /\
       wordReportTs entry = now /\
       reportedWord entry <> "" /\
       (String.length (reportedWord entry) <= 80)%nat /\
       (String.length (wordReportReason entry) <= 200)%nat) /\
  (forall (stored : list PlayerReport),
     let list :=
       reportPlayer c subreddit now subject alternative reason stored in
     exists entry,
       list = firstn 500 (entry :: stored) /\
       (length list <= 500)%nat /\
       playerReportTs entry = now /\
       match reportedPlayerId entry with
       | None => True
       | Some id =>
           exists rest, id = ("t2_" ++ rest)%string /\
                        (1 <= String.length rest <= 64)%nat
       end /\
       (String.length (playerReportReason entry) <= 200)%nat).
Proof.
  split; intros stored list; subst list.
  - unfold reportWord. cbv zeta. eexists.
    split; [apply appendReport_spec|].
    split; [rewrite (proj1 (appendReport_spec _ _)); apply firstn_le_length|].
    cbn [wordReportTs reportedWord wordReportReason].
    split; [reflexivity|]. split.
    { destruct (String.eqb_spec (Js.sliceTo 80 (Js.trim (orElse subject
                                   (orElse alternative "")))) "");
        [discriminate | assumption]. }
    split; [|apply sliceTo_length].
    pose proof (orElse_empty_length 80
                  (Js.trim (orElse subject (orElse alternative "")))). lia.
  - unfold reportPlayer. cbv zeta. eexists.
    split; [apply appendReport_spec|].
    split; [rewrite (proj1 (appendReport_spec _ _)); apply firstn_le_length|].
    cbn [playerReportTs reportedPlayerId playerReportReason].
    split; [reflexivity|]. split; [|apply sliceTo_length].
    destruct (String.eqb_spec (Js.sliceTo 64 (Js.trim (orElse subject
                                 (orElse alternative "")))) "") as [|Hne];
      [exact I|].
    eexists. split; [reflexivity|]. split; [|apply sliceTo_length].
    destruct (Js.sliceTo 64 _); [contradiction | cbn; lia].
Qed.

(** ** What a resolved guess sends *)

(** X30: a right guess that wins the round is announced on the room channel
    by four messages in this order: the chat line with the trimmed guess
    marked correct, "round-ended" with reason "guessed", the system line of
    the next round (or of the end of the game, with the leaders), and the
    snapshot of the room as it is then stored. *)
Theorem right_guess_is_announced
    (c : Context) (roomId text : string) (env : ResolveEnv) (w : World)
    (postId userId userName : string) (stored : RoomState.t) :
  ensureContext c = Ctx postId userId userName ->
  loadRoom w roomId = Some stored ->
  Js.has (RoomState.players stored) userId = true ->
  isDrawer stored userId = false ->
  RoomState.status stored = playing ->
  Js.truthy_Z (RoomState.roundResolvedAt stored) = false ->
  Js.includes (RoomState.guessedCorrectUserIds stored) userId = false ->
  Js.sliceTo 80 (Js.trim text) <> "" ->
  isCorrect stored (Js.sliceTo 80 (Js.trim text)) = true ->
  let resolved := awardGuess userId (resolveNow env) (withRoomDefaults stored) in
  let next :=
    advancedRoom (advanceNow env) (roundSecondsOf (settings w))
                 (pickWord w (advanceRandom env)) resolved in
  let chan := roomChannel postId roomId in
  let chan' := roomChannel postId (RoomState.roomId stored) in
  let line :=
    if lastRound resolved
    then ("Game over! " ++ topScores next)%string
    else ("Round " ++ pretty (RoomState.roundNumber next) ++ " started.")%string in
  snd (apiGuess c roomId (Some text) env w) = ResOk /\
  sent (fst (apiGuess c roomId (Some text) env w))
  = (sent w ++ [(chan, MsgChat userName (Js.sliceTo 80 (Js.trim text)) true);
                (chan, MsgRoundEnded reason_guessed);
                (chan', MsgSystem line);
                (chan', roomStateMessage next)])%list.
Proof.
  intros Hctx Hload Hm Hd Hp Hr Hi Htext Hcorrect resolved next chan chan' line.
  unfold apiGuess. rewrite Hctx, Hload. cbn [option_map].
  destruct (withRoomDefaults_keeps stored)
    as (Hid & Hst & Hpl & _ & _ & Hdr & Hw & _).
  assert (Hd' : isDrawer (withRoomDefaults stored) userId = false).
  { unfold isDrawer in *. now rewrite Hdr. }
  assert (Hc' : isCorrect (withRoomDefaults stored) (Js.sliceTo 80 (Js.trim text)) = true).
  { unfold isCorrect in *. now rewrite Hw. }
  rewrite Hpl, Hm, Hd', Hst, Hp. cbn [negb Status_eqb].
  apply String.eqb_neq in Htext. rewrite Htext, Hc'. cbn [negb].
  unfold MAX_QUEUE_TRANSACTION_RETRIES. rewrite retry_quiet.
  change (loadRoom (send _ _ w) roomId) with (loadRoom w roomId). rewrite Hload.
  rewrite (guessPass_open userId _ stored Hm Hd Hp Hr Hi).
  cbn [fst snd]. split; [reflexivity|]. fold resolved chan.
  destruct (awardGuess_fields userId (resolveNow env) (withRoomDefaults stored))
    as (_ & _ & _ & _ & Hid' & _).
  fold resolved in Hid'.
  subst line next. unfold advanceOrEndRound, advancedRoom.
  destruct (lastRound resolved); cbv zeta;
    cbn [broadcastRoomState send sent saveRoom setRooms setRoomIndex
         storeRoomKey settings endGame startRound RoomState.roomId
         RoomState.setStatus RoomState.setWord RoomState.setDrawerUserId
         RoomState.setRoundEndsAt RoomState.setRoundResolvedAt
         RoomState.setUpdatedAt RoomState.setRoundNumber
         RoomState.setGuessedCorrectUserIds];
    rewrite Hid', Hid; fold chan';
    rewrite <- !app_assoc; reflexivity.
Qed.

Lemma right_guess_is_announced_witness :
  sent (fst (apiGuess (asUser "t2_b") "123e4567e8" (Some " Castle ") early
                      (duelWorld "t2_a")))
  = [("room_t3_post_123e4567e8", MsgChat "t2_b" "Castle" true);
     ("room_t3_post_123e4567e8", MsgRoundEnded reason_guessed);
     ("room_t3_post_123e4567e8", MsgSystem "Round 2 started.");
     ("room_t3_post_123e4567e8",
      roomStateMessage
        (advancedRoom 50001 80 (Some "pineapple")
           (awardGuess "t2_b" 50000 (duel "t2_a"))))].
Proof.
  destruct (right_guess_is_announced (asUser "t2_b") "123e4567e8" " Castle "
              early (duelWorld "t2_a") "t3_post" "t2_b" "t2_b" (duel "t2_a")
              eq_refl eq_refl eq_refl eq_refl eq_refl eq_refl eq_refl
              ltac:(discriminate) eq_refl) as [_ Hsent].
  rewrite Hsent. reflexivity.
Defined.
